(** * A per-document version store: snapshots, binary deltas, reconstruction

    Shallow embedding of [dvcs.py]: the metadata ledger ([VersionEntry],
    [RepoState], [RepoState.load] / [RepoState.save]), the commit engine
    ([DVCS.init], [DVCS.add]) and the reconstructor
    ([DVCS._reconstruct_bytes], [DVCS.get], [DVCS.revert]).

    Python integers are unbounded, hence [Z].  A file's contents are a list
    of bytes.  The repository directory is a finite map from file names to
    contents; [metadata.json] is kept apart from the blobs because its
    content is seen through [json.loads].  Exceptions are values of [exn];
    a method is a function from the world to an outcome and the world it
    leaves behind, so that the effects that precede a raise stay visible. *)

From Stdlib Require Import Ascii.
From stdpp Require Import gmap strings list fin_maps pretty numbers.

Open Scope Z_scope.

(** ** Bytes *)

Abbreviation bytes := (list Byte.byte).

Definition b (s : string) : bytes := String.list_byte_of_string s.

(** ** Exceptions and results *)

Inductive rt_msg :=
| NotInitialized         (* "Repository not initialized. Run `init` first." *)
| NotInitializedForFile  (* "Repository not initialized for this file." *)
| NoSnapshotBefore       (* "No snapshot found before requested version." *)
| NoSnapshotAtOrBefore   (* "No snapshot found at or before requested ..." *)
| FailedToApplyDelta (v : Z)       (* "Failed to apply delta for v{v}: ..." *)
| XdeltaNotAvailable.    (* "xdelta3 not available to apply delta; ..." *)

Inductive exn :=
| FileNotFoundError (name : string)
| JSONDecodeError                    (* a ValueError raised by json.loads *)
| KeyError (key : string)            (* a missing dictionary key *)
| KeyError_entry (ver : Z)           (* "No entry for version {ver}" *)
| TypeError
| IndexError
| ZeroDivisionError
| ValueError_range (last : Z)        (* "version must be in [1, {last}]" *)
| RuntimeError (m : rt_msg).

Inductive result (A : Type) :=
| Ok (a : A)
| Err (e : exn).
Arguments Ok {A} a.
Arguments Err {A} e.

Definition rbind {A B} (r : result A) (k : A → result B) : result B :=
  match r with
  | Ok a => k a
  | Err e => Err e
  end.

Declare Scope result_scope.
Delimit Scope result_scope with res.
Notation "'let?' x ':=' c 'in' k" := (rbind c (λ x, k))
  (at level 10, x pattern, c at level 100, k at level 200) : result_scope.
Open Scope result_scope.

Definition from_option {A} (e : exn) (o : option A) : result A :=
  match o with
  | Some a => Ok a
  | None => Err e
  end.

(** A loop body that may raise, run over the values of a [range]. *)
Fixpoint foldM {A S} (f : S → A → result S) (s : S) (l : list A)
  : result S :=
  match l with
  | [] => Ok s
  | x :: r => let? s' := f s x in foldM f s' r
  end.

(** ** Blob file names: [f"v{ver:04d}{suffix}"] *)

Fixpoint zeros (n : nat) : string :=
  match n with
  | O => ""
  | S k => String "0"%char (zeros k)
  end.

Definition zfill (width : nat) (s : string) : string :=
  zeros (width - String.length s) +:+ s.

(** [format(z, "04d")]: the sign counts in the width and the zeros come
    after it. *)
Definition fmt_04d (z : Z) : string :=
  if decide (z < 0) then "-" +:+ zfill 3 (pretty (Z.abs z))
  else zfill 4 (pretty z).

(** [DVCS._version_file], as the name inside the repo directory *)
Definition _version_file (ver : Z) (snapshot : bool) : string :=
  "v" +:+ fmt_04d ver +:+ (if snapshot then ".snapshot" else ".delta").

(** Reading a decimal prefix back, used only to show that the names of
    two versions never collide. *)
Definition digit_of (c : ascii) : option N :=
  let code := N_of_ascii c in
  if ((48 <=? code) && (code <=? 57))%N then Some (code - 48)%N else None.

Fixpoint read_digits (s : string) (acc : N) : N * string :=
  match s with
  | String c r =>
      match digit_of c with
      | Some d => read_digits r (10 * acc + d)%N
      | None => (acc, s)
      end
  | EmptyString => (acc, s)
  end.

(** ** The ledger: [VersionEntry] and [RepoState] *)

Record VersionEntry := {
  version : Z;
  kind : string;                 (* "snapshot" | "delta" *)
  file : string;                 (* file name in the repo dir *)
  message : string;
  created_at : string;
  base_version : option Z;       (* for deltas, the version it applies from *)
}.

Record RepoState := {
  document_type : string;        (* "docx" | "pdf" *)
  snapshot_interval : Z;
  versions : list VersionEntry;
}.

(** ** JSON, as [json.loads] returns it and [json.dumps] takes it *)

#[local] Set Warnings "-register-all".
Inductive json :=
| JNull
| JBool (x : bool)
| JInt (z : Z)
| JFloat (literal : string)
| JStr (s : string)
| JArr (items : list json)
| JObj (fields : list (string * json)).   (* a dict, keys in insertion order *)

(** What [meta.read_text] followed by [json.loads] makes of the file:
    either the text is no JSON document, or it is the document [j]. *)
Inductive MetaFile :=
| NotJson
| Json (j : json).

Fixpoint dict_get (k : string) (kw : list (string * json)) : option json :=
  match kw with
  | [] => None
  | (k', v) :: r => if String.eqb k k' then Some v else dict_get k r
  end.

(** [data[k]] *)
Definition subscript (data : json) (k : string) : result json :=
  match data with
  | JObj kw => from_option (KeyError k) (dict_get k kw)
  | _ => Err TypeError
  end.

(** [data.get(k, dflt)], on the dict that [data[...]] has already accepted *)
Definition dict_get_default (data : json) (k : string) (dflt : json)
  : result json :=
  match data with
  | JObj kw => Ok (default dflt (dict_get k kw))
  | _ => Err TypeError
  end.

(** [for v in j]: a list yields its items, a dict its keys, a string its
    characters; nothing else is iterable. *)
Definition iterate (j : json) : result (list json) :=
  match j with
  | JArr l => Ok l
  | JObj kw => Ok (map (λ kv, JStr (fst kv)) kw)
  | JStr s =>
      Ok (map (λ c, JStr (String c "")) (String.list_ascii_of_string s))
  | _ => Err TypeError
  end.

Fixpoint mapR {A B} (f : A → result B) (l : list A) : result (list B) :=
  match l with
  | [] => Ok []
  | x :: r => let? y := f x in let? ys := mapR f r in Ok (y :: ys)
  end.

(** The dataclass stores whatever it is given: the fields of a loaded
    entry are JSON values, not yet integers or strings. *)
Record RawVersionEntry := {
  raw_version : json;
  raw_kind : json;
  raw_file : json;
  raw_message : json;
  raw_created_at : json;
  raw_base_version : json;
}.

Record RawRepoState := {
  raw_document_type : json;
  raw_snapshot_interval : json;
  raw_versions : list RawVersionEntry;
}.

Definition entry_fields : list string :=
  ["version"; "kind"; "file"; "message"; "created_at"; "base_version"].

(** [VersionEntry] applied to the keyword arguments [v]: [v] must be a
    mapping, every key must name a field, and the five fields without a
    default must be given. *)
Definition VersionEntry_kwargs (v : json) : result RawVersionEntry :=
  match v with
  | JObj kw =>
      if forallb (λ kv, existsb (String.eqb (fst kv)) entry_fields) kw then
        match dict_get "version" kw, dict_get "kind" kw, dict_get "file" kw,
              dict_get "message" kw, dict_get "created_at" kw with
        | Some ver, Some knd, Some fl, Some msg, Some cr =>
            Ok {| raw_version := ver; raw_kind := knd; raw_file := fl;
                  raw_message := msg; raw_created_at := cr;
                  raw_base_version :=
                    default JNull (dict_get "base_version" kw) |}
        | _, _, _, _, _ => Err TypeError
        end
      else Err TypeError
  | _ => Err TypeError
  end.

(** [RepoState.load], on what [metadata.json] holds ([None]: no such file). *)
Definition RepoState_load (meta : option MetaFile)
  : result (option RawRepoState) :=
  match meta with
  | None => Ok None
  | Some NotJson => Err JSONDecodeError
  | Some (Json data) =>
      let? vs := subscript data "versions" in
      let? items := iterate vs in
      let? entries := mapR VersionEntry_kwargs items in
      let? dt := subscript data "document_type" in
      let? si := dict_get_default data "snapshot_interval" (JInt 5) in
      Ok (Some {| raw_document_type := dt; raw_snapshot_interval := si;
                  raw_versions := entries |})
  end.

(** [dataclasses.asdict(v)] and the dict that [RepoState.save] dumps. *)
Definition json_of_option_int (o : option Z) : json :=
  match o with
  | Some z => JInt z
  | None => JNull
  end.

Definition VersionEntry_asdict (v : VersionEntry) : json :=
  JObj [("version", JInt (version v)); ("kind", JStr (kind v));
        ("file", JStr (file v)); ("message", JStr (message v));
        ("created_at", JStr (created_at v));
        ("base_version", json_of_option_int (base_version v))].

Definition RepoState_to_json (st : RepoState) : json :=
  JObj [("document_type", JStr (document_type st));
        ("snapshot_interval", JInt (snapshot_interval st));
        ("versions", JArr (map VersionEntry_asdict (versions st)))].

(** The typed reading of a loaded ledger: the engine below computes with
    integers and strings, so it runs on the ledgers whose fields have the
    types the dataclasses announce.  (Python would carry any other value
    along and raise at its first arithmetic or path use.) *)
Definition as_int (j : json) : option Z :=
  match j with JInt z => Some z | _ => None end.

Definition as_str (j : json) : option string :=
  match j with JStr s => Some s | _ => None end.

Definition as_option_int (j : json) : option (option Z) :=
  match j with
  | JNull => Some None
  | JInt z => Some (Some z)
  | _ => None
  end.

Definition VersionEntry_typed (r : RawVersionEntry) : option VersionEntry :=
  ver ← as_int (raw_version r);
  knd ← as_str (raw_kind r);
  fl ← as_str (raw_file r);
  msg ← as_str (raw_message r);
  cr ← as_str (raw_created_at r);
  bv ← as_option_int (raw_base_version r);
  Some {| version := ver; kind := knd; file := fl; message := msg;
          created_at := cr; base_version := bv |}.

Definition RepoState_typed (r : RawRepoState) : option RepoState :=
  dt ← as_str (raw_document_type r);
  si ← as_int (raw_snapshot_interval r);
  vs ← mapM VersionEntry_typed (raw_versions r);
  Some {| document_type := dt; snapshot_interval := si; versions := vs |}.

(** [RepoState.load] as the engine sees it.  On a ledger with a field of
    another type, [TypeError] stands for the failure Python defers to the
    first use of that field. *)
Definition load_typed (meta : option MetaFile) : result (option RepoState) :=
  let? r := RepoState_load meta in
  match r with
  | None => Ok None
  | Some raw => from_option TypeError (Some <$> RepoState_typed raw)
  end.

(** ** The world of one tracked document *)

(** The lines the engine prints. *)
Inductive Printed :=
| P_already_initialized            (* "Repository already initialized." *)
| P_initialized                    (* "Initialized repo at ..." *)
| P_added_snapshot (v : Z)         (* "Added snapshot v{v}" *)
| P_added_delta (v : Z)            (* "Added delta v{v} (xdelta3)" *)
| P_xdelta3_failed                 (* "xdelta3 failed, storing snapshot ..." *)
| P_added_fallback (v : Z)         (* "Added snapshot v{v} (fallback)" *)
| P_wrote (v : Z) (out : string)   (* "Wrote v{v} -> {out}" *)
| P_reverted (v : Z).              (* "Reverted ... to v{v}" *)

(** [doc] is the tracked file ([None] when it does not exist), [meta] is
    [metadata.json] of its repo directory, [blobs] the other files of that
    directory, [outs] the files that [get] is asked to write (paths outside
    the repo directory and other than the tracked file).  The scratch files
    [.prior.tmp], [.new.tmp], [.base.tmp] and [.out.tmp] are created and
    unlinked within one call and are not kept in the model. *)
Record World := {
  doc : option bytes;
  meta : option MetaFile;
  blobs : gmap string bytes;
  outs : gmap string bytes;
  stdout : list Printed;
}.

(** What a call finds in its environment: whether [which("xdelta3")] finds
    the tool, and the clock. *)
Record Env := {
  which_xdelta3 : bool;
  now_iso : string;
}.

Definition write_doc (data : bytes) (w : World) : World :=
  {| doc := Some data; meta := meta w; blobs := blobs w; outs := outs w;
     stdout := stdout w |}.

Definition write_blob (name : string) (data : bytes) (w : World) : World :=
  {| doc := doc w; meta := meta w; blobs := <[name := data]> (blobs w);
     outs := outs w; stdout := stdout w |}.

Definition write_out (name : string) (data : bytes) (w : World) : World :=
  {| doc := doc w; meta := meta w; blobs := blobs w;
     outs := <[name := data]> (outs w); stdout := stdout w |}.

Definition print (p : Printed) (w : World) : World :=
  {| doc := doc w; meta := meta w; blobs := blobs w; outs := outs w;
     stdout := stdout w ++ [p] |}.

(** [RepoState.save] *)
Definition save (st : RepoState) (w : World) : World :=
  {| doc := doc w; meta := Some (Json (RepoState_to_json st));
     blobs := blobs w; outs := outs w; stdout := stdout w |}.

Definition read_doc (w : World) : result bytes :=
  from_option (FileNotFoundError "<document>") (doc w).

Definition read_blob (name : string) (w : World) : result bytes :=
  from_option (FileNotFoundError name) (blobs w !! name).

(** ** Methods: state and exceptions *)

Definition M (A : Type) : Type := World → result A * World.

Definition ret {A} (a : A) : M A := λ w, (Ok a, w).

Definition bind {A B} (m : M A) (k : A → M B) : M B :=
  λ w, match m w with
       | (Ok a, w') => k a w'
       | (Err e, w') => (Err e, w')
       end.

(** a computation that only looks at the world *)
Definition reads {A} (f : World → result A) : M A := λ w, (f w, w).

Definition lift {A} (r : result A) : M A := reads (λ _, r).

Definition modify (f : World → World) : M unit := λ w, (Ok tt, f w).

Declare Scope method_scope.
Delimit Scope method_scope with M.
Notation "'do' x ← m ; k" := (bind m (λ x, k))
  (at level 10, x pattern, m at level 100, k at level 200) : method_scope.

(** [a % n] of Python on integers: the sign of the divisor, and an
    exception on zero. *)
Definition py_mod (a n : Z) : result Z :=
  if decide (n = 0) then Err ZeroDivisionError else Ok (a `mod` n).

(** ** The engine *)

Record DVCS := {
  doc_type : string;
  self_snapshot_interval : Z;       (* the constructor's argument *)
  state : option RepoState;         (* what [RepoState.load] returned *)
}.

Definition set_state (self : DVCS) (st : RepoState) : DVCS :=
  {| doc_type := doc_type self;
     self_snapshot_interval := self_snapshot_interval self;
     state := Some st |}.

Definition append_version (st : RepoState) (entry : VersionEntry) : RepoState :=
  {| document_type := document_type st;
     snapshot_interval := snapshot_interval st;
     versions := versions st ++ [entry] |}.

(** [DVCS.__init__].  ([ensure_dir] makes the repo directory; the model
    does not tell a missing directory from an empty one.) *)
Definition DVCS_new (ty : string) (interval : Z) : M DVCS :=
  reads (λ w, let? st := load_typed (meta w) in
              Ok {| doc_type := ty; self_snapshot_interval := interval;
                    state := st |}).

Definition _require_initialized (self : DVCS) : result RepoState :=
  from_option (RuntimeError NotInitialized) (state self).

Definition last_entry (st : RepoState) : result VersionEntry :=
  from_option IndexError (list.last (versions st)).

(** The two backward scans [for i in range(len - 1, -1, -1)]. *)
Definition _nearest_snapshot_before (st : RepoState) (next_ver : Z)
  : result (nat * VersionEntry) :=
  match list_find (λ v, version v < next_ver ∧ kind v = "snapshot")
                  (reverse (versions st)) with
  | Some (i, v) => Ok ((length (versions st) - 1 - i)%nat, v)
  | None => Err (RuntimeError NoSnapshotBefore)
  end.

Definition _nearest_snapshot_at_or_before (st : RepoState) (ver : Z)
  : result (nat * VersionEntry) :=
  match list_find (λ v, version v ≤ ver ∧ kind v = "snapshot")
                  (reverse (versions st)) with
  | Some (i, v) => Ok ((length (versions st) - 1 - i)%nat, v)
  | None => Err (RuntimeError NoSnapshotAtOrBefore)
  end.

Definition _entry_for (st : RepoState) (ver : Z) : result VersionEntry :=
  match list_find (λ v, version v = ver) (versions st) with
  | Some (_, v) => Ok v
  | None => Err (KeyError_entry ver)
  end.

(** The two records the engine builds:
    [VersionEntry(version=ver, kind="snapshot", file=vfile.name,
    message=message, created_at=now_iso())] and
    [VersionEntry(version=next_ver, kind="delta", file=delta_path.name,
    message=message, created_at=now_iso(), base_version=next_ver - 1)]. *)
Definition snapshot_entry (ver : Z) (vfile msg : string) (env : Env)
  : VersionEntry :=
  {| version := ver; kind := "snapshot"; file := vfile; message := msg;
     created_at := now_iso env; base_version := None |}.

Definition delta_entry (next_ver : Z) (delta_path msg : string) (env : Env)
  : VersionEntry :=
  {| version := next_ver; kind := "delta"; file := delta_path; message := msg;
     created_at := now_iso env; base_version := Some (next_ver - 1) |}.

Section Engine.

(** The patch tool.  [xdelta3_e prior new] is the delta file that
    [xdelta3 -e -s PRIOR NEW DELTA] writes and [xdelta3_d base delta] the
    output of [xdelta3 -d -s BASE DELTA OUT]; [None] is a non-zero exit
    ([CalledProcessError]).  The outcome is taken to depend on the two
    inputs only, and a failed encoding to leave no file behind. *)
Variable xdelta3_e : bytes → bytes → option bytes.
Variable xdelta3_d : bytes → bytes → option bytes.

(** The body of the replay loop of [_reconstruct_bytes], for version [v]
    on the working buffer [data]. *)
Definition replay_step (st : RepoState) (env : Env) (w : World)
    (data : bytes) (v : Z) : result bytes :=
  let? entry := _entry_for st v in
  if decide (kind entry = "snapshot") then read_blob (file entry) w
  else if which_xdelta3 env then
    match blobs w !! file entry with
    | Some delta =>
        from_option (RuntimeError (FailedToApplyDelta v))
                    (xdelta3_d data delta)
    | None => Err (RuntimeError (FailedToApplyDelta v))
    end
  else Err (RuntimeError XdeltaNotAvailable).

Definition _reconstruct_bytes (st : RepoState) (env : Env)
    (target_version : Z) (w : World) : result bytes :=
  let? last := last_entry st in
  if decide (target_version < 1 ∨ target_version > version last)
  then Err (ValueError_range (version last))
  else
    let? snap := _nearest_snapshot_at_or_before st target_version in
    let? data := read_blob (file snap.2) w in
    foldM (replay_step st env w) data
          (seqZ (version snap.2 + 1) (target_version - version snap.2)).

Open Scope method_scope.

(** [DVCS.init] *)
Definition init (self : DVCS) (msg : string) (env : Env) : M DVCS :=
  match state self with
  | Some _ => do _ ← modify (print P_already_initialized); ret self
  | None =>
      do data ← reads read_doc;
      let vfile := _version_file 1 true in
      do _ ← modify (write_blob vfile data);
      let entry := snapshot_entry 1 vfile msg env in
      let st := {| document_type := doc_type self;
                   snapshot_interval := self_snapshot_interval self;
                   versions := [entry] |} in
      do _ ← modify (save st);
      do _ ← modify (print P_initialized);
      ret (set_state self st)
  end.

(** The three ways [DVCS.add] stores version [next_ver]. *)
Definition add_snapshot (self : DVCS) (st : RepoState) (next_ver : Z)
    (data : bytes) (msg : string) (env : Env) (p : Printed) : M DVCS :=
  let vfile := _version_file next_ver true in
  do _ ← modify (write_blob vfile data);
  let entry := snapshot_entry next_ver vfile msg env in
  let st' := append_version st entry in
  do _ ← modify (save st');
  do _ ← modify (print p);
  ret (set_state self st').

Definition add_delta (self : DVCS) (st : RepoState) (next_ver : Z)
    (delta : bytes) (msg : string) (env : Env) : M DVCS :=
  let delta_path := _version_file next_ver false in
  do _ ← modify (write_blob delta_path delta);
  let entry := delta_entry next_ver delta_path msg env in
  let st' := append_version st entry in
  do _ ← modify (save st');
  do _ ← modify (print (P_added_delta next_ver));
  ret (set_state self st').

Definition add_fallback (self : DVCS) (st : RepoState) (next_ver : Z)
    (data : bytes) (msg : string) (env : Env) : M DVCS :=
  add_snapshot self st next_ver data (msg +:+ " (fallback snapshot)") env
               (P_added_fallback next_ver).

(** [DVCS.add] *)
Definition add (self : DVCS) (msg : string) (env : Env) : M DVCS :=
  do st ← lift (_require_initialized self);
  do data ← reads read_doc;
  do last ← lift (last_entry st);
  let next_ver := version last + 1 in
  do r ← lift (py_mod (next_ver - 1) (snapshot_interval st));
  if decide (r = 0) then
    add_snapshot self st next_ver data msg env (P_added_snapshot next_ver)
  else
    do base ← lift (_nearest_snapshot_before st next_ver);
    do base_bytes ← reads (read_blob (file base.2));
    do prior_bytes ← reads (_reconstruct_bytes st env (next_ver - 1));
    if which_xdelta3 env then
      match xdelta3_e prior_bytes data with
      | Some delta => add_delta self st next_ver delta msg env
      | None =>
          do _ ← modify (print P_xdelta3_failed);
          add_fallback self st next_ver data msg env
      end
    else add_fallback self st next_ver data msg env.

(** [DVCS.get] and [DVCS.revert] *)
Definition get (self : DVCS) (ver : Z) (output : string) (env : Env)
  : M unit :=
  do st ← lift (_require_initialized self);
  do bytes_ ← reads (_reconstruct_bytes st env ver);
  do _ ← modify (write_out output bytes_);
  modify (print (P_wrote ver output)).

Definition revert (self : DVCS) (ver : Z) (env : Env) : M unit :=
  do st ← lift (_require_initialized self);
  do bytes_ ← reads (_reconstruct_bytes st env ver);
  do _ ← modify (write_doc bytes_);
  modify (print (P_reverted ver)).

(** [_open_inferred] *)
Definition _open_inferred : M DVCS :=
  do st ← reads (λ w, load_typed (meta w));
  match st with
  | None => lift (Err (RuntimeError NotInitializedForFile))
  | Some s => DVCS_new (document_type s) (snapshot_interval s)
  end.

End Engine.

(** ** Runs: what happens to a document and its repository over time *)

(** Every action opens the repository afresh, as each command of [main]
    does. *)
Inductive action :=
| Edit (data : bytes)                 (* the user saves the document *)
| Init (ty : string) (interval : Z) (msg : string) (env : Env)
| Add (ty : string) (interval : Z) (msg : string) (env : Env)
| Get (ver : Z) (output : string) (env : Env)
| Revert (ver : Z) (env : Env).

Section Runs.

Variable xdelta3_e : bytes → bytes → option bytes.
Variable xdelta3_d : bytes → bytes → option bytes.

Open Scope method_scope.

Definition cmd_init (ty : string) (interval : Z) (msg : string) (env : Env)
  : M DVCS :=
  do self ← DVCS_new ty interval; init self msg env.

Definition cmd_add (ty : string) (interval : Z) (msg : string) (env : Env)
  : M DVCS :=
  do self ← DVCS_new ty interval; add xdelta3_e xdelta3_d self msg env.

Definition cmd_get (ver : Z) (output : string) (env : Env) : M unit :=
  do self ← _open_inferred; get xdelta3_d self ver output env.

Definition cmd_revert (ver : Z) (env : Env) : M unit :=
  do self ← _open_inferred; revert xdelta3_d self ver env.

Definition perform (a : action) : M unit :=
  match a with
  | Edit data => modify (write_doc data)
  | Init ty k msg env => do _ ← cmd_init ty k msg env; ret tt
  | Add ty k msg env => do _ ← cmd_add ty k msg env; ret tt
  | Get ver output env => cmd_get ver output env
  | Revert ver env => cmd_revert ver env
  end.

(** The world after an action, whether or not it raised. *)
Definition exec (a : action) (w : World) : World := (perform a w).2.

Fixpoint run (l : list action) (w : World) : World :=
  match l with
  | [] => w
  | a :: r => run r (exec a w)
  end.

(** The bytes an action commits as a new version: those it read from the
    document, when it is an [Add] that returned, or an [Init] that
    returned on a repository that had no metadata. *)
Definition committed (a : action) (w : World) : list bytes :=
  match a, (perform a w).1, doc w with
  | Add _ _ _ _, Ok _, Some data => [data]
  | Init _ _ _ _, Ok _, Some data =>
      match meta w with None => [data] | Some _ => [] end
  | _, _, _ => []
  end.

Fixpoint history (l : list action) (w : World) : list bytes :=
  match l with
  | [] => []
  | a :: r => committed a w ++ history r (exec a w)
  end.

(** The persisted ledger, as the next command will load it. *)
Definition loaded (w : World) : option RepoState :=
  match load_typed (meta w) with
  | Ok (Some st) => Some st
  | _ => None
  end.

Definition ledger (w : World) : list VersionEntry :=
  match loaded w with
  | Some st => versions st
  | None => []
  end.

End Runs.

(** A directory that holds no repository yet. *)
Definition empty_world (d : option bytes) : World :=
  {| doc := d; meta := None; blobs := ∅; outs := ∅; stdout := [] |}.

(** ** Vocabulary of the properties *)

(** The shape of a ledger: not empty, versions [1, 2, ...] in order, a
    snapshot first, and every delta based on its predecessor. *)
Definition ledger_ok (vs : list VersionEntry) : Prop :=
  vs ≠ [] ∧
  version <$> vs = seqZ 1 (Z.of_nat (length vs)) ∧
  kind <$> head vs = Some "snapshot" ∧
  Forall (λ e, kind e = "delta" → base_version e = Some (version e - 1)) vs.

Global Instance ledger_ok_dec vs : Decision (ledger_ok vs).
Proof. unfold ledger_ok. apply _. Defined.

(** The world after a commit: one blob written, the ledger saved, some
    lines printed. *)
Definition commit_world (st' : RepoState) (name : string) (content : bytes)
    (ps : list Printed) (w : World) : World :=
  {| doc := doc w; meta := Some (Json (RepoState_to_json st'));
     blobs := <[name := content]> (blobs w); outs := outs w;
     stdout := stdout w ++ ps |}.

Definition init_state (ty : string) (interval : Z) (msg : string) (env : Env)
  : RepoState :=
  {| document_type := ty; snapshot_interval := interval;
     versions := [snapshot_entry 1 (_version_file 1 true) msg env] |}.

Definition fallback_message (msg : string) : string :=
  msg +:+ " (fallback snapshot)".

Definition count_snapshots (vs : list VersionEntry) : nat :=
  length (filter (λ e, kind e = "snapshot") vs).

(** A record is named after its version and kind, and its blob is there. *)
Definition entry_stored (w : World) (e : VersionEntry) : Prop :=
  (kind e = "snapshot" ∧ file e = _version_file (version e) true
   ∨ kind e = "delta" ∧ file e = _version_file (version e) false)
  ∧ is_Some (blobs w !! file e).

(** The repository is absent, or it is a well-shaped ledger saved by the
    engine whose blobs are all in place. *)
Definition shape_inv (w : World) : Prop :=
  meta w = None ∨
  ∃ st, meta w = Some (Json (RepoState_to_json st))
        ∧ ledger_ok (versions st)
        ∧ ∀ e, e ∈ versions st → entry_stored w e.

(** An [Add] of the run finds the patch tool. *)
Definition tool_found (a : action) : Prop :=
  match a with
  | Add _ _ _ env => which_xdelta3 env = true
  | _ => True
  end.

Section Vocabulary.

Variable xdelta3_e : bytes → bytes → option bytes.
Variable xdelta3_d : bytes → bytes → option bytes.

(** What the patch tool owes the engine: decoding a delta against the
    base it was encoded from gives the target back. *)
Definition patch_round_trip : Prop :=
  ∀ prior data delta,
    xdelta3_e prior data = Some delta → xdelta3_d prior delta = Some data.

(** In environment [env], encoding [data] against [prior] fails: the tool
    is not found, or it exits with an error. *)
Definition encode_fails (env : Env) (prior data : bytes) : Prop :=
  which_xdelta3 env = false ∨ xdelta3_e prior data = None.

(** In environment [env], decoding the blob of a delta record against
    the buffer [data] fails: the tool is not found, or it exits with an
    error (which it also does when the delta file is missing). *)
Definition decode_fails (env : Env) (data : bytes) (blob : option bytes)
  : Prop :=
  which_xdelta3 env = false
  ∨ match blob with
    | Some delta => xdelta3_d data delta = None
    | None => True
    end.

(** Whatever is encoded in [env] fails. *)
Definition encode_always_fails (env : Env) : Prop :=
  which_xdelta3 env = false ∨ ∀ prior data, xdelta3_e prior data = None.

(** An [Add] of the run cannot encode anything. *)
Definition encoder_down (a : action) : Prop :=
  match a with
  | Add _ _ _ env => encode_always_fails env
  | _ => True
  end.

Definition encoder_total : Prop :=
  ∀ prior data, is_Some (xdelta3_e prior data).

(** The three records [add] can append after [last], with the content of
    the blob and the lines printed. *)
Inductive add_form (st : RepoState) (env : Env) (w : World) (data : bytes)
    (msg : string) (last : VersionEntry)
  : VersionEntry → bytes → list Printed → Prop :=
| form_cadence :
    version last `mod` snapshot_interval st = 0 →
    add_form st env w data msg last
      (snapshot_entry (version last + 1)
         (_version_file (version last + 1) true) msg env)
      data [P_added_snapshot (version last + 1)]
| form_delta prior delta :
    version last `mod` snapshot_interval st ≠ 0 →
    _reconstruct_bytes xdelta3_d st env (version last) w = Ok prior →
    which_xdelta3 env = true →
    xdelta3_e prior data = Some delta →
    add_form st env w data msg last
      (delta_entry (version last + 1)
         (_version_file (version last + 1) false) msg env)
      delta [P_added_delta (version last + 1)]
| form_fallback prior ps :
    version last `mod` snapshot_interval st ≠ 0 →
    _reconstruct_bytes xdelta3_d st env (version last) w = Ok prior →
    (which_xdelta3 env = false ∧ ps = []
     ∨ which_xdelta3 env = true ∧ xdelta3_e prior data = None
       ∧ ps = [P_xdelta3_failed]) →
    add_form st env w data msg last
      (snapshot_entry (version last + 1)
         (_version_file (version last + 1) true) (fallback_message msg) env)
      data (ps ++ [P_added_fallback (version last + 1)]).

(** One action, seen from the repository: it leaves the ledger and the
    blobs alone, or it creates the repository, or it appends a version. *)
Inductive repo_step (w w' : World) : action → list bytes → Prop :=
| step_same a :
    meta w' = meta w → blobs w' = blobs w →
    repo_step w w' a []
| step_init ty k msg env data :
    meta w = None → doc w = Some data →
    w' = commit_world (init_state ty k msg env) (_version_file 1 true) data
           [P_initialized] w →
    repo_step w w' (Init ty k msg env) [data]
| step_add ty k msg env st data last e content ps :
    meta w = Some (Json (RepoState_to_json st)) →
    doc w = Some data →
    last_entry st = Ok last →
    snapshot_interval st ≠ 0 →
    add_form st env w data msg last e content ps →
    w' = commit_world (append_version st e) (file e) content ps w →
    repo_step w w' (Add ty k msg env) [data].

(** What a method leaves in [self.state], or the exception it raised. *)
Definition outcome_state (r : result DVCS) : result (option RepoState) :=
  match r with
  | Ok self => Ok (state self)
  | Err e => Err e
  end.

(** The metadata file is absent or is a ledger the engine saved. *)
Definition persisted (w : World) : Prop :=
  meta w = None ∨ ∃ st, meta w = Some (Json (RepoState_to_json st)).

(** The blobs hold the committed bytes [h]: the ledger [st] is well
    shaped, every blob is in place, a snapshot holds the bytes of its
    version as they are, and a delta decodes to them from the bytes of
    the version before. *)
Definition holds (w : World) (st : RepoState) (h : list bytes) : Prop :=
  ledger_ok (versions st)
  ∧ (∀ e, e ∈ versions st → entry_stored w e)
  ∧ length h = length (versions st)
  ∧ ∀ (i : nat) e cur,
      versions st !! i = Some e → h !! i = Some cur →
      (kind e = "snapshot" → blobs w !! file e = Some cur)
      ∧ (kind e = "delta" →
         ∃ prev delta,
           h !! (i - 1)%nat = Some prev
           ∧ blobs w !! file e = Some delta
           ∧ xdelta3_d prev delta = Some cur).

Definition repo_inv (w : World) (h : list bytes) : Prop :=
  match meta w with
  | None => h = []
  | Some m => ∃ st, m = Json (RepoState_to_json st) ∧ holds w st h
  end.

End Vocabulary.

(** The count of snapshot records follows the cadence. *)
Definition cadence_inv (w : World) : Prop :=
  shape_inv w
  ∧ ∀ st, meta w = Some (Json (RepoState_to_json st)) →
          0 < snapshot_interval st →
          Z.of_nat (count_snapshots (versions st))
          = 1 + (Z.of_nat (length (versions st)) - 1)
                  `div` snapshot_interval st.

(** Every record is a snapshot. *)
Definition snapshots_inv (w : World) : Prop :=
  shape_inv w
  ∧ ∀ st, meta w = Some (Json (RepoState_to_json st)) →
          Forall (λ e, kind e = "snapshot") (versions st).

(** The keyword arguments [VersionEntry] accepts: an object whose keys
    all name fields and include the fields without a default. *)
Definition required_fields : list string :=
  ["version"; "kind"; "file"; "message"; "created_at"].

Definition entry_kwargs_ok (v : json) : Prop :=
  ∃ kw, v = JObj kw
        ∧ Forall (λ kv, kv.1 ∈ entry_fields) kw
        ∧ Forall (λ k, is_Some (dict_get k kw)) required_fields.

(** ** Sample data *)

(** A toy patch tool: the delta is the target, reversed. *)
Definition toy_encode (prior data : bytes) : option bytes :=
  Some (reverse data).

Definition toy_decode (base delta : bytes) : option bytes :=
  Some (reverse delta).

Definition env_on : Env :=
  {| which_xdelta3 := true; now_iso := "2024-01-01T00:00:00" |}.

Definition env_off : Env :=
  {| which_xdelta3 := false; now_iso := "2024-01-02T00:00:00" |}.

(** A ledger whose document type is neither "docx" nor "pdf". *)
Definition metadata_txt : json :=
  JObj [("document_type", JStr "txt"); ("snapshot_interval", JInt 5);
        ("versions",
         JArr [JObj [("version", JInt 1); ("kind", JStr "snapshot");
                     ("file", JStr "v0001.snapshot");
                     ("message", JStr "Initial version");
                     ("created_at", JStr "2024-01-01T00:00:00");
                     ("base_version", JNull)]])].

(** [init] with interval 3 on "AAA", then "AAB" and "AAC" added. *)
Definition sample_world : World := empty_world (Some (b "AAA")).

Definition sample_run : list action :=
  [Init "pdf" 3 "Initial version" env_on;
   Edit (b "AAB"); Add "pdf" 5 "Update" env_on;
   Edit (b "AAC"); Add "pdf" 5 "Update" env_on].

(** ... and then "AAD", which the cadence makes a snapshot. *)
Definition sample_more : list action :=
  [Edit (b "AAD"); Add "pdf" 5 "Update" env_on].

(** The same run up to version 2, with "AAC" saved but not yet added. *)
Definition sample_short : list action :=
  [Init "pdf" 3 "Initial version" env_on;
   Edit (b "AAB"); Add "pdf" 5 "Update" env_on;
   Edit (b "AAC")].

(** A run in which the patch tool is never found. *)
Definition sample_no_tool : list action :=
  [Init "pdf" 3 "Initial version" env_off;
   Edit (b "AAB"); Add "pdf" 5 "Update" env_off;
   Edit (b "AAC")].

Definition sample_state_no_tool : RepoState :=
  {| document_type := "pdf"; snapshot_interval := 3;
     versions :=
       [snapshot_entry 1 "v0001.snapshot" "Initial version" env_off;
        snapshot_entry 2 "v0002.snapshot" "Update (fallback snapshot)"
          env_off] |}.

(** A decoder that always exits with an error. *)
Definition failing_decode (base delta : bytes) : option bytes := None.

Definition sample_entry (ver : Z) (knd name : string) (base : option Z)
  : VersionEntry :=
  {| version := ver; kind := knd; file := name;
     message := if decide (ver = 1) then "Initial version" else "Update";
     created_at := "2024-01-01T00:00:00"; base_version := base |}.

Definition sample_state3 : RepoState :=
  {| document_type := "pdf"; snapshot_interval := 3;
     versions := [sample_entry 1 "snapshot" "v0001.snapshot" None;
                  sample_entry 2 "delta" "v0002.delta" (Some 1);
                  sample_entry 3 "delta" "v0003.delta" (Some 2)] |}.

Definition sample_state2 : RepoState :=
  {| document_type := "pdf"; snapshot_interval := 3;
     versions := [sample_entry 1 "snapshot" "v0001.snapshot" None;
                  sample_entry 2 "delta" "v0002.delta" (Some 1)] |}.

Definition sample_state4 : RepoState :=
  append_version sample_state3
    (sample_entry 4 "snapshot" "v0004.snapshot" None).


(** ** Vocabulary of further properties *)

(** Two records that name the same stored blob: they agree on the version,
    the kind and the file, whatever their message, date and base. *)
Definition same_storage (e1 e2 : VersionEntry) : Prop :=
  version e1 = version e2 ∧ kind e1 = kind e2 ∧ file e1 = file e2.

(** The object holds the ledger that is on disk. *)
Definition coherent (self : DVCS) (w : World) : Prop :=
  load_typed (meta w) = Ok (state self).

(** The snapshot blobs hold the committed bytes [h] as they are. *)
Definition snapshots_hold (w : World) (st : RepoState) (h : list bytes)
  : Prop :=
  length h = length (versions st)
  ∧ ∀ (i : nat) e cur,
      versions st !! i = Some e → h !! i = Some cur →
      kind e = "snapshot" → blobs w !! file e = Some cur.

(** The versions the cadence asks a snapshot for are snapshots: those at
    the indices that are multiples of the stored interval. *)
Definition cadence_positions (st : RepoState) : Prop :=
  ∀ (i : nat) e,
    versions st !! i = Some e →
    Z.of_nat i `mod` snapshot_interval st = 0 → kind e = "snapshot".

(** What holds of a repository whatever the patch tool does. *)
Definition store_inv (w : World) (h : list bytes) : Prop :=
  shape_inv w
  ∧ (meta w = None → h = [])
  ∧ ∀ st, meta w = Some (Json (RepoState_to_json st)) →
          snapshots_hold w st h ∧ cadence_positions st.

(** ** Comparing the images of two versions ([image_utils.py]) *)

Section Images.

(** An image record is a dict; all that [compare_images_detailed] looks
    at is [img['content_hash']], which is [None] here when the dict has
    no such key. *)
Context {Img : Type}.
Variable content_hash : Img → option string.

(** [d[k] = v] on a dict, which keeps its keys in insertion order: a key
    that is there keeps its place and gets the new value. *)
Fixpoint dict_put (k : string) (v : Img) (d : list (string * Img))
  : list (string * Img) :=
  match d with
  | [] => [(k, v)]
  | (k', v') :: r =>
      if decide (k' = k) then (k', v) :: r else (k', v') :: dict_put k v r
  end.

(** [{img['content_hash']: img for img in images}] *)
Definition by_hash (images : list Img) : result (list (string * Img)) :=
  foldM (λ d img,
           let? h := from_option (KeyError "content_hash") (content_hash img)
           in Ok (dict_put h img d))
        [] images.

(** The dict [changes] that is returned. *)
Record Changes := {
  added : list Img;
  removed : list Img;
  modified : list Img;
  unchanged : list Img;
}.

Definition compare_images_detailed (current_images other_images : list Img)
  : result Changes :=
  let? current_dict := by_hash current_images in
  let? other_dict := by_hash other_images in
  Ok {| added := (filter (λ kv, kv.1 ∉ current_dict.*1) other_dict).*2;
        removed := (filter (λ kv, kv.1 ∉ other_dict.*1) current_dict).*2;
        modified := [];
        unchanged := (filter (λ kv, kv.1 ∈ other_dict.*1) current_dict).*2 |}.

(** The hashes of a list of images. *)
Definition hashes (images : list Img) : list (option string) :=
  content_hash <$> images.

(** A dict built from [images]: its keys are distinct, each value is one
    of the images and is filed under its own hash, and every hash of
    the images is a key. *)
Definition dict_for (images : list Img) (d : list (string * Img)) : Prop :=
  NoDup d.*1
  ∧ (∀ h img, (h, img) ∈ d → img ∈ images ∧ content_hash img = Some h)
  ∧ (∀ img h, img ∈ images → content_hash img = Some h → h ∈ d.*1).

End Images.

Arguments Changes : clear implicits.

(** ** Further sample data *)

(** The ledger of [sample_state3] with other messages, dates, bases,
    type and interval. *)
Definition sample_state3_relabelled : RepoState :=
  {| document_type := "docx"; snapshot_interval := 7;
     versions :=
       [{| version := 1; kind := "snapshot"; file := "v0001.snapshot";
           message := "first"; created_at := "2025-05-05T05:05:05";
           base_version := Some 9 |};
        {| version := 2; kind := "delta"; file := "v0002.delta";
           message := "second"; created_at := "2025-05-06T05:05:05";
           base_version := None |};
        {| version := 3; kind := "delta"; file := "v0003.delta";
           message := "third"; created_at := "2025-05-07T05:05:05";
           base_version := Some 1 |}] |}.

(** A repository made with interval 0, and the document edited. *)
Definition sample_zero : list action :=
  [Init "pdf" 0 "Initial version" env_on; Edit (b "AAB")].

(** A repository made with interval 1, without the patch tool. *)
Definition sample_one : list action :=
  [Init "pdf" 1 "Initial version" env_off;
   Edit (b "AAB"); Add "pdf" 5 "Update" env_off;
   Edit (b "AAC")].

Definition sample_state_one : RepoState :=
  {| document_type := "pdf"; snapshot_interval := 1;
     versions :=
       [snapshot_entry 1 "v0001.snapshot" "Initial version" env_off;
        snapshot_entry 2 "v0002.snapshot" "Update" env_off] |}.

(** An object that holds the ledger of [sample_run]. *)
Definition sample_self : DVCS :=
  {| doc_type := "docx"; self_snapshot_interval := 5;
     state := Some sample_state3 |}.

(** Images as pairs of a position and a hash; "logo" occurs twice in the
    current version. *)
Definition sample_hash (img : string * string) : option string :=
  Some img.2.

Definition sample_current : list (string * string) :=
  [("p1", "logo"); ("p2", "chart"); ("p3", "logo")].

Definition sample_other : list (string * string) :=
  [("p1", "chart"); ("p2", "photo")].

Definition sample_changes : Changes (string * string) :=
  {| added := [("p2", "photo")]; removed := [("p3", "logo")];
     modified := []; unchanged := [("p2", "chart")] |}.

(** * Properties *)

(** ** File names *)

Lemma string_app_nil (s : string) : "" +:+ s = s.
Proof. reflexivity. Qed.

Lemma string_app_cons c (s t : string) : String c s +:+ t = String c (s +:+ t).
Proof. reflexivity. Qed.

Lemma string_app_assoc (s1 s2 s3 : string) :
  (s1 +:+ s2) +:+ s3 = s1 +:+ (s2 +:+ s3).
Proof.
  induction s1 as [| c s1 IH]; [done |].
  rewrite !string_app_cons. f_equal. exact IH.
Qed.

Lemma digit_of_pretty_N_char x :
  (x < 10)%N → digit_of (pretty_N_char x) = Some x.
Proof.
  intros Hx. rewrite <- (N2Nat.id x) in *.
  assert (N.to_nat x < 10)%nat as Hn by lia. clear Hx.
  generalize dependent (N.to_nat x). intros n Hn.
  do 10 (destruct n as [| n]; [reflexivity |]). lia.
Qed.

Lemma read_digits_pretty_N_go x s acc :
  ∃ k, read_digits (pretty_N_go x s) acc = read_digits s (acc * 10 ^ k + x)%N.
Proof.
  revert s acc. induction (N.lt_wf_0 x) as [x _ IH]. intros s acc.
  destruct (decide (x = 0)%N) as [-> | Hx].
  - exists 0%N. rewrite pretty_N_go_0. f_equal. lia.
  - rewrite pretty_N_go_step by lia.
    destruct (IH (x `div` 10)%N) with
      (s := String (pretty_N_char (x `mod` 10)) s) (acc := acc) as [k Hk].
    { apply N.div_lt; lia. }
    exists (k + 1)%N. rewrite Hk. simpl.
    rewrite digit_of_pretty_N_char by (apply N.mod_lt; lia).
    f_equal. rewrite N.pow_add_r.
    pose proof (N.div_mod x 10). lia.
Qed.

Lemma read_digits_pretty_N x s :
  read_digits (pretty x +:+ s) 0 = read_digits s x.
Proof.
  unfold pretty, pretty_N. case_decide as Hx.
  - subst. reflexivity.
  - assert (∀ t, pretty_N_go x t +:+ s = pretty_N_go x (t +:+ s)) as Happ.
    { clear Hx. induction (N.lt_wf_0 x) as [x _ IH]. intros t.
      destruct (decide (x = 0)%N) as [-> | Hx].
      - by rewrite !pretty_N_go_0.
      - rewrite (pretty_N_go_step x t), (pretty_N_go_step x (t +:+ s)) by lia.
        apply (IH _ (N.div_lt x 10 ltac:(lia) ltac:(lia))). }
    rewrite Happ. change ("" +:+ s) with s.
    destruct (read_digits_pretty_N_go x s 0%N) as [k ->]. f_equal.
Qed.

Lemma read_digits_zeros n s : read_digits (zeros n +:+ s) 0 = read_digits s 0.
Proof.
  induction n as [| n IH]; [done |].
  simpl zeros. rewrite string_app_cons. simpl. exact IH.
Qed.

Lemma read_digits_fmt_04d z s :
  0 ≤ z → read_digits (fmt_04d z +:+ s) 0 = read_digits s (Z.to_N z).
Proof.
  intros Hz. unfold fmt_04d. case_decide; [lia |]. unfold zfill.
  rewrite string_app_assoc, read_digits_zeros.
  destruct z as [| p | p]; [done | | lia].
  unfold pretty, pretty_Z, pretty_positive. apply read_digits_pretty_N.
Qed.

Lemma version_file_inj v1 v2 s1 s2 :
  0 ≤ v1 → 0 ≤ v2 →
  _version_file v1 s1 = _version_file v2 s2 → v1 = v2 ∧ s1 = s2.
Proof.
  intros H1 H2 Heq. unfold _version_file in Heq.
  rewrite !string_app_cons, !string_app_nil in Heq. injection Heq as Heq.
  apply (f_equal (λ s, read_digits s 0)) in Heq.
  rewrite !read_digits_fmt_04d in Heq by done.
  destruct s1, s2; simpl in Heq; simplify_eq; split; (lia || done).
Qed.

(** ** Saving and loading *)

(** What was saved is what is loaded. *)
Lemma mapR_kwargs_asdict (vs : list VersionEntry) :
  ∃ raws, mapR VersionEntry_kwargs (map VersionEntry_asdict vs) = Ok raws
          ∧ mapM VersionEntry_typed raws = Some vs.
Proof.
  induction vs as [| v vs [raws [Hr Ht]]].
  - by exists [].
  - eexists. split.
    + cbn [map mapR]. rewrite Hr. reflexivity.
    + cbn. rewrite Ht. destruct v as [? ? ? ? ? [bv |]]; reflexivity.
Qed.

Lemma load_typed_to_json (st : RepoState) :
  load_typed (Some (Json (RepoState_to_json st))) = Ok (Some st).
Proof.
  destruct (mapR_kwargs_asdict (versions st)) as [raws [Hr Ht]].
  unfold load_typed, RepoState_load, RepoState_to_json.
  cbn [subscript dict_get String.eqb Ascii.eqb Bool.eqb from_option rbind
       iterate dict_get_default default].
  rewrite Hr. cbn. rewrite Ht. by destruct st.
Qed.

(** ** Loading the metadata *)

Lemma existsb_eqb_elem_of k (l : list string) :
  existsb (String.eqb k) l = true ↔ k ∈ l.
Proof.
  rewrite existsb_exists, list_elem_of_In. split.
  - by intros (x & Hin & ->%String.eqb_eq).
  - intros Hin. exists k. split; [done |]. apply String.eqb_refl.
Qed.

Lemma VersionEntry_kwargs_ok v :
  (∃ raw, VersionEntry_kwargs v = Ok raw) ↔ entry_kwargs_ok v.
Proof.
  unfold entry_kwargs_ok. split.
  - intros [raw Hraw]. destruct v as [| | | | | | kw]; try done.
    exists kw. split; [done |]. cbn in Hraw.
    destruct (forallb _ kw) eqn:Hkeys; [| done]. split.
    + apply list.Forall_forall. intros kv Hkv.
      rewrite forallb_forall in Hkeys. apply existsb_eqb_elem_of, Hkeys.
      by apply list_elem_of_In.
    + destruct (dict_get "version" kw) eqn:?; [| done].
      destruct (dict_get "kind" kw) eqn:?; [| done].
      destruct (dict_get "file" kw) eqn:?; [| done].
      destruct (dict_get "message" kw) eqn:?; [| done].
      destruct (dict_get "created_at" kw) eqn:?; [| done].
      unfold required_fields.
      repeat (constructor; [by eauto |]). constructor.
  - intros (kw & -> & Hkeys & Hreq). unfold VersionEntry_kwargs.
    assert (forallb (λ kv, existsb (String.eqb kv.1) entry_fields) kw = true)
      as ->.
    { apply forallb_forall. intros kv Hkv. apply existsb_eqb_elem_of.
      apply (proj1 (list.Forall_forall _ _) Hkeys kv).
      by apply list_elem_of_In. }
    unfold required_fields in Hreq. rewrite !list.Forall_cons in Hreq.
    destruct Hreq as ([? ->] & [? ->] & [? ->] & [? ->] & [? ->] & _).
    eauto.
Qed.

Lemma mapR_kwargs_ok items :
  (∃ raws, mapR VersionEntry_kwargs items = Ok raws)
  ↔ Forall entry_kwargs_ok items.
Proof.
  induction items as [| v items IH]; cbn.
  - split; [by intros; apply Forall_nil | by eauto].
  - rewrite list.Forall_cons, <- IH, <- VersionEntry_kwargs_ok. split.
    + intros [raws Hr].
      destruct (VersionEntry_kwargs v) as [raw |]; cbn in Hr; [| done].
      destruct (mapR VersionEntry_kwargs items) as [rs |]; cbn in Hr; eauto.
    + intros [[raw ->] [rs ->]]. cbn. eauto.
Qed.

(** C7 (amended) — [RepoState.load] returns no state exactly when there
    is no metadata file.  When there is one, it raises if the text is
    not a JSON document, and otherwise it returns a state exactly when the
    document is an object that has the keys [versions] and
    [document_type], [versions] can be iterated, and each of its items is
    an object whose keys all name fields of a record and include the five
    fields without a default.  The value of [document_type] is handed on
    as it stands: nothing compares it with the recognized types. *)
Theorem load_contract (meta : option MetaFile) :
  (RepoState_load meta = Ok None ↔ meta = None)
  ∧ (meta = Some NotJson → RepoState_load meta = Err JSONDecodeError)
  ∧ ∀ data,
      meta = Some (Json data) →
      ((∃ raw, RepoState_load meta = Ok (Some raw))
       ↔ ∃ kw vs items dt,
           data = JObj kw
           ∧ dict_get "versions" kw = Some vs
           ∧ iterate vs = Ok items
           ∧ Forall entry_kwargs_ok items
           ∧ dict_get "document_type" kw = Some dt)
      ∧ ∀ raw, RepoState_load meta = Ok (Some raw) →
               subscript data "document_type" = Ok (raw_document_type raw).
Proof.
  split_and!.
  - split; [| by intros ->].
    destruct meta as [[| data] |]; [done | | done].
    cbn. intros Hload.
    destruct (subscript data "versions"); cbn in Hload; [| done].
    destruct (iterate _); cbn in Hload; [| done].
    destruct (mapR _ _); cbn in Hload; [| done].
    destruct (subscript data "document_type"); cbn in Hload; [| done].
    by destruct (dict_get_default _ _ _).
  - by intros ->.
  - intros data ->. split.
    + split.
      * intros [raw Hload]. cbn in Hload.
        destruct data as [| | | | | | kw]; try done.
        cbn in Hload.
        destruct (dict_get "versions" kw) as [vs |] eqn:Hvs; cbn in Hload;
          [| done].
        destruct (iterate vs) as [items |] eqn:Hit; cbn in Hload; [| done].
        destruct (mapR _ items) as [raws |] eqn:Hmap; cbn in Hload;
          [| done].
        destruct (dict_get "document_type" kw) as [dt |] eqn:Hdt;
          cbn in Hload; [| done].
        exists kw, vs, items, dt. split_and!; try done.
        apply mapR_kwargs_ok. eauto.
      * intros (kw & vs & items & dt & -> & Hvs & Hit & Hitems & Hdt).
        apply mapR_kwargs_ok in Hitems as [raws Hraws].
        cbn. rewrite Hvs. cbn. rewrite Hit. cbn. rewrite Hraws. cbn.
        rewrite Hdt. cbn. eauto.
    + intros raw Hload. cbn in Hload.
      destruct (subscript data "versions"); cbn in Hload; [| done].
      destruct (iterate _); cbn in Hload; [| done].
      destruct (mapR _ _); cbn in Hload; [| done].
      destruct (subscript data "document_type"); cbn in Hload; [| done].
      destruct (dict_get_default _ _ _); cbn in Hload; [| done].
      by simplify_eq.
Qed.

(** ** The engine *)

Section Engine_properties.
Variable xdelta3_e : bytes → bytes → option bytes.
Variable xdelta3_d : bytes → bytes → option bytes.

Abbreviation add := (add xdelta3_e xdelta3_d).
Abbreviation add_form := (add_form xdelta3_e xdelta3_d).
Abbreviation perform := (perform xdelta3_e xdelta3_d).
Abbreviation exec := (exec xdelta3_e xdelta3_d).
Abbreviation committed := (committed xdelta3_e xdelta3_d).
Abbreviation repo_step := (repo_step xdelta3_e xdelta3_d).
Abbreviation run := (run xdelta3_e xdelta3_d).
Abbreviation history := (history xdelta3_e xdelta3_d).
Abbreviation replay_step := (replay_step xdelta3_d).
Abbreviation _reconstruct_bytes := (_reconstruct_bytes xdelta3_d).
Abbreviation holds := (holds xdelta3_d).
Abbreviation repo_inv := (repo_inv xdelta3_d).
Abbreviation cmd_add := (cmd_add xdelta3_e xdelta3_d).
Abbreviation cmd_get := (cmd_get xdelta3_d).
Abbreviation cmd_revert := (cmd_revert xdelta3_d).
Abbreviation get := (get xdelta3_d).
Abbreviation revert := (revert xdelta3_d).
Abbreviation patch_round_trip := (patch_round_trip xdelta3_e xdelta3_d).
Abbreviation encoder_total := (encoder_total xdelta3_e).
Abbreviation encode_fails := (encode_fails xdelta3_e).
Abbreviation encode_always_fails := (encode_always_fails xdelta3_e).
Abbreviation encoder_down := (encoder_down xdelta3_e).
Abbreviation decode_fails := (decode_fails xdelta3_d).


Lemma add_snapshot_eq self st next_ver data msg env p w ps w0 :
  w = {| doc := doc w0; meta := meta w0; blobs := blobs w0; outs := outs w0;
         stdout := stdout w0 ++ ps |} →
  add_snapshot self st next_ver data msg env p w
  = (Ok (set_state self (append_version st
           (snapshot_entry next_ver (_version_file next_ver true) msg env))),
     commit_world (append_version st
           (snapshot_entry next_ver (_version_file next_ver true) msg env))
        (_version_file next_ver true) data (ps ++ [p]) w0).
Proof.
  intros ->.
  unfold add_snapshot, bind, modify, ret, commit_world, print, save,
    write_blob.
  simpl. by rewrite <- app_assoc.
Qed.

Lemma add_cases self st msg env w :
  state self = Some st →
  (∃ e, add self msg env w = (Err e, w)) ∨
  (∃ data last e content ps,
      doc w = Some data ∧ last_entry st = Ok last ∧
      snapshot_interval st ≠ 0 ∧
      add_form st env w data msg last e content ps ∧
      add self msg env w
      = (Ok (set_state self (append_version st e)),
         commit_world (append_version st e) (file e) content ps w)).
Proof.
  intros Hst. unfold add, bind, lift, reads, _require_initialized.
  rewrite Hst. cbn [from_option]. unfold read_doc.
  destruct (doc w) as [data |] eqn:Hdoc; cbn [from_option]; [| eauto].
  destruct (last_entry st) as [last | e] eqn:Hlast; [| eauto].
  unfold py_mod. rewrite Z.add_simpl_r.
  case_decide as Hk; [eauto |].
  case_decide as Hmod.
  - right. exists data, last. do 3 eexists.
    split_and!; [done .. | by apply form_cadence |].
    by destruct w.
  - destruct (_nearest_snapshot_before _ _) as [base | e]; [| eauto].
    destruct (read_blob _ w) as [bb | e]; [| eauto].
    destruct (_reconstruct_bytes _ _ _ w) as [prior | e] eqn:Hrec; [| eauto].
    right. exists data, last.
    destruct (which_xdelta3 env) eqn:Hwh;
      [destruct (xdelta3_e prior data) as [delta |] eqn:Henc |].
    + do 3 eexists. split_and!; [done .. | by eapply form_delta |].
      by destruct w.
    + do 3 eexists. split_and!; [done .. | |].
      * eapply form_fallback; eauto.
      * unfold modify, add_fallback. by apply add_snapshot_eq.
    + do 3 eexists. split_and!; [done .. | |].
      * eapply form_fallback; eauto.
      * unfold add_fallback. apply add_snapshot_eq.
        destruct w. simpl. by rewrite app_nil_r.
Qed.


Lemma DVCS_new_absent ty k w :
  meta w = None →
  DVCS_new ty k w
  = (Ok {| doc_type := ty; self_snapshot_interval := k; state := None |}, w).
Proof. intros Hm. unfold DVCS_new, reads. by rewrite Hm. Qed.

Lemma DVCS_new_saved ty k w st :
  meta w = Some (Json (RepoState_to_json st)) →
  DVCS_new ty k w
  = (Ok {| doc_type := ty; self_snapshot_interval := k; state := Some st |},
     w).
Proof.
  intros Hm. unfold DVCS_new, reads. by rewrite Hm, load_typed_to_json.
Qed.

Lemma _open_inferred_absent w :
  meta w = None →
  _open_inferred w = (Err (RuntimeError NotInitializedForFile), w).
Proof. intros Hm. unfold _open_inferred, bind, reads. by rewrite Hm. Qed.

Lemma _open_inferred_saved w st :
  meta w = Some (Json (RepoState_to_json st)) →
  _open_inferred w
  = (Ok {| doc_type := document_type st;
           self_snapshot_interval := snapshot_interval st;
           state := Some st |}, w).
Proof.
  intros Hm. unfold _open_inferred, bind, reads.
  rewrite Hm, load_typed_to_json. by apply DVCS_new_saved.
Qed.

Lemma get_cases self st ver output env w :
  state self = Some st →
  match _reconstruct_bytes st env ver w with
  | Ok bytes_ =>
      get self ver output env w
      = (Ok tt, print (P_wrote ver output) (write_out output bytes_ w))
  | Err e => get self ver output env w = (Err e, w)
  end.
Proof.
  intros Hst. unfold get, bind, lift, reads, _require_initialized.
  rewrite Hst. cbn [from_option].
  by destruct (_reconstruct_bytes _ _ _ _).
Qed.

Lemma revert_cases self st ver env w :
  state self = Some st →
  match _reconstruct_bytes st env ver w with
  | Ok bytes_ =>
      revert self ver env w
      = (Ok tt, print (P_reverted ver) (write_doc bytes_ w))
  | Err e => revert self ver env w = (Err e, w)
  end.
Proof.
  intros Hst. unfold revert, bind, lift, reads, _require_initialized.
  rewrite Hst. cbn [from_option].
  by destruct (_reconstruct_bytes _ _ _ _).
Qed.

Lemma cmd_init_absent ty k msg env w :
  meta w = None →
  cmd_init ty k msg env w
  = match doc w with
    | Some data =>
        (Ok (set_state {| doc_type := ty; self_snapshot_interval := k;
                          state := None |} (init_state ty k msg env)),
         commit_world (init_state ty k msg env) (_version_file 1 true) data
           [P_initialized] w)
    | None => (Err (FileNotFoundError "<document>"), w)
    end.
Proof.
  intros Hm. unfold cmd_init, bind. rewrite (DVCS_new_absent _ _ _ Hm).
  unfold init, bind, reads, read_doc. cbn [state].
  destruct (doc w) eqn:Hdoc; [| done]. by destruct w.
Qed.

Lemma cmd_init_saved ty k msg env w st :
  meta w = Some (Json (RepoState_to_json st)) →
  cmd_init ty k msg env w
  = (Ok {| doc_type := ty; self_snapshot_interval := k; state := Some st |},
     print P_already_initialized w).
Proof.
  intros Hm. unfold cmd_init, bind. by rewrite (DVCS_new_saved _ _ _ _ Hm).
Qed.

Lemma cmd_add_absent ty k msg env w :
  meta w = None →
  cmd_add ty k msg env w
  = (Err (RuntimeError NotInitialized), w).
Proof.
  intros Hm. unfold cmd_add, bind. by rewrite (DVCS_new_absent _ _ _ Hm).
Qed.

Lemma cmd_add_saved ty k msg env w st :
  meta w = Some (Json (RepoState_to_json st)) →
  cmd_add ty k msg env w
  = add {| doc_type := ty; self_snapshot_interval := k; state := Some st |}
        msg env w.
Proof.
  intros Hm. unfold cmd_add, bind. by rewrite (DVCS_new_saved _ _ _ _ Hm).
Qed.

Lemma cmd_get_absent ver output env w :
  meta w = None →
  cmd_get ver output env w
  = (Err (RuntimeError NotInitializedForFile), w).
Proof.
  intros Hm. unfold cmd_get, bind. by rewrite (_open_inferred_absent _ Hm).
Qed.

Lemma cmd_get_saved ver output env w st :
  meta w = Some (Json (RepoState_to_json st)) →
  cmd_get ver output env w
  = match _reconstruct_bytes st env ver w with
    | Ok bytes_ =>
        (Ok tt, print (P_wrote ver output) (write_out output bytes_ w))
    | Err e => (Err e, w)
    end.
Proof.
  intros Hm. unfold cmd_get, bind. rewrite (_open_inferred_saved _ _ Hm).
  pose proof (get_cases {| doc_type := document_type st;
                 self_snapshot_interval := snapshot_interval st;
                 state := Some st |} st ver output env w eq_refl) as Hg.
  by destruct (_reconstruct_bytes _ _ _ _).
Qed.

Lemma cmd_revert_absent ver env w :
  meta w = None →
  cmd_revert ver env w
  = (Err (RuntimeError NotInitializedForFile), w).
Proof.
  intros Hm. unfold cmd_revert, bind.
  by rewrite (_open_inferred_absent _ Hm).
Qed.

Lemma cmd_revert_saved ver env w st :
  meta w = Some (Json (RepoState_to_json st)) →
  cmd_revert ver env w
  = match _reconstruct_bytes st env ver w with
    | Ok bytes_ => (Ok tt, print (P_reverted ver) (write_doc bytes_ w))
    | Err e => (Err e, w)
    end.
Proof.
  intros Hm. unfold cmd_revert, bind. rewrite (_open_inferred_saved _ _ Hm).
  pose proof (revert_cases {| doc_type := document_type st;
                 self_snapshot_interval := snapshot_interval st;
                 state := Some st |} st ver env w eq_refl) as Hg.
  by destruct (_reconstruct_bytes _ _ _ _).
Qed.

Lemma perform_step a w :
  persisted w →
  repo_step w (exec a w) a (committed a w) ∧ persisted (exec a w).
Proof.
  intros Hp. unfold exec, committed.
  destruct a as [data | ty k msg env | ty k msg env | ver output env
                | ver env]; cbn [perform].
  - split; [by apply step_same | exact Hp].
  - unfold bind. destruct Hp as [Hm | [st Hm]].
    + rewrite (cmd_init_absent _ _ _ _ _ Hm), Hm.
      destruct (doc w) as [data |] eqn:Hdoc; cbn.
      * split; [by eapply step_init | right; eauto].
      * split; [by apply step_same | by left].
    + rewrite (cmd_init_saved _ _ _ _ _ _ Hm), Hm. cbn.
      split; [| right; eauto].
      destruct (doc w); by apply step_same.
  - unfold bind. destruct Hp as [Hm | [st Hm]].
    + rewrite (cmd_add_absent _ _ _ _ _ Hm). cbn.
      split; [by apply step_same | by left].
    + rewrite (cmd_add_saved _ _ _ _ _ _ Hm).
      destruct (add_cases {| doc_type := ty; self_snapshot_interval := k;
                             state := Some st |} st msg env w eq_refl)
        as [[e He] | (data & last & e & content & ps & Hdoc & Hlast & Hk
                      & Hform & He)]; rewrite He; cbn.
      * split; [by apply step_same | right; eauto].
      * rewrite Hdoc. split; [| right; eauto].
        eapply step_add; eauto.
  - destruct Hp as [Hm | [st Hm]].
    + rewrite (cmd_get_absent _ _ _ _ Hm). cbn.
      split; [by apply step_same | by left].
    + rewrite (cmd_get_saved _ _ _ _ _ Hm).
      destruct (_reconstruct_bytes _ _ _ _); cbn;
        (split; [by apply step_same | right; eauto]).
  - destruct Hp as [Hm | [st Hm]].
    + rewrite (cmd_revert_absent _ _ _ Hm). cbn.
      split; [by apply step_same | by left].
    + rewrite (cmd_revert_saved _ _ _ _ Hm).
      destruct (_reconstruct_bytes _ _ _ _); cbn;
        (split; [by apply step_same | right; eauto]).
Qed.


Lemma RepoState_to_json_inj st1 st2 :
  RepoState_to_json st1 = RepoState_to_json st2 → st1 = st2.
Proof.
  intros Heq. pose proof (load_typed_to_json st1) as H1.
  rewrite Heq, load_typed_to_json in H1. congruence.
Qed.

(** *** Induction over a run *)

Lemma run_invariant (P : action → Prop) (I : World → list bytes → Prop) :
  (∀ a w w' c h, P a → I w h → repo_step w w' a c → I w' (h ++ c)) →
  ∀ l w h, Forall P l → persisted w → I w h →
           I (run l w) (h ++ history l w) ∧ persisted (run l w).
Proof.
  intros Hstep l. induction l as [| a l IH]; intros w h HP Hp HI.
  - cbn. by rewrite app_nil_r.
  - inversion_clear HP as [| ? ? Ha HP'].
    destruct (perform_step a w Hp) as [Hs Hp'].
    cbn [run history]. rewrite app_assoc.
    apply IH; [done | done |]. by eapply Hstep.
Qed.

(** *** The shape of the ledger *)

Lemma ledger_ok_lookup vs (i : nat) e :
  ledger_ok vs → vs !! i = Some e → version e = Z.of_nat i + 1.
Proof.
  intros (_ & Hidx & _) Hi.
  assert ((version <$> vs) !! i = Some (version e)) as Hv
    by (by rewrite list_lookup_fmap, Hi).
  rewrite Hidx in Hv. apply lookup_seqZ in Hv as [-> _]. lia.
Qed.

Lemma ledger_ok_head vs :
  ledger_ok vs → ∃ e, vs !! 0%nat = Some e ∧ kind e = "snapshot".
Proof.
  intros (_ & _ & Hhd & _). destruct vs as [| e vs]; [done |].
  exists e. split; [done |]. by injection Hhd.
Qed.

Lemma ledger_ok_last vs last :
  ledger_ok vs → list.last vs = Some last →
  version last = Z.of_nat (length vs).
Proof.
  intros Hok Hlast. rewrite last_lookup in Hlast.
  pose proof (lookup_lt_Some _ _ _ Hlast) as Hlt.
  rewrite (ledger_ok_lookup _ _ _ Hok Hlast). lia.
Qed.

Lemma ledger_ok_singleton e :
  version e = 1 → kind e = "snapshot" → ledger_ok [e].
Proof.
  intros Hv Hk. split_and!; cbn; [done | by rewrite Hv | by rewrite Hk |].
  apply Forall_singleton. by rewrite Hk.
Qed.

Lemma ledger_ok_snoc vs last e :
  ledger_ok vs → list.last vs = Some last →
  version e = version last + 1 →
  (kind e = "delta" → base_version e = Some (version e - 1)) →
  ledger_ok (vs ++ [e]).
Proof.
  intros Hok Hlast Hver Hbase.
  pose proof (ledger_ok_last _ _ Hok Hlast) as Hlen.
  destruct Hok as (Hne & Hidx & Hhd & Hdelta).
  split_and!.
  - by destruct vs.
  - rewrite fmap_app, length_app, Nat2Z.inj_add, seqZ_app by lia.
    rewrite Hidx. f_equal. simpl length.
    rewrite seqZ_cons, seqZ_nil by lia.
    cbn. f_equal. lia.
  - by destruct vs.
  - apply Forall_app. split; [done |]. by apply Forall_singleton.
Qed.

Lemma add_form_version st env w data msg last e content ps :
  add_form st env w data msg last e content ps →
  version e = version last + 1
  ∧ (kind e = "delta" → base_version e = Some (version e - 1))
  ∧ (kind e = "snapshot" ∧ file e = _version_file (version e) true
     ∨ kind e = "delta" ∧ file e = _version_file (version e) false).
Proof.
  destruct 1; cbn; (split_and!; [done | done | by auto]).
Qed.

Lemma entry_stored_insert w w' name content e :
  blobs w' = <[name := content]> (blobs w) →
  entry_stored w e → entry_stored w' e.
Proof.
  intros Hb [Hn Hs]. split; [done |]. rewrite Hb.
  destruct (decide (name = file e)) as [-> | Hne].
  - rewrite lookup_insert_eq. eauto.
  - by rewrite lookup_insert_ne.
Qed.

Lemma shape_step a w w' c :
  shape_inv w → repo_step w w' a c → shape_inv w'.
Proof.
  intros Hinv Hstep.
  destruct Hstep as [a Hm Hb | ty k msg env data Hm Hdoc ->
                    | ty k msg env st data last e content ps Hm Hdoc Hlast
                        Hk Hform ->].
  - destruct Hinv as [Hnone | (st & Hst & Hok & Hfiles)].
    + left. congruence.
    + right. exists st. split_and!; [congruence | done |].
      intros e He. destruct (Hfiles e He) as [Hn Hs].
      split; [done |]. by rewrite Hb.
  - right. exists (init_state ty k msg env). split_and!; [done | |].
    + by apply ledger_ok_singleton.
    + intros e ->%list_elem_of_singleton. split; cbn; [by left |].
      rewrite lookup_insert_eq. eauto.
  - destruct Hinv as [Hnone | (st' & Hst & Hok & Hfiles)]; [congruence |].
    assert (st' = st) as -> by (apply RepoState_to_json_inj; congruence).
    destruct (add_form_version _ _ _ _ _ _ _ _ _ Hform)
      as (Hver & Hbase & Hname).
    unfold last_entry in Hlast.
    destruct (list.last (versions st)) as [l0 |] eqn:Hl; [| done].
    injection Hlast as ->.
    right. exists (append_version st e). split_and!; [done | |].
    + by eapply ledger_ok_snoc.
    + intros e' [Hin | ->%list_elem_of_singleton]%elem_of_app.
      * by eapply entry_stored_insert; [| apply Hfiles].
      * split; [done |]. cbn. rewrite lookup_insert_eq. eauto.
Qed.

Lemma shape_persisted w : shape_inv w → persisted w.
Proof. intros [? | (st & ? & _)]; [by left | right; eauto]. Qed.

Lemma shape_run l w : shape_inv w → shape_inv (run l w).
Proof.
  intros Hinv.
  apply (run_invariant (λ _, True) (λ w _, shape_inv w)) with (h := []);
    eauto using Forall_true, shape_persisted, shape_step.
Qed.

(** *** Looking records up *)

Lemma _entry_for_lookup st (i : nat) e :
  ledger_ok (versions st) → versions st !! i = Some e →
  _entry_for st (Z.of_nat i + 1) = Ok e.
Proof.
  intros Hok Hi. unfold _entry_for.
  assert (list_find (λ v, version v = Z.of_nat i + 1) (versions st)
          = Some (i, e)) as ->; [| done].
  apply list_find_Some. split_and!; [done | by eapply ledger_ok_lookup |].
  intros j y Hj Hlt Hy.
  rewrite (ledger_ok_lookup _ _ _ Hok Hj) in Hy. lia.
Qed.

Lemma nearest_snapshot_found (P : VersionEntry → Prop)
    `{!∀ v, Decision (P v)} vs :
  ledger_ok vs → (∀ e, version e = 1 → P e) →
  ∃ j e, list_find (λ v, P v ∧ kind v = "snapshot") (reverse vs)
         = Some (j, e)
         ∧ e ∈ vs ∧ P e ∧ kind e = "snapshot".
Proof.
  intros Hok HP.
  destruct (ledger_ok_head _ Hok) as (e0 & He0 & Hk0).
  pose proof (ledger_ok_lookup _ _ _ Hok He0) as Hv0.
  destruct (list_find_elem_of (λ v, P v ∧ kind v = "snapshot")
              (reverse vs) e0) as [[j e] Hfind].
  { apply elem_of_reverse. by eapply list_elem_of_lookup_2. }
  { split; [apply HP; lia | done]. }
  exists j, e. split; [done |].
  apply list_find_Some in Hfind as (Hj & [HPe Hke] & _).
  split_and!; [| done | done].
  apply elem_of_reverse. by eapply list_elem_of_lookup_2.
Qed.

Lemma _nearest_snapshot_at_or_before_ok st ver :
  ledger_ok (versions st) → 1 ≤ ver →
  ∃ idx (s : nat) e,
    _nearest_snapshot_at_or_before st ver = Ok (idx, e)
    ∧ versions st !! s = Some e ∧ kind e = "snapshot" ∧ version e ≤ ver.
Proof.
  intros Hok Hver. unfold _nearest_snapshot_at_or_before.
  destruct (nearest_snapshot_found (λ v, version v ≤ ver) _ Hok)
    as (j & e & -> & Hin & HP & Hk); [intros; lia |].
  apply list_elem_of_lookup in Hin as [s Hs]. eauto 10.
Qed.

Lemma _nearest_snapshot_before_ok st next_ver :
  ledger_ok (versions st) → 1 < next_ver →
  ∃ idx e,
    _nearest_snapshot_before st next_ver = Ok (idx, e) ∧ e ∈ versions st.
Proof.
  intros Hok Hver. unfold _nearest_snapshot_before.
  destruct (nearest_snapshot_found (λ v, version v < next_ver) _ Hok)
    as (j & e & -> & Hin & HP & Hk); [intros; lia |].
  eauto.
Qed.

Lemma last_entry_ok st :
  ledger_ok (versions st) →
  ∃ last, last_entry st = Ok last
          ∧ list.last (versions st) = Some last
          ∧ version last = Z.of_nat (length (versions st)).
Proof.
  intros Hok. unfold last_entry.
  destruct (list.last (versions st)) as [last |] eqn:Hlast.
  - exists last. split_and!; [done | done |]. by apply ledger_ok_last.
  - apply last_None in Hlast. by destruct Hok.
Qed.

(** *** Replaying a chain *)



Lemma replay_step_sound w st h env (j : nat) prev cur :
  holds w st h →
  h !! j = Some prev → h !! S j = Some cur →
  replay_step st env w prev (Z.of_nat j + 2)
  = if which_xdelta3 env then Ok cur
    else match versions st !! S j with
         | Some e => if decide (kind e = "snapshot") then Ok cur
                     else Err (RuntimeError XdeltaNotAvailable)
         | None => Ok cur
         end.
Proof.
  intros (Hok & Hfiles & Hlen & Hc) Hprev Hcur.
  destruct (lookup_lt_is_Some_2 (versions st) (S j)) as [e He].
  { rewrite <- Hlen. by eapply lookup_lt_Some. }
  unfold replay_step.
  replace (Z.of_nat j + 2) with (Z.of_nat (S j) + 1) by lia.
  rewrite (_entry_for_lookup _ _ _ Hok He). cbn [rbind]. rewrite He.
  destruct (Hc _ _ _ He Hcur) as [Hsnap Hdelta].
  case_decide as Hk.
  - unfold read_blob. rewrite (Hsnap Hk). by destruct (which_xdelta3 env).
  - destruct (which_xdelta3 env); [| done].
    destruct (Hfiles e) as [[[Hk' _] | [Hk' _]] _];
      [by eapply list_elem_of_lookup_2 | done |].
    destruct (Hdelta Hk') as (prev' & delta & Hp' & Hb & Hd).
    replace (S j - 1)%nat with j in Hp' by lia.
    rewrite Hb. simplify_eq. by rewrite Hd.
Qed.

Lemma replay_sound w st h env (n j : nat) prev cur :
  holds w st h →
  h !! j = Some prev → h !! (j + n)%nat = Some cur →
  foldM (replay_step st env w) prev (seqZ (Z.of_nat j + 2) (Z.of_nat n))
  = Ok cur
  ∨ which_xdelta3 env = false
    ∧ foldM (replay_step st env w) prev
            (seqZ (Z.of_nat j + 2) (Z.of_nat n))
      = Err (RuntimeError XdeltaNotAvailable).
Proof.
  intros Hh. revert j prev.
  induction n as [| n IH]; intros j prev Hprev Hcur.
  - left. rewrite Nat.add_0_r in Hcur. rewrite seqZ_nil by lia.
    cbn. congruence.
  - rewrite seqZ_cons by lia. cbn [foldM].
    destruct (lookup_lt_is_Some_2 h (S j)) as [mid Hmid].
    { apply lookup_lt_Some in Hcur. lia. }
    rewrite (replay_step_sound _ _ _ _ _ _ _ Hh Hprev Hmid).
    replace (Z.succ (Z.of_nat j + 2)) with (Z.of_nat (S j) + 2) by lia.
    replace (Z.pred (Z.of_nat (S n))) with (Z.of_nat n) by lia.
    replace (j + S n)%nat with (S j + n)%nat in Hcur by lia.
    destruct (which_xdelta3 env) eqn:Hwh.
    + cbn [rbind]. by apply IH.
    + destruct (versions st !! S j) as [e |];
        [case_decide |]; cbn [rbind]; auto.
Qed.

Lemma _reconstruct_bytes_sound w st h env (i : nat) cur :
  holds w st h → h !! i = Some cur →
  _reconstruct_bytes st env (Z.of_nat i + 1) w = Ok cur
  ∨ which_xdelta3 env = false
    ∧ _reconstruct_bytes st env (Z.of_nat i + 1) w
      = Err (RuntimeError XdeltaNotAvailable).
Proof.
  intros Hh Hcur. pose proof Hh as (Hok & Hfiles & Hlen & Hc).
  unfold _reconstruct_bytes.
  destruct (last_entry_ok _ Hok) as (last & -> & _ & Hlast).
  cbn [rbind]. pose proof (lookup_lt_Some _ _ _ Hcur) as Hlt.
  case_decide as Hrange; [lia |].
  destruct (_nearest_snapshot_at_or_before_ok st (Z.of_nat i + 1) Hok)
    as (idx & s & snap & -> & Hs & Hk & Hle); [lia |].
  cbn [rbind snd]. pose proof (ledger_ok_lookup _ _ _ Hok Hs) as Hv.
  destruct (lookup_lt_is_Some_2 h s) as [base Hbase].
  { rewrite Hlen. by eapply lookup_lt_Some. }
  destruct (Hc _ _ _ Hs Hbase) as [Hsnap _].
  unfold read_blob. rewrite (Hsnap Hk). cbn [from_option rbind].
  rewrite Hv.
  replace (Z.of_nat s + 1 + 1) with (Z.of_nat s + 2) by lia.
  replace (Z.of_nat i + 1 - (Z.of_nat s + 1)) with (Z.of_nat (i - s))
    by lia.
  eapply replay_sound; [done | done |].
  by replace (s + (i - s))%nat with i by lia.
Qed.

Lemma _reconstruct_bytes_correct w st h env (i : nat) cur :
  holds w st h → h !! i = Some cur → which_xdelta3 env = true →
  _reconstruct_bytes st env (Z.of_nat i + 1) w = Ok cur.
Proof.
  intros Hh Hcur Hwh.
  destruct (_reconstruct_bytes_sound _ _ _ env _ _ Hh Hcur)
    as [? | [? _]]; congruence.
Qed.

(** *** The blobs keep what was committed *)

Lemma repo_inv_shape w h : repo_inv w h → shape_inv w.
Proof.
  unfold repo_inv, shape_inv.
  destruct (meta w) as [m |]; [| by left].
  intros (st & -> & Hok & Hfiles & _). right. eauto.
Qed.

Lemma repo_inv_saved w h st :
  repo_inv w h → meta w = Some (Json (RepoState_to_json st)) →
  holds w st h.
Proof.
  unfold repo_inv. intros Hinv Hm. rewrite Hm in Hinv.
  destruct Hinv as (st' & Heq & Hh).
  assert (st' = st) as -> by (apply RepoState_to_json_inj; congruence).
  done.
Qed.

Lemma shape_inv_saved w st :
  shape_inv w → meta w = Some (Json (RepoState_to_json st)) →
  ledger_ok (versions st) ∧ ∀ e, e ∈ versions st → entry_stored w e.
Proof.
  intros [Hnone | (st' & Hst & Hok & Hfiles)] Hm; [congruence |].
  assert (st' = st) as -> by (apply RepoState_to_json_inj; congruence).
  done.
Qed.

Lemma entry_file_fresh w st (i : nat) e e' :
  ledger_ok (versions st) →
  (∀ e, e ∈ versions st → entry_stored w e) →
  versions st !! i = Some e →
  version e' = Z.of_nat (length (versions st)) + 1 →
  (∃ s, file e' = _version_file (version e') s) →
  file e' ≠ file e.
Proof.
  intros Hok Hfiles Hi Hv' [s' Hf'] Heq.
  pose proof (ledger_ok_lookup _ _ _ Hok Hi) as Hv.
  pose proof (lookup_lt_Some _ _ _ Hi) as Hlt.
  destruct (Hfiles e) as [Hname _]; [by eapply list_elem_of_lookup_2 |].
  assert (∃ s, file e = _version_file (version e) s) as [s Hf]
    by (destruct Hname as [[_ ?] | [_ ?]]; eauto).
  rewrite Hf, Hf' in Heq.
  apply version_file_inj in Heq as [Heq _]; lia.
Qed.

Lemma repo_inv_step a w w' c h :
  patch_round_trip →
  repo_inv w h → repo_step w w' a c → repo_inv w' (h ++ c).
Proof.
  intros Hlaw Hinv Hstep.
  pose proof (shape_step _ _ _ _ (repo_inv_shape _ _ Hinv) Hstep) as Hshape'.
  destruct Hstep as [a Hm Hb | ty k msg env data Hm Hdoc ->
                    | ty k msg env st data last e content ps Hm Hdoc Hlast
                        Hk Hform ->].
  - rewrite app_nil_r. unfold repo_inv in *. rewrite Hm.
    destruct (meta w) as [m |]; [| done].
    destruct Hinv as (st & -> & Hok & Hfiles & Hlen & Hc).
    exists st. split; [done |]. split_and!; [done | | done |].
    + intros e He. destruct (Hfiles e He). split; [done |]. by rewrite Hb.
    + intros i e cur. rewrite Hb. apply Hc.
  - unfold repo_inv in Hinv. rewrite Hm in Hinv. subst h.
    destruct (shape_inv_saved _ _ Hshape' eq_refl) as [Hok' Hfiles'].
    exists (init_state ty k msg env). split; [done |].
    split_and!; [done | done | done |].
    intros [| i] e cur; cbn; [| done]. intros [= <-] [= <-].
    split; [| done]. intros _. apply lookup_insert_eq.
  - pose proof (repo_inv_saved _ _ _ Hinv Hm) as Hh.
    pose proof Hh as (Hok & Hfiles & Hlen & Hc).
    destruct (shape_inv_saved _ _ Hshape' eq_refl) as [Hok' Hfiles'].
    destruct (add_form_version _ _ _ _ _ _ _ _ _ Hform)
      as (Hver & Hbase & Hname).
    destruct (last_entry_ok _ Hok) as (last' & Hl' & _ & Hvlast).
    assert (last' = last) as -> by congruence.
    exists (append_version st e). split; [done |].
    split_and!; [done | done | by cbn; rewrite !length_app, Hlen |].
    intros i e' cur Hi Hcur. cbn in Hi.
    apply lookup_app_Some in Hi as [Hi | [Hge Hi]].
    + pose proof (lookup_lt_Some _ _ _ Hi) as Hlt.
      rewrite lookup_app_l in Hcur by lia.
      destruct (Hc _ _ _ Hi Hcur) as [Hs Hd].
      assert (file e ≠ file e') as Hne.
      { apply (entry_file_fresh w st i e' e); [done | done | done | lia |].
        destruct Hname as [[_ ?] | [_ ?]]; eauto. }
      cbn. rewrite lookup_insert_ne by done. split; [done |].
      intros Hk'. destruct (Hd Hk') as (prev & delta & Hp & Hb & Hdec).
      exists prev, delta. split_and!; [| done | done].
      rewrite lookup_app_l; [done |]. lia.
    + apply list_lookup_singleton_Some in Hi as [Hi ->].
      assert (i = length h) as -> by lia.
      rewrite lookup_app_r, Nat.sub_diag in Hcur by lia.
      injection Hcur as <-. cbn. rewrite lookup_insert_eq.
      destruct Hform as [Hmod | prior delta Hmod Hrec Hwh Henc
                        | prior ps Hmod Hrec Hfail]; cbn;
        (split; [try done |]; try done).
      intros _. exists prior, delta. split_and!; [| done | by apply Hlaw].
      assert (length h ≠ 0)%nat as Hpos.
      { rewrite Hlen. destruct Hok as [Hne' _].
        by destruct (versions st). }
      destruct (lookup_lt_is_Some_2 h (length h - 1)) as [prev Hprev];
        [lia |].
      rewrite lookup_app_l by lia. rewrite Hprev. f_equal.
      pose proof (_reconstruct_bytes_correct _ _ _ env _ _ Hh Hprev Hwh)
        as Hrec'.
      replace (Z.of_nat (length h - 1) + 1) with (version last) in Hrec'
        by lia.
      congruence.
Qed.

Lemma repo_inv_run l w :
  patch_round_trip → meta w = None →
  repo_inv (run l w) (history l w).
Proof.
  intros Hlaw Hm.
  destruct (run_invariant (λ _, True) repo_inv) with (l := l) (w := w)
    (h := @nil bytes) as [Hinv _]; [| by apply Forall_true | by left | | done].
  - intros. by eapply repo_inv_step.
  - unfold repo_inv. by rewrite Hm.
Qed.

Lemma loaded_saved w st :
  meta w = Some (Json (RepoState_to_json st)) → loaded w = Some st.
Proof. intros Hm. unfold loaded. by rewrite Hm, load_typed_to_json. Qed.

Lemma loaded_absent w : meta w = None → loaded w = None.
Proof. intros Hm. unfold loaded. by rewrite Hm. Qed.

Lemma persisted_loaded w st :
  persisted w → loaded w = Some st →
  meta w = Some (Json (RepoState_to_json st)).
Proof.
  intros [Hm | [st' Hm]] Hl.
  - by rewrite (loaded_absent _ Hm) in Hl.
  - rewrite (loaded_saved _ _ Hm) in Hl. congruence.
Qed.

Lemma run_app l1 l2 w : run (l1 ++ l2) w = run l2 (run l1 w).
Proof. revert w. induction l1 as [| a l1 IH]; intros w; cbn; auto. Qed.

Lemma ledger_step a w w' c :
  persisted w → repo_step w w' a c → ledger w `prefix_of` ledger w'.
Proof.
  intros Hp Hstep. unfold ledger.
  destruct Hstep as [a Hm Hb | ty k msg env data Hm Hdoc ->
                    | ty k msg env st data last e content ps Hm Hdoc Hlast
                        Hk Hform ->].
  - unfold loaded. by rewrite Hm.
  - rewrite (loaded_absent _ Hm). apply prefix_nil.
  - rewrite (loaded_saved _ _ Hm).
    rewrite (loaded_saved _ (append_version st e)) by done.
    by apply prefix_app_r.
Qed.

Lemma ledger_run l w :
  persisted w → ledger w `prefix_of` ledger (run l w).
Proof.
  revert w. induction l as [| a l IH]; intros w Hp; [done |].
  destruct (perform_step a w Hp) as [Hs Hp'].
  cbn. etrans; [by eapply ledger_step | by apply IH].
Qed.

(** C5 — the ledger invariant holds after every run that starts where no
    repository exists, and whatever is done next only appends: once a
    repository is there, its list of versions is not empty, the record
    at index [i] has version [i + 1], the first record is a snapshot,
    every delta has [base_version = version - 1], and the ledger after
    [l] is a prefix of the ledger after [l ++ l']. *)
Theorem ledger_invariant_preserved l l' w0 st :
  meta w0 = None →
  loaded (run l w0) = Some st →
  (versions st ≠ []
   ∧ (∀ (i : nat) e, versions st !! i = Some e →
                     version e = Z.of_nat i + 1)
   ∧ (∃ e, versions st !! 0%nat = Some e ∧ kind e = "snapshot")
   ∧ (∀ e, e ∈ versions st → kind e = "delta" →
           base_version e = Some (version e - 1)))
  ∧ versions st `prefix_of` ledger (run (l ++ l') w0).
Proof.
  intros Hm Hl.
  assert (shape_inv w0) as Hs0 by (by left).
  pose proof (shape_run l w0 Hs0) as Hs.
  pose proof (shape_persisted _ Hs) as Hp.
  pose proof (persisted_loaded _ _ Hp Hl) as Hmeta.
  destruct (shape_inv_saved _ _ Hs Hmeta) as [Hok _].
  split.
  - split_and!.
    + by destruct Hok.
    + intros i e. by apply ledger_ok_lookup.
    + by apply ledger_ok_head.
    + destruct Hok as (_ & _ & _ & Hd). rewrite list.Forall_forall in Hd.
      exact Hd.
  - rewrite run_app. pose proof (ledger_run l' _ Hp) as Hpre.
    unfold ledger at 1 in Hpre. by rewrite Hl in Hpre.
Qed.

(** *** Opening a repository that is there *)

Lemma loaded_load_typed w st :
  loaded w = Some st → load_typed (meta w) = Ok (Some st).
Proof.
  unfold loaded. destruct (load_typed (meta w)) as [[st' |] | e]; congruence.
Qed.

Lemma DVCS_new_loaded ty k w st :
  loaded w = Some st →
  DVCS_new ty k w
  = (Ok {| doc_type := ty; self_snapshot_interval := k; state := Some st |},
     w).
Proof.
  intros Hl. unfold DVCS_new, reads. by rewrite (loaded_load_typed _ _ Hl).
Qed.

Lemma _open_inferred_general w :
  _open_inferred w
  = match load_typed (meta w) with
    | Ok (Some st) =>
        (Ok {| doc_type := document_type st;
               self_snapshot_interval := snapshot_interval st;
               state := Some st |}, w)
    | Ok None => (Err (RuntimeError NotInitializedForFile), w)
    | Err e => (Err e, w)
    end.
Proof.
  unfold _open_inferred, bind, reads, DVCS_new, lift, reads.
  destruct (load_typed (meta w)) as [[st |] | e] eqn:Hl; [| done | done].
  by rewrite Hl.
Qed.

Lemma _reconstruct_bytes_blobs st env ver w1 w2 :
  blobs w1 = blobs w2 →
  _reconstruct_bytes st env ver w1 = _reconstruct_bytes st env ver w2.
Proof.
  intros Hb. unfold _reconstruct_bytes.
  assert (∀ name, read_blob name w1 = read_blob name w2) as Hread
    by (intros; unfold read_blob; by rewrite Hb).
  assert (∀ data v, replay_step st env w1 data v
                    = replay_step st env w2 data v) as Hstep
    by (intros; unfold replay_step; destruct (_entry_for st v); cbn;
        by rewrite ?Hread, ?Hb).
  assert (∀ l data, foldM (replay_step st env w1) data l
                    = foldM (replay_step st env w2) data l)
    as Hfold.
  { induction l as [| v l IH]; intros data; [done |].
    cbn. rewrite Hstep. destruct (replay_step _ _ _ _ _); cbn; auto. }
  destruct (last_entry st); [| done]. cbn. case_decide; [done |].
  destruct (_nearest_snapshot_at_or_before st ver); [| done]. cbn.
  rewrite Hread. destruct (read_blob _ w2); [| done]. cbn. apply Hfold.
Qed.

Lemma cmd_revert_general ver env w :
  cmd_revert ver env w
  = match load_typed (meta w) with
    | Ok (Some st) =>
        match _reconstruct_bytes st env ver w with
        | Ok bytes_ => (Ok tt, print (P_reverted ver) (write_doc bytes_ w))
        | Err e => (Err e, w)
        end
    | Ok None => (Err (RuntimeError NotInitializedForFile), w)
    | Err e => (Err e, w)
    end.
Proof.
  unfold cmd_revert, bind. rewrite _open_inferred_general.
  destruct (load_typed (meta w)) as [[st |] | e]; [| done | done].
  pose proof (revert_cases
                {| doc_type := document_type st;
                   self_snapshot_interval := snapshot_interval st;
                   state := Some st |} st ver env w eq_refl) as Hr.
  by destruct (_reconstruct_bytes _ _ _ _).
Qed.

Lemma cmd_get_general ver output env w :
  cmd_get ver output env w
  = match load_typed (meta w) with
    | Ok (Some st) =>
        match _reconstruct_bytes st env ver w with
        | Ok bytes_ =>
            (Ok tt, print (P_wrote ver output) (write_out output bytes_ w))
        | Err e => (Err e, w)
        end
    | Ok None => (Err (RuntimeError NotInitializedForFile), w)
    | Err e => (Err e, w)
    end.
Proof.
  unfold cmd_get, bind. rewrite _open_inferred_general.
  destruct (load_typed (meta w)) as [[st |] | e]; [| done | done].
  pose proof (get_cases
                {| doc_type := document_type st;
                   self_snapshot_interval := snapshot_interval st;
                   state := Some st |} st ver output env w eq_refl) as Hr.
  by destruct (_reconstruct_bytes _ _ _ _).
Qed.

(** C8 — [init] on a path whose repository already exists raises nothing
    and changes nothing but the standard output, where it reports the
    fact: no record is appended, no blob is written, and the persisted
    ledger is what it was. *)
Theorem init_on_existing_repository w st ty k msg env :
  loaded w = Some st →
  cmd_init ty k msg env w
  = (Ok {| doc_type := ty; self_snapshot_interval := k; state := Some st |},
     print P_already_initialized w)
  ∧ meta (exec (Init ty k msg env) w) = meta w
  ∧ blobs (exec (Init ty k msg env) w) = blobs w
  ∧ doc (exec (Init ty k msg env) w) = doc w
  ∧ ledger (exec (Init ty k msg env) w) = versions st
  ∧ stdout (exec (Init ty k msg env) w)
    = stdout w ++ [P_already_initialized]
  ∧ committed (Init ty k msg env) w = [].
Proof.
  intros Hl.
  assert (cmd_init ty k msg env w
          = (Ok {| doc_type := ty; self_snapshot_interval := k;
                   state := Some st |}, print P_already_initialized w))
    as Hinit.
  { unfold cmd_init, bind. by rewrite (DVCS_new_loaded _ _ _ _ Hl). }
  split; [done |].
  unfold exec, committed. cbn [perform]. unfold bind.
  rewrite Hinit. cbn. split_and!; try done.
  - unfold ledger, loaded in *. cbn. by rewrite (loaded_load_typed _ _ Hl).
  - assert (is_Some (meta w)) as [m Hm].
    { destruct (meta w) eqn:Hm; [eauto |].
      by rewrite (loaded_absent _ Hm) in Hl. }
    rewrite Hm. by destruct (doc w).
Qed.


(** *** The constructor's interval *)

Lemma add_self_irrelevant self1 self2 msg env w :
  state self1 = state self2 →
  (add self1 msg env w).2
  = (add self2 msg env w).2
  ∧ outcome_state (add self1 msg env w).1
    = outcome_state (add self2 msg env w).1.
Proof.
  intros Hst. unfold add, bind, lift, reads, _require_initialized.
  rewrite Hst. destruct (state self2) as [st |]; cbn; [| done].
  destruct (read_doc w) as [data |]; [| done].
  destruct (last_entry st) as [last |]; [| done].
  destruct (py_mod _ _) as [r |]; [| done].
  case_decide; [done |].
  destruct (_nearest_snapshot_before _ _); [| done].
  destruct (read_blob _ w); [| done].
  destruct (_reconstruct_bytes _ _ _ w); [| done].
  destruct (which_xdelta3 env); [| done].
  by destruct (xdelta3_e _ _).
Qed.

(** C10 — the interval given to the constructor does not reach [add]:
    two runs of [add] that differ in that argument only leave the same
    world and the same ledger (or raise the same exception), and on a
    repository that is there the record appended is the cadence snapshot
    exactly when the last version is a multiple of the interval stored
    in the metadata. *)
Theorem add_ignores_constructor_interval ty k1 k2 msg env w :
  (cmd_add ty k1 msg env w).2 = (cmd_add ty k2 msg env w).2
  ∧ outcome_state (cmd_add ty k1 msg env w).1
    = outcome_state (cmd_add ty k2 msg env w).1
  ∧ ∀ st last self' w',
      loaded w = Some st → last_entry st = Ok last →
      cmd_add ty k1 msg env w = (Ok self', w') →
      ∃ e, state self' = Some (append_version st e)
           ∧ version e = version last + 1
           ∧ (version last `mod` snapshot_interval st = 0 →
              e = snapshot_entry (version last + 1)
                    (_version_file (version last + 1) true) msg env)
           ∧ (version last `mod` snapshot_interval st ≠ 0 →
              e = delta_entry (version last + 1)
                    (_version_file (version last + 1) false) msg env
              ∨ e = snapshot_entry (version last + 1)
                      (_version_file (version last + 1) true)
                      (fallback_message msg) env).
Proof.
  split_and!.
  - unfold cmd_add, bind, DVCS_new, reads.
    destruct (load_typed (meta w)) as [st |]; cbn [rbind]; [| done].
    by apply add_self_irrelevant.
  - unfold cmd_add, bind, DVCS_new, reads.
    destruct (load_typed (meta w)) as [st |]; cbn [rbind]; [| done].
    by apply add_self_irrelevant.
  - intros st last self' w' Hl Hlast Hadd.
    unfold cmd_add, bind in Hadd.
    rewrite (DVCS_new_loaded _ _ _ _ Hl) in Hadd.
    destruct (add_cases
                {| doc_type := ty; self_snapshot_interval := k1;
                   state := Some st |} st msg env w eq_refl)
      as [[e He] | (data & last' & e & content & ps & Hdoc & Hlast' & Hk
                    & Hform & He)]; [congruence |].
    assert (last' = last) as -> by congruence.
    rewrite He in Hadd. injection Hadd as <- <-.
    exists e. split; [done |].
    destruct Hform; (split_and!; [done | by intros | by intros; auto]).
Qed.

(** *** The range check *)

Lemma replay_step_not_range st env w data v n :
  replay_step st env w data v ≠ Err (ValueError_range n).
Proof.
  unfold replay_step, _entry_for, read_blob.
  destruct (list_find _ _) as [[i e] |]; cbn; [| done].
  case_decide; [by destruct (blobs w !! file e) |].
  destruct (which_xdelta3 env); [| done].
  destruct (blobs w !! file e) as [delta |]; [| done].
  by destruct (xdelta3_d data delta).
Qed.

Lemma foldM_replay_not_range st env w l data n :
  foldM (replay_step st env w) data l ≠ Err (ValueError_range n).
Proof.
  revert data. induction l as [| v l IH]; intros data; [done |].
  cbn. pose proof (replay_step_not_range st env w data v n) as Hstep.
  destruct (replay_step _ _ _ _ _); cbn; [apply IH | done].
Qed.

(** C6 — [_reconstruct_bytes] raises the version-out-of-range error
    exactly when the target is below 1 or above the last recorded
    version; on a repository of four versions, targets 0 and 999 both
    raise it. *)
Theorem version_range_check st env w :
  (∀ last target,
      last_entry st = Ok last →
      (∃ n, _reconstruct_bytes st env target w = Err (ValueError_range n))
      ↔ target < 1 ∨ target > version last)
  ∧ (∀ last target,
        last_entry st = Ok last →
        target < 1 ∨ target > version last →
        _reconstruct_bytes st env target w
        = Err (ValueError_range (version last)))
  ∧ (ledger_ok (versions st) → length (versions st) = 4%nat →
     _reconstruct_bytes st env 0 w = Err (ValueError_range 4)
     ∧ _reconstruct_bytes st env 999 w = Err (ValueError_range 4)).
Proof.
  assert (∀ last target,
             last_entry st = Ok last →
             target < 1 ∨ target > version last →
             _reconstruct_bytes st env target w
             = Err (ValueError_range (version last))) as Hout.
  { intros last target Hlast Hr. unfold _reconstruct_bytes.
    rewrite Hlast. cbn. by case_decide. }
  split_and!; [| exact Hout |].
  - intros last target Hlast. split; [| by eauto].
    intros [n Herr]. unfold _reconstruct_bytes in Herr.
    rewrite Hlast in Herr. cbn in Herr.
    case_decide as Hr; [done |]. exfalso.
    destruct (_nearest_snapshot_at_or_before st target)
      as [[idx snap] | e] eqn:Hn; cbn in Herr.
    + unfold read_blob in Herr.
      destruct (blobs w !! file snap); cbn in Herr; [| done].
      exact (foldM_replay_not_range _ _ _ _ _ _ Herr).
    + unfold _nearest_snapshot_at_or_before in Hn.
      destruct (list_find _ _) as [[i e'] |]; congruence.
  - intros Hok Hlen.
    destruct (last_entry_ok _ Hok) as (last & Hlast & _ & Hv).
    rewrite Hlen in Hv.
    rewrite !(Hout last) by (done || lia). by rewrite Hv.
Qed.

(** *** Round trip *)

Lemma history_app l1 l2 w :
  history (l1 ++ l2) w = history l1 w ++ history l2 (run l1 w).
Proof.
  revert w. induction l1 as [| a l1 IH]; intros w; cbn; [done |].
  by rewrite IH, app_assoc.
Qed.

(** C1 — every version committed during a run that starts where no
    repository exists is reconstructed to the bytes read from the
    document when it was committed, also after the later actions [l']
    (commits, reverts, edits) of the run: with a patch tool whose decoder
    inverts its encoder, [_reconstruct_bytes] returns exactly those bytes
    whenever the tool is found, and never returns other bytes. *)
Theorem committed_versions_round_trip l l' w0 st :
  patch_round_trip →
  meta w0 = None →
  loaded (run (l ++ l') w0) = Some st →
  length (versions st) = length (history (l ++ l') w0)
  ∧ ∀ (i : nat) data env,
      history l w0 !! i = Some data →
      (∃ e, versions st !! i = Some e ∧ version e = Z.of_nat i + 1)
      ∧ (which_xdelta3 env = true →
         _reconstruct_bytes st env (Z.of_nat i + 1) (run (l ++ l') w0)
         = Ok data)
      ∧ (∀ out,
            _reconstruct_bytes st env (Z.of_nat i + 1) (run (l ++ l') w0)
            = Ok out →
            out = data).
Proof.
  intros Hlaw Hm Hl.
  pose proof (repo_inv_run (l ++ l') w0 Hlaw Hm) as Hinv.
  pose proof (shape_persisted _ (repo_inv_shape _ _ Hinv)) as Hp.
  pose proof (persisted_loaded _ _ Hp Hl) as Hmeta.
  pose proof (repo_inv_saved _ _ _ Hinv Hmeta) as Hh.
  pose proof Hh as (Hok & _ & Hlen & _).
  split; [done |]. intros i data env Hi.
  assert (history (l ++ l') w0 !! i = Some data) as Hi'.
  { rewrite history_app. by apply lookup_app_l_Some. }
  split_and!.
  - destruct (lookup_lt_is_Some_2 (versions st) i) as [e He].
    { rewrite <- Hlen. by eapply lookup_lt_Some. }
    exists e. split; [done |]. by eapply ledger_ok_lookup.
  - intros Hwh. by eapply _reconstruct_bytes_correct.
  - intros out Hout.
    destruct (_reconstruct_bytes_sound _ _ _ env _ _ Hh Hi')
      as [Hr | [_ Hr]]; congruence.
Qed.

(** *** Decoding failures *)

Lemma foldM_app {A S} (f : S → A → result S) s l1 l2 :
  foldM f s (l1 ++ l2) = let? s' := foldM f s l1 in foldM f s' l2.
Proof.
  revert s. induction l1 as [| x l1 IH]; intros s; [done |].
  cbn. destruct (f s x); cbn; auto.
Qed.

(** C4 — a decoding failure is fatal and leaves no output: when the
    replay of [_reconstruct_bytes] reaches a delta record (version [v],
    with working buffer [data]) and the patch tool is not found, or its
    decoding exits with an error, reconstruction raises that failure
    instead of going on, and [get] raises it too and leaves the world
    exactly as it was: no output file is written.  (Whatever makes the
    [get] command raise, it leaves the world as it was.) *)
Theorem decode_failure_is_fatal self st env w target output
    last idx snap data0 l1 v l2 data e :
  state self = Some st →
  last_entry st = Ok last →
  1 ≤ target ≤ version last →
  _nearest_snapshot_at_or_before st target = Ok (idx, snap) →
  read_blob (file snap) w = Ok data0 →
  seqZ (version snap + 1) (target - version snap) = l1 ++ v :: l2 →
  foldM (replay_step st env w) data0 l1 = Ok data →
  _entry_for st v = Ok e →
  kind e = "delta" →
  decode_fails env data (blobs w !! file e) →
  let failure :=
    RuntimeError (if which_xdelta3 env then FailedToApplyDelta v
                  else XdeltaNotAvailable) in
  _reconstruct_bytes st env target w = Err failure
  ∧ get self target output env w = (Err failure, w)
  ∧ outs (get self target output env w).2 = outs w
  ∧ ∀ err, (cmd_get target output env w).1 = Err err →
           (cmd_get target output env w).2 = w.
Proof.
  intros Hst Hlast Hrange Hsnap Hread Hseq Hfold He Hk Hfail failure.
  assert (replay_step st env w data v = Err failure) as Hstep.
  { unfold replay_step. rewrite He. cbn. rewrite Hk.
    case_decide; [done |]. subst failure.
    destruct Hfail as [-> | Hdec]; [done |].
    destruct (which_xdelta3 env); [| done].
    destruct (blobs w !! file e) as [delta |]; [| done]. by rewrite Hdec. }
  assert (_reconstruct_bytes st env target w = Err failure) as Hrec.
  { unfold _reconstruct_bytes. rewrite Hlast. cbn.
    case_decide; [lia |]. rewrite Hsnap. cbn. rewrite Hread. cbn.
    rewrite Hseq, foldM_app, Hfold. cbn. by rewrite Hstep. }
  pose proof (get_cases self st target output env w Hst) as Hget.
  rewrite Hrec in Hget. rewrite Hget. split_and!; [done .. |].
  intros err. rewrite cmd_get_general.
  destruct (load_typed (meta w)) as [[st' |] | e']; [| done | done].
  by destruct (_reconstruct_bytes st' env target w).
Qed.

(** *** Snapshot cadence *)

Lemma div_cadence_step N k :
  0 < k → 1 ≤ N →
  N `div` k = (N - 1) `div` k + (if decide (N `mod` k = 0) then 1 else 0).
Proof.
  intros Hk HN.
  pose proof (Z.div_mod N k ltac:(lia)) as HN1.
  pose proof (Z.mod_pos_bound N k Hk) as HN2.
  case_decide as Hmod.
  - assert ((N - 1) `div` k = N `div` k - 1) as ->; [| lia].
    symmetry. apply (Z.div_unique _ _ _ (k - 1)); lia.
  - assert ((N - 1) `div` k = N `div` k) as ->; [| lia].
    symmetry. apply (Z.div_unique _ _ _ (N `mod` k - 1)); lia.
Qed.

Lemma count_snapshots_snoc vs e :
  count_snapshots (vs ++ [e])
  = (count_snapshots vs
     + if decide (kind e = "snapshot") then 1 else 0)%nat.
Proof.
  unfold count_snapshots. rewrite list.filter_app, length_app. f_equal.
  rewrite filter_cons, filter_nil. by case_decide.
Qed.

Lemma cadence_step a w w' c :
  encoder_total → tool_found a →
  cadence_inv w → repo_step w w' a c → cadence_inv w'.
Proof.
  intros Htot Htool [Hshape Hcount] Hstep.
  split; [by eapply shape_step |].
  destruct Hstep as [a Hm Hb | ty k msg env data Hm Hdoc ->
                    | ty k msg env st data last e content ps Hm Hdoc Hlast
                        Hk Hform ->].
  - by rewrite Hm.
  - intros st' Heq Hpos. cbn in Heq.
    assert (st' = init_state ty k msg env) as ->
      by (apply RepoState_to_json_inj; congruence).
    cbn in Hpos |- *. by rewrite Z.div_0_l by lia.
  - intros st' Heq Hpos. cbn in Heq.
    assert (st' = append_version st e) as ->
      by (apply RepoState_to_json_inj; congruence).
    cbn [versions append_version snapshot_interval] in Hpos |- *.
    destruct (shape_inv_saved _ _ Hshape Hm) as [Hok _].
    destruct (last_entry_ok _ Hok) as (last' & Hl' & _ & Hvlast).
    assert (last' = last) as -> by congruence.
    assert (length (versions st) ≠ 0)%nat as Hne.
    { destruct Hok as [Hne _]. by destruct (versions st). }
    rewrite count_snapshots_snoc, length_app, !Nat2Z.inj_add. cbn [length].
    rewrite (Hcount st Hm Hpos).
    replace (Z.of_nat (length (versions st)) + Z.of_nat 1 - 1)
      with (Z.of_nat (length (versions st))) by lia.
    rewrite (div_cadence_step (Z.of_nat (length (versions st)))
               (snapshot_interval st)) by lia.
    rewrite <- Hvlast.
    destruct Hform as [Hmod | prior delta Hmod Hrec Hwh Henc
                      | prior ps' Hmod Hrec Hfail]; cbn [kind snapshot_entry
                                                          delta_entry].
    + rewrite !decide_True by done. lia.
    + rewrite decide_False by done. rewrite decide_False by done. lia.
    + exfalso. cbn in Htool.
      destruct Hfail as [[Hoff _] | (_ & Hnone & _)]; [congruence |].
      destruct (Htot prior data) as [d Hd]. congruence.
Qed.

Lemma add_snapshot_run self st next_ver data msg env p w :
  add_snapshot self st next_ver data msg env p w
  = (Ok (set_state self (append_version st
           (snapshot_entry next_ver (_version_file next_ver true) msg env))),
     commit_world (append_version st
           (snapshot_entry next_ver (_version_file next_ver true) msg env))
        (_version_file next_ver true) data [p] w).
Proof. reflexivity. Qed.

Lemma add_cadence self st msg env w data last :
  state self = Some st → doc w = Some data → last_entry st = Ok last →
  snapshot_interval st ≠ 0 →
  (version last + 1 - 1) `mod` snapshot_interval st = 0 →
  add self msg env w
  = add_snapshot self st (version last + 1) data msg env
      (P_added_snapshot (version last + 1)) w.
Proof.
  intros Hst Hdoc Hlast Hk Hmod.
  unfold add, bind, lift, reads, _require_initialized, read_doc.
  rewrite Hst. cbn [from_option]. rewrite Hdoc. cbn [from_option].
  rewrite Hlast. unfold py_mod.
  rewrite decide_False by done. by rewrite decide_True by done.
Qed.

(** C2 — [add] stores the cadence snapshot when [(next - 1) mod
    snapshot_interval = 0] and otherwise goes for a delta: a delta record
    holding what the encoder made of the previous version and the
    document, or, when the encoder fails, the fallback snapshot.  Hence
    in a run where every [add] finds the tool and the encoder never
    fails, a repository of [N] versions with interval [k > 0] has
    [1 + (N - 1) / k] snapshot records. *)
Theorem snapshot_cadence :
  (∀ self st msg env w data last,
      state self = Some st → doc w = Some data →
      last_entry st = Ok last → snapshot_interval st ≠ 0 →
      let next := version last + 1 in
      ((next - 1) `mod` snapshot_interval st = 0 →
       ∃ w', add self msg env w
             = (Ok (set_state self
                      (append_version st
                         (snapshot_entry next (_version_file next true)
                            msg env))), w')
             ∧ blobs w' = <[_version_file next true := data]> (blobs w))
      ∧ ((next - 1) `mod` snapshot_interval st ≠ 0 →
         ∀ self' w',
           add self msg env w = (Ok self', w') →
           ∃ prior,
             _reconstruct_bytes st env (next - 1) w = Ok prior
             ∧ ((∃ delta,
                    which_xdelta3 env = true
                    ∧ xdelta3_e prior data = Some delta
                    ∧ state self'
                      = Some (append_version st
                                (delta_entry next (_version_file next false)
                                   msg env))
                    ∧ blobs w'
                      = <[_version_file next false := delta]> (blobs w))
                ∨ (encode_fails env prior data
                   ∧ state self'
                     = Some (append_version st
                               (snapshot_entry next (_version_file next true)
                                  (fallback_message msg) env))
                   ∧ blobs w'
                     = <[_version_file next true := data]> (blobs w)))))
  ∧ (∀ l w0 st,
        meta w0 = None → Forall tool_found l → encoder_total →
        loaded (run l w0) = Some st → 0 < snapshot_interval st →
        Z.of_nat (count_snapshots (versions st))
        = 1 + (Z.of_nat (length (versions st)) - 1)
                `div` snapshot_interval st).
Proof.
  split.
  - intros self st msg env w data last Hst Hdoc Hlast Hk next. split.
    + intros Hmod. eexists. split.
      * rewrite (add_cadence _ _ _ _ _ _ _ Hst Hdoc Hlast Hk Hmod).
        apply add_snapshot_run.
      * done.
    + intros Hmod self' w' Hadd. subst next.
      rewrite Z.add_simpl_r in Hmod |- *.
      destruct (add_cases self st msg env w Hst)
        as [[e He] | (data' & last' & e & content & ps & Hdoc' & Hlast'
                      & _ & Hform & He)]; [congruence |].
      assert (data' = data) as -> by congruence.
      assert (last' = last) as -> by congruence.
      rewrite He in Hadd. injection Hadd as <- <-.
      destruct Hform as [Hmod' | prior delta _ Hrec Hwh Henc
                        | prior ps' _ Hrec Hfail]; [done | |];
        exists prior; (split; [done |]).
      * left. exists delta. by split_and!.
      * right. split_and!; [| done | done].
        unfold encode_fails. destruct Hfail as [[? _] | (_ & ? & _)]; auto.
  - intros l w0 st Hm Htool Htot Hl Hpos.
    destruct (run_invariant tool_found (λ w _, cadence_inv w))
      with (l := l) (w := w0) (h := @nil bytes) as [[Hshape Hinv] Hp];
      [| done | by left | |].
    + intros. by eapply cadence_step.
    + split; [by left |]. intros st'. by rewrite Hm.
    + apply Hinv; [| done]. by apply persisted_loaded.
Qed.

(** *** Fallback *)

Lemma add_fallback_run self st msg env w data last base bb prior :
  state self = Some st → doc w = Some data → last_entry st = Ok last →
  snapshot_interval st ≠ 0 →
  version last `mod` snapshot_interval st ≠ 0 →
  _nearest_snapshot_before st (version last + 1) = Ok base →
  read_blob (file base.2) w = Ok bb →
  _reconstruct_bytes st env (version last) w = Ok prior →
  encode_fails env prior data →
  let next := version last + 1 in
  let st' := append_version st
               (snapshot_entry next (_version_file next true)
                  (fallback_message msg) env) in
  add self msg env w
  = (Ok (set_state self st'),
     commit_world st' (_version_file next true) data
       ((if which_xdelta3 env then [P_xdelta3_failed] else [])
        ++ [P_added_fallback next]) w).
Proof.
  intros Hst Hdoc Hlast Hk Hmod Hbase Hbb Hrec Hfail next st'.
  unfold add, bind, lift, reads, _require_initialized, read_doc.
  rewrite Hst. cbn [from_option]. rewrite Hdoc. cbn [from_option].
  rewrite Hlast. unfold py_mod. rewrite Z.add_simpl_r.
  rewrite decide_False by done. rewrite decide_False by done.
  rewrite Hbase, Hbb, Hrec. unfold add_fallback, modify.
  destruct (which_xdelta3 env) eqn:Hwh.
  - destruct Hfail as [? | ->]; [congruence |].
    by apply add_snapshot_eq.
  - apply add_snapshot_eq. destruct w; cbn. by rewrite app_nil_r.
Qed.

Lemma foldM_all_ok {A S} (f : S → A → result S) l s :
  (∀ s x, x ∈ l → ∃ s', f s x = Ok s') → ∃ r, foldM f s l = Ok r.
Proof.
  revert s. induction l as [| x l IH]; intros s Hok; [by eexists |].
  destruct (Hok s x) as [s' Hs']; [by left |].
  cbn. rewrite Hs'. cbn. apply IH. intros s0 y Hy. apply Hok. by right.
Qed.

Lemma _reconstruct_bytes_all_snapshots st env w target :
  ledger_ok (versions st) →
  (∀ e, e ∈ versions st → entry_stored w e) →
  Forall (λ e, kind e = "snapshot") (versions st) →
  1 ≤ target ≤ Z.of_nat (length (versions st)) →
  ∃ out, _reconstruct_bytes st env target w = Ok out.
Proof.
  intros Hok Hfiles Hall Hrange. rewrite list.Forall_forall in Hall.
  unfold _reconstruct_bytes.
  destruct (last_entry_ok _ Hok) as (last & -> & _ & Hlast). cbn [rbind].
  case_decide; [lia |].
  destruct (_nearest_snapshot_at_or_before_ok st target Hok)
    as (idx & s & snap & -> & Hs & Hk & Hle); [lia |].
  cbn [rbind snd]. unfold read_blob at 1.
  destruct (Hfiles snap) as [_ [data0 ->]];
    [by eapply list_elem_of_lookup_2 |].
  cbn [from_option rbind].
  apply foldM_all_ok. intros data v [Hv1 Hv2]%elem_of_seqZ.
  pose proof (ledger_ok_lookup _ _ _ Hok Hs) as Hvs.
  destruct (lookup_lt_is_Some_2 (versions st) (Z.to_nat (v - 1)))
    as [e He]; [lia |].
  pose proof (_entry_for_lookup st _ e Hok He) as Hentry.
  replace (Z.of_nat (Z.to_nat (v - 1)) + 1) with v in Hentry by lia.
  unfold replay_step. rewrite Hentry. cbn [rbind].
  assert (e ∈ versions st) as Hin by (by eapply list_elem_of_lookup_2).
  rewrite decide_True by auto.
  destruct (Hfiles e Hin) as [_ [out Hout]].
  exists out. unfold read_blob. by rewrite Hout.
Qed.

Lemma snapshots_step a w w' c :
  encoder_down a →
  snapshots_inv w → repo_step w w' a c → snapshots_inv w'.
Proof.
  intros Hdown [Hshape Hall] Hstep.
  split; [by eapply shape_step |].
  destruct Hstep as [a Hm Hb | ty k msg env data Hm Hdoc Hw'
                    | ty k msg env st data last e content ps Hm Hdoc Hlast
                        Hk Hform Hw'].

  - by rewrite Hm.
  - subst w'. intros st' Heq. cbn in Heq.
    assert (st' = init_state ty k msg env) as ->
      by (apply RepoState_to_json_inj; congruence).
    by apply Forall_singleton.
  - subst w'. intros st' Heq. cbn in Heq.
    assert (st' = append_version st e) as ->
      by (apply RepoState_to_json_inj; congruence).
    cbn. apply Forall_app. split; [by apply Hall |].
    apply Forall_singleton.
    destruct Hform as [Hmod | prior delta Hmod Hrec Hwh Henc
                      | prior ps' Hmod Hrec Hfail]; [done | | done].
    cbn in Hdown. destruct Hdown as [Hoff | Hnone]; [congruence |].
    rewrite Hnone in Henc. done.
Qed.

(** ** Further properties of the metadata store and the scans *)

(** X1 — what [RepoState.save] writes, [RepoState.load] reads back: the
    loaded fields are the saved ones, field by field, and the typed ledger
    is the saved ledger.  [save] touches nothing but the metadata file, and
    a later [save] replaces an earlier one. *)
Theorem save_load_round_trip st st' w :
  (∃ raw, RepoState_load (meta (save st w)) = Ok (Some raw)
          ∧ raw_document_type raw = JStr (document_type st)
          ∧ raw_snapshot_interval raw = JInt (snapshot_interval st)
          ∧ length (raw_versions raw) = length (versions st)
          ∧ RepoState_typed raw = Some st)
  ∧ load_typed (meta (save st w)) = Ok (Some st)
  ∧ loaded (save st w) = Some st
  ∧ save st' (save st w) = save st' w
  ∧ doc (save st w) = doc w ∧ blobs (save st w) = blobs w
  ∧ outs (save st w) = outs w ∧ stdout (save st w) = stdout w.
Proof.
  destruct (mapR_kwargs_asdict (versions st)) as [raws [Hr Ht]].
  split_and!; try done.
  - eexists. split_and!.
    + cbn [save meta RepoState_load RepoState_to_json subscript dict_get
           String.eqb Ascii.eqb Bool.eqb from_option rbind iterate
           dict_get_default default].
      rewrite Hr. reflexivity.
    + done.
    + done.
    + cbn. apply length_mapM in Ht. done.
    + unfold RepoState_typed. cbn. rewrite Ht. by destruct st.
  - apply load_typed_to_json.
  - unfold loaded. cbn [save meta]. by rewrite load_typed_to_json.
Qed.

Lemma read_digits_zfill n z s :
  0 ≤ z → read_digits (zfill n (pretty z) +:+ s) 0 = read_digits s (Z.to_N z).
Proof.
  intros Hz. unfold zfill. rewrite string_app_assoc, read_digits_zeros.
  destruct z as [| p | p]; [done | | lia].
  unfold pretty, pretty_Z, pretty_positive. apply read_digits_pretty_N.
Qed.

Lemma read_digits_suffix (snapshot : bool) acc :
  read_digits (if snapshot then ".snapshot" else ".delta") acc
  = (acc, if snapshot then ".snapshot" else ".delta").
Proof. by destruct snapshot. Qed.

(** X2 — the blob names never collide: [_version_file] gives different
    names to different versions and to the snapshot and the delta of one
    version, for every integer; and the digits of the name of a version
    that is not negative read back as that version. *)
Theorem version_file_names_never_collide v1 v2 s1 s2 :
  (_version_file v1 s1 = _version_file v2 s2 → v1 = v2 ∧ s1 = s2)
  ∧ (0 ≤ v1 →
     ∃ rest, _version_file v1 s1 = String "v" rest
             ∧ read_digits rest 0
               = (Z.to_N v1, if s1 then ".snapshot" else ".delta")).
Proof.
  assert (∀ v s, v < 0 →
             _version_file v s
             = String "v" (String "-" (zfill 3 (pretty (Z.abs v))
                 +:+ (if s then ".snapshot" else ".delta")))) as Hneg.
  { intros v s Hv. unfold _version_file, fmt_04d.
    rewrite decide_True by done.
    by rewrite !string_app_cons, !string_app_nil. }
  assert (∀ v s, 0 ≤ v →
             _version_file v s
             = String "v" (fmt_04d v
                 +:+ (if s then ".snapshot" else ".delta"))) as Hpos.
  { intros v s Hv. unfold _version_file.
    by rewrite !string_app_cons, !string_app_nil. }
  split.
  - intros Heq.
    destruct (decide (v1 < 0)) as [H1 | H1], (decide (v2 < 0)) as [H2 | H2].
    + rewrite (Hneg v1 s1 H1), (Hneg v2 s2 H2) in Heq.
      injection Heq as Heq.
      apply (f_equal (λ s, read_digits s 0)) in Heq.
      rewrite !read_digits_zfill, !read_digits_suffix in Heq by lia.
      injection Heq as Hv Hs. split; [lia | by destruct s1, s2].
    + exfalso. rewrite (Hneg v1 s1 H1), (Hpos v2 s2) in Heq by lia.
      injection Heq as Heq.
      apply (f_equal (λ s, read_digits s 0)) in Heq.
      rewrite read_digits_fmt_04d, read_digits_suffix in Heq by lia.
      cbn in Heq. by destruct s2.
    + exfalso. rewrite (Hpos v1 s1), (Hneg v2 s2 H2) in Heq by lia.
      injection Heq as Heq.
      apply (f_equal (λ s, read_digits s 0)) in Heq.
      rewrite read_digits_fmt_04d, read_digits_suffix in Heq by lia.
      cbn in Heq. by destruct s1.
    + apply version_file_inj; [lia | lia | done].
  - intros Hv. eexists. split; [by apply Hpos |].
    by rewrite read_digits_fmt_04d, read_digits_suffix.
Qed.

(** The backward scan [for i in range(len - 1, -1, -1)]: it returns the
    last position that satisfies the test. *)
Lemma backward_scan {A} (P : A → Prop) `{!∀ x, Decision (P x)}
    (l : list A) (i : nat) (x : A) :
  (∃ j, list_find P (reverse l) = Some (j, x)
        ∧ i = (length l - 1 - j)%nat)
  ↔ l !! i = Some x ∧ P x
    ∧ ∀ (k : nat) y, l !! k = Some y → (i < k)%nat → ¬ P y.
Proof.
  split.
  - intros (j & Hfind & ->).
    apply list_find_Some in Hfind as (Hj & HP & Hmin).
    apply reverse_lookup_Some in Hj as [Hj Hlt].
    replace (length l - S j)%nat with (length l - 1 - j)%nat in Hj by lia.
    split_and!; [done | done |].
    intros k y Hk Hik. pose proof (lookup_lt_Some _ _ _ Hk) as Hkl.
    apply (Hmin (length l - 1 - k)%nat); [| lia].
    apply reverse_lookup_Some. split; [| lia].
    by replace (length l - S (length l - 1 - k))%nat with k by lia.
  - intros (Hi & HP & Hmax). pose proof (lookup_lt_Some _ _ _ Hi) as Hil.
    exists (length l - 1 - i)%nat. split; [| lia].
    apply list_find_Some. split_and!; [| done |].
    + apply reverse_lookup_Some. split; [| lia].
      by replace (length l - S (length l - 1 - i))%nat with i by lia.
    + intros j y Hj Hlt.
      apply reverse_lookup_Some in Hj as [Hj Hjl].
      apply (Hmax _ _ Hj). lia.
Qed.

Lemma backward_scan_none {A} (P : A → Prop) `{!∀ x, Decision (P x)}
    (l : list A) :
  list_find P (reverse l) = None ↔ ∀ y, y ∈ l → ¬ P y.
Proof.
  rewrite list_find_None, list.Forall_forall.
  split; intros Hall y Hy; apply Hall; by apply elem_of_reverse.
Qed.

Lemma _nearest_snapshot_at_or_before_spec st ver i e :
  _nearest_snapshot_at_or_before st ver = Ok (i, e)
  ↔ versions st !! i = Some e
    ∧ (version e ≤ ver ∧ kind e = "snapshot")
    ∧ ∀ (k : nat) y, versions st !! k = Some y → (i < k)%nat →
                     ¬ (version y ≤ ver ∧ kind y = "snapshot").
Proof.
  etransitivity;
    [| apply (backward_scan (λ v, version v ≤ ver ∧ kind v = "snapshot")
                            (versions st) i e)].
  unfold _nearest_snapshot_at_or_before.
  destruct (list_find _ _) as [[j x] |] eqn:Hf.
  - split.
    + intros [= <- <-]. eauto.
    + intros (j' & [= <- <-] & ->). done.
  - split; [done |]. by intros (j' & ? & _).
Qed.

Lemma _nearest_snapshot_before_spec st ver i e :
  _nearest_snapshot_before st ver = Ok (i, e)
  ↔ versions st !! i = Some e
    ∧ (version e < ver ∧ kind e = "snapshot")
    ∧ ∀ (k : nat) y, versions st !! k = Some y → (i < k)%nat →
                     ¬ (version y < ver ∧ kind y = "snapshot").
Proof.
  etransitivity;
    [| apply (backward_scan (λ v, version v < ver ∧ kind v = "snapshot")
                            (versions st) i e)].
  unfold _nearest_snapshot_before.
  destruct (list_find _ _) as [[j x] |] eqn:Hf.
  - split.
    + intros [= <- <-]. eauto.
    + intros (j' & [= <- <-] & ->). done.
  - split; [done |]. by intros (j' & ? & _).
Qed.

(** X3 — the two snapshot scans return the nearest one: the record
    returned by [_nearest_snapshot_at_or_before] (by
    [_nearest_snapshot_before]) is, with its index, the last record of the
    ledger that is a snapshot of a version at most (below) the one asked
    for, and the scan raises its [RuntimeError] exactly when the ledger
    has no such record. *)
Theorem nearest_snapshot_is_the_last st ver :
  (∀ i e,
      _nearest_snapshot_at_or_before st ver = Ok (i, e)
      ↔ versions st !! i = Some e
        ∧ (version e ≤ ver ∧ kind e = "snapshot")
        ∧ ∀ (k : nat) y, versions st !! k = Some y → (i < k)%nat →
                         ¬ (version y ≤ ver ∧ kind y = "snapshot"))
  ∧ (_nearest_snapshot_at_or_before st ver
     = Err (RuntimeError NoSnapshotAtOrBefore)
     ↔ ∀ y, y ∈ versions st → ¬ (version y ≤ ver ∧ kind y = "snapshot"))
  ∧ (∀ i e,
        _nearest_snapshot_before st ver = Ok (i, e)
        ↔ versions st !! i = Some e
          ∧ (version e < ver ∧ kind e = "snapshot")
          ∧ ∀ (k : nat) y, versions st !! k = Some y → (i < k)%nat →
                           ¬ (version y < ver ∧ kind y = "snapshot"))
  ∧ (_nearest_snapshot_before st ver = Err (RuntimeError NoSnapshotBefore)
     ↔ ∀ y, y ∈ versions st → ¬ (version y < ver ∧ kind y = "snapshot")).
Proof.
  split_and!.
  - intros i e. apply _nearest_snapshot_at_or_before_spec.
  - etransitivity;
      [| apply (backward_scan_none
                  (λ v, version v ≤ ver ∧ kind v = "snapshot"))].
    unfold _nearest_snapshot_at_or_before.
    by destruct (list_find _ _) as [[j x] |].
  - intros i e. apply _nearest_snapshot_before_spec.
  - etransitivity;
      [| apply (backward_scan_none
                  (λ v, version v < ver ∧ kind v = "snapshot"))].
    unfold _nearest_snapshot_before.
    by destruct (list_find _ _) as [[j x] |].
Qed.

(** X4 — [_entry_for] returns the first record that carries the version
    asked for and raises [KeyError] exactly when no record carries it; on
    a well-shaped ledger of [N] records that is the record at index
    [ver - 1] for [1 ≤ ver ≤ N], and [KeyError] for any other version. *)
Theorem entry_for_finds_the_version st ver :
  (∀ e,
      _entry_for st ver = Ok e
      ↔ ∃ i : nat,
          versions st !! i = Some e ∧ version e = ver
          ∧ ∀ (j : nat) y, versions st !! j = Some y → (j < i)%nat →
                           version y ≠ ver)
  ∧ (_entry_for st ver = Err (KeyError_entry ver)
     ↔ ∀ y, y ∈ versions st → version y ≠ ver)
  ∧ (ledger_ok (versions st) →
     if decide (1 ≤ ver ≤ Z.of_nat (length (versions st)))
     then from_option IndexError (versions st !! Z.to_nat (ver - 1))
          = _entry_for st ver
          ∧ is_Some (versions st !! Z.to_nat (ver - 1))
     else _entry_for st ver = Err (KeyError_entry ver)).
Proof.
  assert (_entry_for st ver = Err (KeyError_entry ver)
          ↔ ∀ y, y ∈ versions st → version y ≠ ver) as Hnone.
  { unfold _entry_for.
    destruct (list_find _ _) as [[j x] |] eqn:Hf.
    - split; [done |]. intros Hall.
      apply list_find_Some in Hf as (Hj & HP & _).
      destruct (Hall x); [by eapply list_elem_of_lookup_2 | done].
    - split; [| done]. intros _.
      apply list_find_None in Hf. by rewrite list.Forall_forall in Hf. }
  split_and!; [| exact Hnone |].
  - intros e. unfold _entry_for.
    destruct (list_find _ _) as [[j x] |] eqn:Hf.
    + apply list_find_Some in Hf as (Hj & HP & Hmin). split.
      * intros [= <-]. eauto.
      * intros (i & Hi & Hv & Hfirst).
        destruct (Nat.lt_trichotomy i j) as [Hlt | [-> | Hlt]].
        -- by destruct (Hmin _ _ Hi Hlt).
        -- congruence.
        -- by destruct (Hfirst _ _ Hj Hlt).
    + split; [done |]. intros (i & Hi & Hv & _).
      apply list_find_None in Hf. rewrite list.Forall_forall in Hf.
      destruct (Hf e); [by eapply list_elem_of_lookup_2 | done].
  - intros Hok. case_decide as Hr.
    + destruct (lookup_lt_is_Some_2 (versions st) (Z.to_nat (ver - 1)))
        as [e He]; [lia |].
      pose proof (_entry_for_lookup st _ e Hok He) as Hentry.
      replace (Z.of_nat (Z.to_nat (ver - 1)) + 1) with ver in Hentry by lia.
      rewrite He, Hentry. eauto.
    + apply Hnone. intros y [i Hi]%list_elem_of_lookup Hv.
      pose proof (ledger_ok_lookup _ _ _ Hok Hi) as Hvi.
      pose proof (lookup_lt_Some _ _ _ Hi). lia.
Qed.
(** ** Further properties of the engine *)

Lemma list_find_related {A} (P Q : A → Prop)
    `{!∀ x, Decision (P x)} `{!∀ x, Decision (Q x)}
    (R : A → A → Prop) l1 l2 :
  (∀ x y, R x y → P x ↔ Q y) → Forall2 R l1 l2 →
  option_Forall2 (λ a c, a.1 = c.1 ∧ R a.2 c.2)
                 (list_find P l1) (list_find Q l2).
Proof.
  intros HPQ Hl. induction Hl as [| x y l1 l2 Hxy _ IH]; cbn.
  - constructor.
  - pose proof (HPQ _ _ Hxy) as Hiff.
    destruct (decide (P x)), (decide (Q y)); try tauto.
    + by constructor.
    + destruct IH as [[i a] [j c] [Hij HR] |]; cbn in *; constructor.
      cbn. split; [congruence | done].
Qed.

Lemma _entry_for_same_storage st1 st2 v :
  Forall2 same_storage (versions st1) (versions st2) →
  (∃ e1 e2, _entry_for st1 v = Ok e1 ∧ _entry_for st2 v = Ok e2
            ∧ same_storage e1 e2)
  ∨ (_entry_for st1 v = Err (KeyError_entry v)
     ∧ _entry_for st2 v = Err (KeyError_entry v)).
Proof.
  intros Hl. unfold _entry_for.
  assert (∀ x y, same_storage x y → version x = v ↔ version y = v) as Hiff
    by (by intros x y [-> _]).
  destruct (list_find_related (λ e, version e = v) (λ e, version e = v)
              same_storage _ _ Hiff Hl)
    as [[i a] [j c] [_ HR] |]; [left; eauto | by right].
Qed.

Lemma replay_step_same_storage st1 st2 env w data v :
  Forall2 same_storage (versions st1) (versions st2) →
  replay_step st1 env w data v = replay_step st2 env w data v.
Proof.
  intros Hl. unfold replay_step.
  destruct (_entry_for_same_storage st1 st2 v Hl)
    as [(e1 & e2 & -> & -> & _ & Hk & Hf) | [-> ->]]; [| done].
  cbn [rbind]. by rewrite Hk, Hf.
Qed.

Lemma foldM_ext {A S} (f g : S → A → result S) s l :
  (∀ s x, f s x = g s x) → foldM f s l = foldM g s l.
Proof.
  intros Hfg. revert s. induction l as [| x l IH]; intros s; cbn; [done |].
  rewrite Hfg. destruct (g s x); cbn; auto.
Qed.

Lemma nearest_snapshot_same_storage (P : Z → Prop) `{!∀ z, Decision (P z)}
    vs1 vs2 :
  Forall2 same_storage vs1 vs2 →
  option_Forall2 (λ a c, a.1 = c.1 ∧ same_storage a.2 c.2)
    (list_find (λ v, P (version v) ∧ kind v = "snapshot") (reverse vs1))
    (list_find (λ v, P (version v) ∧ kind v = "snapshot") (reverse vs2)).
Proof.
  intros Hl. apply list_find_related; [| by apply Forall2_reverse].
  intros x y (Hv & Hk & _). by rewrite Hv, Hk.
Qed.

(** X5 — reconstruction reads the version, the kind and the file of the
    records and nothing else: two ledgers whose records agree on these
    three fields reconstruct every version alike, values and exceptions,
    whatever their messages, dates, [base_version]s, document types and
    snapshot intervals. *)
Theorem reconstruction_reads_storage_fields_only st1 st2 env ver w :
  Forall2 same_storage (versions st1) (versions st2) →
  _reconstruct_bytes st1 env ver w = _reconstruct_bytes st2 env ver w.
Proof.
  intros Hl. unfold _reconstruct_bytes, last_entry.
  destruct (Forall2_last _ _ _ Hl) as [l1 l2 (Hv & _) |]; [| done].
  cbn [from_option rbind]. rewrite Hv.
  case_decide; [done |].
  unfold _nearest_snapshot_at_or_before.
  rewrite (Forall2_length Hl).
  destruct (nearest_snapshot_same_storage (λ z, z ≤ ver) _ _ Hl)
    as [[i a] [j c] [Hij (Hav & _ & Haf)] |]; [| done].
  cbn in Hij, Hav, Haf. subst j. cbn [rbind fst snd].
  rewrite Hav, Haf. destruct (read_blob (file c) w); [| done].
  cbn [rbind]. apply foldM_ext. intros s x.
  by apply replay_step_same_storage.
Qed.

(** *** What holds whatever the patch tool does *)

Lemma store_inv_step a w w' c h :
  store_inv w h → repo_step w w' a c → store_inv w' (h ++ c).
Proof.
  intros (Hshape & Hnil & Hinv) Hstep.
  pose proof (shape_step _ _ _ _ Hshape Hstep) as Hshape'.
  split; [done |].
  destruct Hstep as [a Hm Hb | ty k msg env data Hm Hdoc ->
                    | ty k msg env st data last e content ps Hm Hdoc Hlast
                        Hk Hform ->].
  - rewrite app_nil_r, Hm. split; [done |].
    intros st Hst. destruct (Hinv st Hst) as [[Hlen Hs] Hc].
    split; [split; [done |] | done].
    intros i e cur. rewrite Hb. apply Hs.
  - rewrite (Hnil Hm). split; [done |].
    intros st Hst.
    assert (st = init_state ty k msg env) as ->
      by (apply RepoState_to_json_inj; cbn in Hst; congruence).
    split; [split; [done |] |].
    + intros [| i] e cur; cbn; [| done]. intros [= <-] [= <-] _.
      apply lookup_insert_eq.
    + intros [| i] e; cbn; [| done]. by intros [= <-].
  - split; [done |]. intros st' Hst'.
    assert (st' = append_version st e) as ->
      by (apply RepoState_to_json_inj; cbn in Hst'; congruence).
    destruct (Hinv st Hm) as [[Hlen Hs] Hc].
    destruct (shape_inv_saved _ _ Hshape Hm) as [Hok Hfiles].
    destruct (add_form_version _ _ _ _ _ _ _ _ _ Hform)
      as (Hver & Hbase & Hname).
    destruct (last_entry_ok _ Hok) as (last' & Hl' & _ & Hvlast).
    assert (last' = last) as -> by congruence.
    split; [split; [by cbn; rewrite !length_app, Hlen |] |].
    + intros i e' cur Hi Hcur Hsnap. cbn in Hi.
      apply lookup_app_Some in Hi as [Hi | [Hge Hi]].
      * pose proof (lookup_lt_Some _ _ _ Hi) as Hlt.
        rewrite lookup_app_l in Hcur by lia.
        assert (file e ≠ file e') as Hne.
        { apply (entry_file_fresh w st i e' e); [done | done | done | lia |].
          destruct Hname as [[_ ?] | [_ ?]]; eauto. }
        cbn. rewrite lookup_insert_ne by done. by eapply Hs.
      * apply list_lookup_singleton_Some in Hi as [Hi ->].
        assert (i = length h) as -> by lia.
        rewrite lookup_app_r, Nat.sub_diag in Hcur by lia.
        injection Hcur as <-. cbn. rewrite lookup_insert_eq.
        by destruct Hform.
    + intros i e' Hi Hmod. cbn in Hi, Hmod.
      apply lookup_app_Some in Hi as [Hi | [Hge Hi]]; [by eapply Hc |].
      apply list_lookup_singleton_Some in Hi as [Hi ->].
      assert (Z.of_nat i = version last) as Hiv by lia.
      rewrite Hiv in Hmod. by destruct Hform.
Qed.

Lemma store_inv_run l w :
  meta w = None →
  store_inv (run l w) (history l w) ∧ persisted (run l w).
Proof.
  intros Hm.
  apply (run_invariant (λ _, True) store_inv) with (h := []).
  - intros. by eapply store_inv_step.
  - by apply Forall_true.
  - by left.
  - split_and!; [by left | done |]. intros st. by rewrite Hm.
Qed.

Lemma store_inv_loaded l w0 st :
  meta w0 = None → loaded (run l w0) = Some st →
  meta (run l w0) = Some (Json (RepoState_to_json st))
  ∧ ledger_ok (versions st)
  ∧ (∀ e, e ∈ versions st → entry_stored (run l w0) e)
  ∧ snapshots_hold (run l w0) st (history l w0)
  ∧ cadence_positions st.
Proof.
  intros Hm0 Hl.
  destruct (store_inv_run l w0 Hm0) as [(Hshape & _ & Hinv) Hp].
  pose proof (persisted_loaded _ _ Hp Hl) as Hm.
  destruct (shape_inv_saved _ _ Hshape Hm) as [Hok Hfiles].
  destruct (Hinv st Hm). done.
Qed.

(** On a well-shaped ledger the version of a snapshot record is read
    from its blob: the scan stops at that record and the replay loop is
    empty. *)
Lemma _reconstruct_bytes_snapshot st env w (i : nat) e :
  ledger_ok (versions st) → versions st !! i = Some e →
  kind e = "snapshot" →
  _reconstruct_bytes st env (Z.of_nat i + 1) w = read_blob (file e) w.
Proof.
  intros Hok Hi Hsnap.
  pose proof (ledger_ok_lookup _ _ _ Hok Hi) as Hv.
  pose proof (lookup_lt_Some _ _ _ Hi) as Hlt.
  destruct (last_entry_ok _ Hok) as (last & Hlast & _ & Hvlast).
  unfold _reconstruct_bytes. rewrite Hlast. cbn [rbind].
  rewrite decide_False by lia.
  assert (_nearest_snapshot_at_or_before st (Z.of_nat i + 1) = Ok (i, e))
    as ->.
  { apply _nearest_snapshot_at_or_before_spec.
    split_and!; [done | lia | done |].
    intros k y Hk Hik [Hle _].
    pose proof (ledger_ok_lookup _ _ _ Hok Hk). lia. }
  cbn [rbind snd]. rewrite Hv, Z.sub_diag. cbn [seqZ].
  by destruct (read_blob (file e) w).
Qed.

(** X6 — a version that is stored as a snapshot needs no patch tool:
    after any run on a fresh repository, whatever tool was or was not at
    hand during the run, and whatever it computed, reconstructing such a
    version returns the bytes that were committed for it, in every
    environment. *)
Theorem snapshot_versions_need_no_tool l w0 st (i : nat) e data env :
  meta w0 = None →
  loaded (run l w0) = Some st →
  versions st !! i = Some e →
  kind e = "snapshot" →
  history l w0 !! i = Some data →
  _reconstruct_bytes st env (Z.of_nat i + 1) (run l w0) = Ok data.
Proof.
  intros Hm0 Hl Hi Hsnap Hdata.
  destruct (store_inv_loaded l w0 st Hm0 Hl)
    as (_ & Hok & _ & [_ Hs] & _).
  rewrite (_reconstruct_bytes_snapshot st env _ i e Hok Hi Hsnap).
  unfold read_blob. by rewrite (Hs i e data Hi Hdata Hsnap).
Qed.

Lemma cadence_multiple (k q : Z) : (Z.abs k * q) `mod` k = 0.
Proof.
  destruct (Z.abs_eq_or_opp k) as [-> | ->].
  - rewrite Z.mul_comm. apply Z_mod_mult.
  - replace (- k * q) with (- q * k) by lia. apply Z_mod_mult.
Qed.

(** X7 — the replay chain is shorter than the snapshot interval: after
    any run on a fresh repository, also one in which the patch tool
    failed or was missing, the scan for a version [v] of the ledger stops
    at a snapshot of a version above [v - |k|], [k ≠ 0] being the stored
    interval, so the replay loop of [_reconstruct_bytes] visits fewer
    than [|k|] records. *)
Theorem replay_chain_is_shorter_than_interval l w0 st v :
  meta w0 = None →
  loaded (run l w0) = Some st →
  snapshot_interval st ≠ 0 →
  1 ≤ v ≤ Z.of_nat (length (versions st)) →
  ∃ (i : nat) e,
    _nearest_snapshot_at_or_before st v = Ok (i, e)
    ∧ versions st !! i = Some e
    ∧ kind e = "snapshot"
    ∧ version e = Z.of_nat i + 1
    ∧ v - Z.abs (snapshot_interval st) < version e ≤ v
    ∧ Z.of_nat (length (seqZ (version e + 1) (v - version e)))
      < Z.abs (snapshot_interval st).
Proof.
  intros Hm0 Hl Hk Hv.
  destruct (store_inv_loaded l w0 st Hm0 Hl)
    as (_ & Hok & _ & _ & Hcad).
  set (k := Z.abs (snapshot_interval st)).
  assert (0 < k) as Hkpos by (unfold k; lia).
  set (q := (v - 1) `div` k).
  assert (0 ≤ k * q ≤ v - 1 ∧ v - 1 < k * q + k) as [Hlo Hhi].
  { pose proof (Z.div_mod (v - 1) k) as Hdm.
    pose proof (Z.mod_pos_bound (v - 1) k Hkpos) as Hmb.
    assert (0 ≤ q) by (apply Z.div_pos; lia).
    unfold q in *. nia. }
  destruct (lookup_lt_is_Some_2 (versions st) (Z.to_nat (k * q)))
    as [e0 He0]; [lia |].
  pose proof (ledger_ok_lookup _ _ _ Hok He0) as Hv0.
  assert (kind e0 = "snapshot") as Hs0.
  { apply (Hcad _ _ He0). rewrite Z2Nat.id by lia. apply cadence_multiple. }
  destruct (_nearest_snapshot_at_or_before st v) as [[i e] | err] eqn:Hn.
  - apply _nearest_snapshot_at_or_before_spec in Hn
      as (Hi & [Hle Hsnap] & Hmax).
    pose proof (ledger_ok_lookup _ _ _ Hok Hi) as Hvi.
    assert (Z.to_nat (k * q) ≤ i)%nat as Hge.
    { destruct (decide (Z.to_nat (k * q) ≤ i)%nat) as [| Hgt]; [done |].
      destruct (Hmax _ _ He0); [lia |]. split; [lia | done]. }
    exists i, e. split_and!; [done | done | done | done | lia | lia |].
    rewrite length_seqZ. lia.
  - destruct (_nearest_snapshot_at_or_before_ok st v Hok)
      as (idx & s & e & Hn' & _); [lia | congruence].
Qed.

(** *** Commands that raise *)

Lemma cmd_init_general ty k msg env w :
  cmd_init ty k msg env w
  = match load_typed (meta w) with
    | Ok (Some st) =>
        (Ok {| doc_type := ty; self_snapshot_interval := k;
               state := Some st |}, print P_already_initialized w)
    | Ok None =>
        match doc w with
        | Some data =>
            (Ok (set_state {| doc_type := ty; self_snapshot_interval := k;
                              state := None |} (init_state ty k msg env)),
             commit_world (init_state ty k msg env) (_version_file 1 true)
               data [P_initialized] w)
        | None => (Err (FileNotFoundError "<document>"), w)
        end
    | Err e => (Err e, w)
    end.
Proof.
  unfold cmd_init, bind, DVCS_new, reads.
  destruct (load_typed (meta w)) as [[st |] | e]; cbn [rbind]; [done | | done].
  unfold init, bind, reads, read_doc. cbn [state].
  destruct (doc w) as [data |]; cbn [from_option]; [| done].
  by destruct w.
Qed.

Lemma cmd_add_general ty k msg env w :
  cmd_add ty k msg env w
  = match load_typed (meta w) with
    | Ok st =>
        add {| doc_type := ty; self_snapshot_interval := k; state := st |}
            msg env w
    | Err e => (Err e, w)
    end.
Proof.
  unfold cmd_add, bind, DVCS_new, reads.
  by destruct (load_typed (meta w)) as [st | e].
Qed.

Lemma add_not_initialized self msg env w :
  state self = None →
  add self msg env w = (Err (RuntimeError NotInitialized), w).
Proof.
  intros Hst. unfold add, bind, lift, reads, _require_initialized.
  by rewrite Hst.
Qed.

Lemma load_typed_raw_error m e :
  RepoState_load m = Err e → load_typed m = Err e.
Proof. intros Hl. unfold load_typed. by rewrite Hl. Qed.

Lemma load_typed_absent m : load_typed m = Ok None ↔ m = None.
Proof.
  split; [| by intros ->].
  destruct m as [[| j] |]; [done | | done].
  unfold load_typed. intros Hl.
  destruct (RepoState_load (Some (Json j))) as [[raw |] | e] eqn:Hr;
    cbn in Hl.
  - by destruct (RepoState_typed raw).
  - exfalso. revert Hr. cbn [RepoState_load].
    destruct (subscript j "versions") as [vs |]; cbn [rbind]; [| done].
    destruct (iterate vs) as [items |]; cbn [rbind]; [| done].
    destruct (mapR VersionEntry_kwargs items) as [raws |]; cbn [rbind];
      [| done].
    destruct (subscript j "document_type"); cbn [rbind]; [| done].
    by destruct (dict_get_default j "snapshot_interval" (JInt 5)).
  - done.
Qed.


(** X9 — opening the repository: when [RepoState.load] raises, on a
    metadata file that is not JSON or lacks a key, every command raises
    the same exception, [init] included, which so never replaces a
    damaged repository; and where there is no metadata file [add] raises
    "Repository not initialized. Run `init` first.", [get] and [revert]
    raise "Repository not initialized for this file.", and [init] raises
    [FileNotFoundError] when the document is missing too. *)
Theorem opening_the_repository w :
  (∀ e, RepoState_load (meta w) = Err e →
        (∀ ty k msg env, cmd_init ty k msg env w = (Err e, w))
        ∧ (∀ ty k msg env, cmd_add ty k msg env w = (Err e, w))
        ∧ (∀ ver output env, cmd_get ver output env w = (Err e, w))
        ∧ (∀ ver env, cmd_revert ver env w = (Err e, w)))
  ∧ (meta w = Some NotJson → RepoState_load (meta w) = Err JSONDecodeError)
  ∧ (meta w = None →
     (∀ ty k msg env,
         cmd_add ty k msg env w = (Err (RuntimeError NotInitialized), w))
     ∧ (∀ ver output env,
           cmd_get ver output env w
           = (Err (RuntimeError NotInitializedForFile), w))
     ∧ (∀ ver env,
           cmd_revert ver env w
           = (Err (RuntimeError NotInitializedForFile), w))
     ∧ (∀ ty k msg env,
           doc w = None →
           cmd_init ty k msg env w
           = (Err (FileNotFoundError "<document>"), w))).
Proof.
  split_and!.
  - intros e He%load_typed_raw_error. split_and!; intros.
    + by rewrite cmd_init_general, He.
    + by rewrite cmd_add_general, He.
    + by rewrite cmd_get_general, He.
    + by rewrite cmd_revert_general, He.
  - by intros ->.
  - intros Hm. split_and!; intros.
    + by apply cmd_add_absent.
    + by apply cmd_get_absent.
    + by apply cmd_revert_absent.
    + rewrite cmd_init_absent by done. by destruct (doc w).
Qed.

(** *** Commands that return *)

Lemma add_delta_run self st msg env w data last base bb prior delta :
  state self = Some st → doc w = Some data → last_entry st = Ok last →
  snapshot_interval st ≠ 0 →
  version last `mod` snapshot_interval st ≠ 0 →
  _nearest_snapshot_before st (version last + 1) = Ok base →
  read_blob (file base.2) w = Ok bb →
  _reconstruct_bytes st env (version last) w = Ok prior →
  which_xdelta3 env = true → xdelta3_e prior data = Some delta →
  let next := version last + 1 in
  let st' := append_version st
               (delta_entry next (_version_file next false) msg env) in
  add self msg env w
  = (Ok (set_state self st'),
     commit_world st' (_version_file next false) delta
       [P_added_delta next] w).
Proof.
  intros Hst Hdoc Hlast Hk Hmod Hbase Hbb Hrec Hwh Henc next st'.
  unfold add, bind, lift, reads, _require_initialized, read_doc.
  rewrite Hst. cbn [from_option]. rewrite Hdoc. cbn [from_option].
  rewrite Hlast. unfold py_mod. rewrite Z.add_simpl_r.
  rewrite decide_False by done. rewrite decide_False by done.
  rewrite Hbase, Hbb, Hrec, Hwh, Henc. by destruct w.
Qed.

(** With the tool at hand, [add] returns on a repository whose blobs
    hold the committed bytes. *)
Lemma add_progress w h st data ty k msg env :
  patch_round_trip →
  repo_inv w h → meta w = Some (Json (RepoState_to_json st)) →
  doc w = Some data → snapshot_interval st ≠ 0 →
  which_xdelta3 env = true →
  ∃ self' e,
    (cmd_add ty k msg env w).1 = Ok self'
    ∧ state self' = Some (append_version st e)
    ∧ version e = Z.of_nat (length (versions st)) + 1
    ∧ meta (exec (Add ty k msg env) w)
      = Some (Json (RepoState_to_json (append_version st e)))
    ∧ committed (Add ty k msg env) w = [data]
    ∧ repo_inv (exec (Add ty k msg env) w) (h ++ [data]).
Proof.
  intros Hlaw Hinv Hm Hdoc Hk Hwh.
  pose proof (repo_inv_saved _ _ _ Hinv Hm) as Hh.
  pose proof Hh as (Hok & Hfiles & Hlen & _).
  destruct (last_entry_ok _ Hok) as (last & Hlast & _ & Hvlast).
  assert (length (versions st) ≠ 0)%nat as Hne.
  { destruct Hok as [Hne _]. by destruct (versions st). }
  set (self := {| doc_type := ty; self_snapshot_interval := k;
                  state := Some st |}).
  assert (∃ e content ps,
             version e = version last + 1
             ∧ add self msg env w
               = (Ok (set_state self (append_version st e)),
                  commit_world (append_version st e) (file e) content ps w))
    as (e & content & ps & Hve & Hadd).
  { destruct (decide (version last `mod` snapshot_interval st = 0))
      as [Hmod | Hmod].
    - exists (snapshot_entry (version last + 1)
                (_version_file (version last + 1) true) msg env),
        data, [P_added_snapshot (version last + 1)].
      split; [done |].
      rewrite (add_cadence self st msg env w data last eq_refl Hdoc Hlast Hk);
        [apply add_snapshot_run | by rewrite Z.add_simpl_r].
    - destruct (_nearest_snapshot_before_ok st (version last + 1) Hok)
        as (idx & base & Hbase & Hin); [lia |].
      destruct (Hfiles base Hin) as [_ [bb Hbb]].
      assert (read_blob (file (idx, base).2) w = Ok bb) as Hread
        by (unfold read_blob; cbn; by rewrite Hbb).
      destruct (lookup_lt_is_Some_2 h (length h - 1)) as [prior Hprior];
        [lia |].
      pose proof (_reconstruct_bytes_correct _ _ _ env _ _ Hh Hprior Hwh)
        as Hrec.
      replace (Z.of_nat (length h - 1) + 1) with (version last) in Hrec
        by lia.
      destruct (xdelta3_e prior data) as [delta |] eqn:Henc.
      + exists (delta_entry (version last + 1)
                  (_version_file (version last + 1) false) msg env),
          delta, [P_added_delta (version last + 1)].
        split; [done |].
        by apply (add_delta_run self st msg env w data last (idx, base) bb
                    prior delta).
      + exists (snapshot_entry (version last + 1)
                  (_version_file (version last + 1) true)
                  (fallback_message msg) env),
          data, ((if which_xdelta3 env then [P_xdelta3_failed] else [])
                 ++ [P_added_fallback (version last + 1)]).
        split; [done |].
        apply (add_fallback_run self st msg env w data last (idx, base) bb
                 prior); try done. by right. }
  pose proof (perform_step (Add ty k msg env) w
                (shape_persisted _ (repo_inv_shape _ _ Hinv))) as [Hstep _].
  assert (committed (Add ty k msg env) w = [data]) as Hc.
  { unfold committed. cbn [perform]. unfold bind.
    rewrite (cmd_add_saved _ _ _ _ _ _ Hm). fold self.
    by rewrite Hadd, Hdoc. }
  rewrite Hc in Hstep.
  exists (set_state self (append_version st e)), e.
  split_and!; [| done | lia | | done | by eapply repo_inv_step].
  - rewrite (cmd_add_saved _ _ _ _ _ _ Hm). fold self. by rewrite Hadd.
  - unfold exec. cbn [perform]. unfold bind.
    rewrite (cmd_add_saved _ _ _ _ _ _ Hm). fold self. by rewrite Hadd.
Qed.

Lemma run_from_fresh l w0 st :
  patch_round_trip → meta w0 = None → loaded (run l w0) = Some st →
  meta (run l w0) = Some (Json (RepoState_to_json st))
  ∧ repo_inv (run l w0) (history l w0)
  ∧ holds (run l w0) st (history l w0).
Proof.
  intros Hlaw Hm0 Hl.
  pose proof (repo_inv_run l w0 Hlaw Hm0) as Hinv.
  assert (shape_inv (run l w0)) as Hshape by (apply shape_run; by left).
  pose proof (persisted_loaded _ _ (shape_persisted _ Hshape) Hl) as Hm.
  split_and!; [done | done | by eapply repo_inv_saved].
Qed.


Lemma committed_version_bytes l w0 (i : nat) data env :
  patch_round_trip → meta w0 = None →
  history l w0 !! i = Some data → which_xdelta3 env = true →
  ∃ st, meta (run l w0) = Some (Json (RepoState_to_json st))
        ∧ _reconstruct_bytes st env (Z.of_nat i + 1) (run l w0) = Ok data.
Proof.
  intros Hlaw Hm0 Hi Hwh.
  pose proof (repo_inv_run l w0 Hlaw Hm0) as Hinv.
  unfold repo_inv in Hinv.
  destruct (meta (run l w0)) as [m |] eqn:Hm.
  - destruct Hinv as (st & -> & Hh). exists st. split; [done |].
    by eapply _reconstruct_bytes_correct.
  - by rewrite Hinv in Hi.
Qed.



(** *** What later commands leave alone *)

Lemma blobs_step a w w' c e :
  shape_inv w → repo_step w w' a c → e ∈ ledger w →
  blobs w' !! file e = blobs w !! file e.
Proof.
  intros Hshape Hstep He.
  destruct Hstep as [a Hm Hb | ty k msg env data Hm Hdoc ->
                    | ty k msg env st data last e' content ps Hm Hdoc Hlast
                        Hk Hform ->].
  - by rewrite Hb.
  - unfold ledger in He. rewrite (loaded_absent _ Hm) in He.
    by apply elem_of_nil in He.
  - unfold ledger in He. rewrite (loaded_saved _ _ Hm) in He.
    destruct (shape_inv_saved _ _ Hshape Hm) as [Hok Hfiles].
    destruct (add_form_version _ _ _ _ _ _ _ _ _ Hform)
      as (Hver & _ & Hname).
    destruct (last_entry_ok _ Hok) as (last' & Hl' & _ & Hvlast).
    assert (last' = last) as -> by congruence.
    apply list_elem_of_lookup in He as [i Hi].
    cbn. apply lookup_insert_ne.
    apply (entry_file_fresh w st i e e'); [done | done | done | lia |].
    destruct Hname as [[_ ?] | [_ ?]]; eauto.
Qed.

Lemma blobs_run l w e :
  shape_inv w → e ∈ ledger w →
  e ∈ ledger (run l w) ∧ blobs (run l w) !! file e = blobs w !! file e.
Proof.
  revert w. induction l as [| a l IH]; intros w Hshape He; [done |].
  destruct (perform_step a w (shape_persisted _ Hshape)) as [Hstep _].
  pose proof (shape_step _ _ _ _ Hshape Hstep) as Hshape'.
  assert (e ∈ ledger (exec a w)) as He'.
  { eapply elem_of_prefix; [exact He |].
    by eapply ledger_step; [apply shape_persisted |]. }
  destruct (IH _ Hshape' He') as [Hin Hb]. cbn [run].
  split; [done |]. rewrite Hb. by eapply blobs_step.
Qed.

(** X13 — stored blobs are never rewritten: the file named by a record
    of the ledger is there, and whatever is done next, [init], [add],
    [get], [revert] or edits, failing or not, the record stays in the
    ledger and its file keeps its content. *)
Theorem stored_blobs_are_never_rewritten l l' w0 e :
  meta w0 = None →
  e ∈ ledger (run l w0) →
  is_Some (blobs (run l w0) !! file e)
  ∧ e ∈ ledger (run (l ++ l') w0)
  ∧ blobs (run (l ++ l') w0) !! file e = blobs (run l w0) !! file e.
Proof.
  intros Hm0 He.
  assert (shape_inv (run l w0)) as Hshape by (apply shape_run; by left).
  rewrite run_app. split; [| by apply blobs_run].
  unfold ledger in He.
  destruct (loaded (run l w0)) as [st |] eqn:Hl;
    [| by apply elem_of_nil in He].
  pose proof (persisted_loaded _ _ (shape_persisted _ Hshape) Hl) as Hm.
  destruct (shape_inv_saved _ _ Hshape Hm) as [_ Hfiles].
  by destruct (Hfiles e He).
Qed.

Lemma settings_step a w w' c st :
  loaded w = Some st → repo_step w w' a c →
  ∃ st', loaded w' = Some st'
         ∧ document_type st' = document_type st
         ∧ snapshot_interval st' = snapshot_interval st.
Proof.
  intros Hl Hstep.
  destruct Hstep as [a Hm Hb | ty k msg env data Hm Hdoc ->
                    | ty k msg env st0 data last e' content ps Hm Hdoc Hlast
                        Hk Hform ->].
  - exists st. unfold loaded in *. by rewrite Hm.
  - by rewrite (loaded_absent _ Hm) in Hl.
  - rewrite (loaded_saved _ _ Hm) in Hl. injection Hl as ->.
    exists (append_version st e'). split; [by apply loaded_saved | done].
Qed.

Lemma settings_run l w st :
  persisted w → loaded w = Some st →
  ∃ st', loaded (run l w) = Some st'
         ∧ document_type st' = document_type st
         ∧ snapshot_interval st' = snapshot_interval st.
Proof.
  revert w st. induction l as [| a l IH]; intros w st Hp Hl; [by eauto |].
  destruct (perform_step a w Hp) as [Hstep Hp'].
  destruct (settings_step _ _ _ _ _ Hl Hstep) as (st1 & Hl1 & Ht1 & Hk1).
  destruct (IH _ _ Hp' Hl1) as (st' & Hl' & Ht' & Hk').
  exists st'. cbn [run]. split_and!; [done | congruence | congruence].
Qed.

(** X14 — the document type and the snapshot interval are fixed by the
    [init] that creates the repository: after it, whatever commands
    follow, an [init] or an [add] given another type or interval among
    them, the repository is still there, its metadata carry the type and
    the interval of that first [init], and its first record is the
    snapshot that [init] made. *)
Theorem settings_are_fixed_by_the_first_init ty k msg env l w0 data :
  meta w0 = None →
  doc w0 = Some data →
  ∃ st, loaded (run (Init ty k msg env :: l) w0) = Some st
        ∧ document_type st = ty
        ∧ snapshot_interval st = k
        ∧ head (versions st)
          = Some (snapshot_entry 1 (_version_file 1 true) msg env).
Proof.
  intros Hm0 Hdoc. cbn [run].
  set (w1 := exec (Init ty k msg env) w0).
  assert (meta w1 = Some (Json (RepoState_to_json (init_state ty k msg env))))
    as Hm1.
  { unfold w1, exec. cbn [perform]. unfold bind.
    rewrite (cmd_init_absent _ _ _ _ _ Hm0), Hdoc. done. }
  assert (persisted w1) as Hp1 by (right; eauto).
  destruct (settings_run l w1 _ Hp1 (loaded_saved _ _ Hm1))
    as (st & Hl & Ht & Hk).
  exists st. split_and!; [done | done | done |].
  pose proof (ledger_run l w1 Hp1) as [rest Hpre].
  unfold ledger in Hpre. rewrite Hl, (loaded_saved _ _ Hm1) in Hpre.
  by rewrite Hpre.
Qed.

(** *** One object used for several calls *)

(** X15 — an object that is kept and used again, as the window does
    with its [self.dvcs], stays in step with the disk: when its [state]
    is what the metadata file holds, a call of [init] or [add] on it
    that returns leaves it so again, [get] and [revert] and an edit of
    the document do not disturb this, it knows of no repository exactly
    when there is no metadata file, and [add] on it does to the
    directory what [add] on a freshly opened object does. *)
Theorem kept_object_stays_in_step self msg env w :
  coherent self w →
  (state self = None ↔ meta w = None)
  ∧ (∀ self' w', init self msg env w = (Ok self', w') → coherent self' w')
  ∧ (∀ self' w', add self msg env w = (Ok self', w') → coherent self' w')
  ∧ (∀ ver output, coherent self (get self ver output env w).2)
  ∧ (∀ ver, coherent self (revert self ver env w).2)
  ∧ (∀ data, coherent self (write_doc data w))
  ∧ (∀ ty k,
        (add self msg env w).2 = (cmd_add ty k msg env w).2
        ∧ outcome_state (add self msg env w).1
          = outcome_state (cmd_add ty k msg env w).1).
Proof.
  intros Hco. split_and!.
  - unfold coherent in Hco. rewrite <- load_typed_absent, Hco.
    split; [by intros -> | by intros [= ->]].
  - intros self' w'. unfold init, bind, modify, reads, ret, read_doc.
    destruct (state self) as [st |] eqn:Hst.
    + intros [= <- <-]. exact Hco.
    + destruct (doc w); cbn [from_option]; [| done].
      intros [= <- <-]. unfold coherent. exact (load_typed_to_json _).
  - intros self' w' Hadd.
    destruct (state self) as [st |] eqn:Hst.
    + destruct (add_cases self st msg env w Hst)
        as [[e He] | (data & last & e & content & ps & _ & _ & _ & _ & He)];
        [congruence |].
      rewrite He in Hadd. injection Hadd as <- <-.
      unfold coherent. exact (load_typed_to_json _).
    + by rewrite (add_not_initialized _ _ _ _ Hst) in Hadd.
  - intros ver output.
    destruct (state self) as [st |] eqn:Hst.
    + pose proof (get_cases self st ver output env w Hst) as Hget.
      destruct (_reconstruct_bytes st env ver w); by rewrite Hget.
    + unfold get, bind, lift, reads, _require_initialized. by rewrite Hst.
  - intros ver.
    destruct (state self) as [st |] eqn:Hst.
    + pose proof (revert_cases self st ver env w Hst) as Hrev.
      destruct (_reconstruct_bytes st env ver w); by rewrite Hrev.
    + unfold revert, bind, lift, reads, _require_initialized.
      by rewrite Hst.
  - done.
  - intros ty k. rewrite cmd_add_general. unfold coherent in Hco.
    rewrite Hco. by apply add_self_irrelevant.
Qed.

(** *** Intervals at the edge *)

Lemma zero_interval_step a w w' c :
  (∀ st, meta w = Some (Json (RepoState_to_json st)) →
         snapshot_interval st = 0 → length (versions st) = 1%nat) →
  repo_step w w' a c →
  ∀ st, meta w' = Some (Json (RepoState_to_json st)) →
        snapshot_interval st = 0 → length (versions st) = 1%nat.
Proof.
  intros Hinv Hstep st' Hm' Hz.
  destruct Hstep as [a Hm Hb | ty k msg env data Hm Hdoc ->
                    | ty k msg env st data last e content ps Hm Hdoc Hlast
                        Hk Hform ->].
  - apply Hinv; congruence.
  - assert (st' = init_state ty k msg env) as ->
      by (apply RepoState_to_json_inj; cbn in Hm'; congruence).
    done.
  - assert (st' = append_version st e) as ->
      by (apply RepoState_to_json_inj; cbn in Hm'; congruence).
    done.
Qed.

(** X18 — a repository made with interval 0 takes no second version:
    [init] accepts the interval, and from then on every [add] of an
    existing document raises [ZeroDivisionError] and writes nothing, so
    the ledger keeps its one record whatever is done. *)
Theorem zero_interval_blocks_add l w0 st data ty k msg env :
  meta w0 = None →
  loaded (run l w0) = Some st →
  snapshot_interval st = 0 →
  doc (run l w0) = Some data →
  cmd_add ty k msg env (run l w0) = (Err ZeroDivisionError, run l w0)
  ∧ length (versions st) = 1%nat.
Proof.
  intros Hm0 Hl Hz Hdoc.
  destruct (run_invariant (λ _, True)
              (λ w _, ∀ st, meta w = Some (Json (RepoState_to_json st)) →
                            snapshot_interval st = 0 →
                            length (versions st) = 1%nat))
    with (l := l) (w := w0) (h := @nil bytes) as [Hinv Hp];
    [| by apply Forall_true | by left | |].
  { intros. by eapply zero_interval_step. }
  { intros st'. by rewrite Hm0. }
  pose proof (persisted_loaded _ _ Hp Hl) as Hm.
  split; [| by apply Hinv].
  rewrite (cmd_add_saved _ _ _ _ _ _ Hm).
  assert (shape_inv (run l w0)) as Hshape by (apply shape_run; by left).
  destruct (shape_inv_saved _ _ Hshape Hm) as [Hok _].
  destruct (last_entry_ok _ Hok) as (last & Hlast & _ & _).
  unfold add, bind, lift, reads, _require_initialized, read_doc.
  cbn [state from_option]. rewrite Hdoc. cbn [from_option].
  rewrite Hlast. unfold py_mod. by rewrite decide_True.
Qed.

(** X19 — with interval 1 (or -1) every version is stored whole: after
    any run on a fresh directory all records are snapshots, whether or
    not the patch tool was found, so every committed version is
    reconstructed in every environment, and [add] of an existing
    document always returns. *)
Theorem interval_one_stores_snapshots_only l w0 st :
  meta w0 = None →
  loaded (run l w0) = Some st →
  Z.abs (snapshot_interval st) = 1 →
  Forall (λ e, kind e = "snapshot") (versions st)
  ∧ (∀ (i : nat) data env,
        history l w0 !! i = Some data →
        _reconstruct_bytes st env (Z.of_nat i + 1) (run l w0) = Ok data)
  ∧ (∀ data ty k msg env,
        doc (run l w0) = Some data →
        ∃ self', (cmd_add ty k msg env (run l w0)).1 = Ok self').
Proof.
  intros Hm0 Hl Hone.
  destruct (store_inv_loaded l w0 st Hm0 Hl)
    as (Hm & Hok & _ & [Hlen Hs] & Hcad).
  assert (∀ z, z `mod` snapshot_interval st = 0) as Hmod.
  { intros z. destruct (Z.abs_eq_or_opp (snapshot_interval st)) as [He | He];
      rewrite He in Hone.
    - rewrite Hone. apply Z.mod_1_r.
    - replace (snapshot_interval st) with (-1) by lia.
      replace z with (- z * -1) by lia. apply Z_mod_mult. }
  assert (Forall (λ e, kind e = "snapshot") (versions st)) as Hall.
  { apply list.Forall_forall. intros e [i Hi]%list_elem_of_lookup.
    by apply (Hcad i e Hi). }
  split_and!; [done | |].
  - intros i data env Hi.
    destruct (lookup_lt_is_Some_2 (versions st) i) as [e He].
    { rewrite <- Hlen. by eapply lookup_lt_Some. }
    assert (kind e = "snapshot") as Hsnap by (by apply (Hcad i e He)).
    rewrite (_reconstruct_bytes_snapshot st env _ i e Hok He Hsnap).
    unfold read_blob. by rewrite (Hs i e data He Hi Hsnap).
  - intros data ty k msg env Hdoc.
    destruct (last_entry_ok _ Hok) as (last & Hlast & _ & _).
    rewrite (cmd_add_saved _ _ _ _ _ _ Hm).
    rewrite (add_cadence {| doc_type := ty; self_snapshot_interval := k;
                            state := Some st |} st msg env _ data last
               eq_refl Hdoc Hlast);
      [| lia | apply Hmod].
    rewrite add_snapshot_run. eauto.
Qed.

(** X20 — without the patch tool exactly the snapshot versions can be
    read: after any run on a fresh directory, in an environment where
    the tool is not found, a version stored as a snapshot reconstructs to
    the bytes committed for it, and a version stored as a delta raises
    "xdelta3 not available", at the first record after the nearest
    snapshot. *)
Theorem without_the_tool_only_snapshots_are_read
    l w0 st (i : nat) e data env :
  meta w0 = None →
  loaded (run l w0) = Some st →
  versions st !! i = Some e →
  history l w0 !! i = Some data →
  which_xdelta3 env = false →
  (kind e = "snapshot"
   ∧ _reconstruct_bytes st env (Z.of_nat i + 1) (run l w0) = Ok data)
  ∨ (kind e = "delta"
     ∧ _reconstruct_bytes st env (Z.of_nat i + 1) (run l w0)
       = Err (RuntimeError XdeltaNotAvailable)).
Proof.
  intros Hm0 Hl Hi Hdata Hwh.
  destruct (store_inv_loaded l w0 st Hm0 Hl)
    as (_ & Hok & Hfiles & [_ Hs] & _).
  assert (∀ x, x ∈ versions st → kind x = "snapshot" ∨ kind x = "delta")
    as Hkinds.
  { intros x Hx. destruct (Hfiles x Hx) as [[[? _] | [? _]] _]; auto. }
  destruct (Hkinds e) as [Hsnap | Hdelta]; [by eapply list_elem_of_lookup_2 | |].
  { left. split; [done |].
    rewrite (_reconstruct_bytes_snapshot st env _ i e Hok Hi Hsnap).
    unfold read_blob. by rewrite (Hs i e data Hi Hdata Hsnap). }
  right. split; [done |].
  pose proof (ledger_ok_lookup _ _ _ Hok Hi) as Hv.
  pose proof (lookup_lt_Some _ _ _ Hi) as Hlt.
  destruct (last_entry_ok _ Hok) as (last & Hlast & _ & Hvlast).
  unfold _reconstruct_bytes. rewrite Hlast. cbn [rbind].
  rewrite decide_False by lia.
  destruct (_nearest_snapshot_at_or_before st (Z.of_nat i + 1))
    as [[j s] | err] eqn:Hn.
  - apply _nearest_snapshot_at_or_before_spec in Hn
      as (Hj & [Hle Hsj] & Hmax).
    pose proof (ledger_ok_lookup _ _ _ Hok Hj) as Hvj.
    assert (j < i)%nat as Hji.
    { destruct (decide (j = i)) as [-> | Hne]; [| lia].
      assert (s = e) as -> by congruence. by rewrite Hdelta in Hsj. }
    destruct (Hfiles s) as [_ [bb Hbb]]; [by eapply list_elem_of_lookup_2 |].
    cbn [rbind snd]. unfold read_blob at 1. rewrite Hbb. cbn [from_option rbind].
    destruct (lookup_lt_is_Some_2 (versions st) (S j)) as [e1 He1]; [lia |].
    assert (kind e1 = "delta") as Hd1.
    { destruct (Hkinds e1) as [Hs1 | Hd1];
        [by eapply list_elem_of_lookup_2 | | done].
      destruct (Hmax _ _ He1); [lia |].
      pose proof (ledger_ok_lookup _ _ _ Hok He1). split; [lia | done]. }
    replace (Z.of_nat i + 1 - version s) with (Z.succ (Z.of_nat (i - j - 1)))
      by lia.
    rewrite seqZ_cons by lia. cbn [foldM].
    assert (replay_step st env (run l w0) bb (version s + 1)
            = Err (RuntimeError XdeltaNotAvailable)) as ->; [| done].
    unfold replay_step.
    pose proof (_entry_for_lookup st _ e1 Hok He1) as Hentry.
    replace (Z.of_nat (S j) + 1) with (version s + 1) in Hentry by lia.
    rewrite Hentry. cbn [rbind].
    rewrite decide_False by (by rewrite Hd1). by rewrite Hwh.
  - destruct (_nearest_snapshot_at_or_before_ok st (Z.of_nat i + 1) Hok)
      as (idx & s & e' & Hn' & _); [lia | congruence].
Qed.

End Engine_properties.

(** ** The claims on sample data *)

Lemma toy_patch_round_trip : patch_round_trip toy_encode toy_decode.
Proof.
  intros prior data delta [= <-]. unfold toy_decode.
  by rewrite reverse_involutive.
Qed.

Lemma toy_encoder_total : encoder_total toy_encode.
Proof. intros prior data. by eexists. Qed.

Lemma sample_run_loaded :
  loaded (run toy_encode toy_decode sample_run sample_world)
  = Some sample_state3.
Proof. vm_compute. reflexivity. Qed.

Lemma sample_more_loaded :
  loaded (run toy_encode toy_decode (sample_run ++ sample_more) sample_world)
  = Some sample_state4.
Proof. vm_compute. reflexivity. Qed.

Lemma sample_short_loaded :
  loaded (run toy_encode toy_decode sample_short sample_world)
  = Some sample_state2.
Proof. vm_compute. reflexivity. Qed.

Lemma sample_no_tool_loaded :
  loaded (run toy_encode toy_decode sample_no_tool sample_world)
  = Some sample_state_no_tool.
Proof. vm_compute. reflexivity. Qed.

(** After version 4 is stored as a snapshot, version 3 still reads "AAC". *)
Lemma committed_versions_round_trip_witness :
  patch_round_trip toy_encode toy_decode
  ∧ meta sample_world = None
  ∧ loaded (run toy_encode toy_decode (sample_run ++ sample_more)
              sample_world) = Some sample_state4
  ∧ history toy_encode toy_decode sample_run sample_world !! 2%nat
    = Some (b "AAC")
  ∧ which_xdelta3 env_on = true
  ∧ _reconstruct_bytes toy_decode sample_state4 env_on 3
      (run toy_encode toy_decode (sample_run ++ sample_more) sample_world)
    = Ok (b "AAC").
Proof.
  assert (history toy_encode toy_decode sample_run sample_world !! 2%nat
          = Some (b "AAC")) as Hh by (vm_compute; reflexivity).
  split_and!; [exact toy_patch_round_trip | reflexivity
              | exact sample_more_loaded | exact Hh | reflexivity |].
  pose proof (committed_versions_round_trip toy_encode toy_decode sample_run
                sample_more sample_world sample_state4 toy_patch_round_trip
                eq_refl sample_more_loaded) as [_ Hall].
  exact (proj1 (proj2 (Hall 2%nat (b "AAC") env_on Hh)) eq_refl).
Defined.

(** Four versions at interval 3: snapshots at versions 1 and 4. *)
Lemma snapshot_cadence_witness :
  meta sample_world = None
  ∧ Forall tool_found (sample_run ++ sample_more)
  ∧ encoder_total toy_encode
  ∧ loaded (run toy_encode toy_decode (sample_run ++ sample_more)
              sample_world) = Some sample_state4
  ∧ 0 < snapshot_interval sample_state4
  ∧ Z.of_nat (count_snapshots (versions sample_state4))
    = 1 + (Z.of_nat (length (versions sample_state4)) - 1)
            `div` snapshot_interval sample_state4.
Proof.
  assert (Forall tool_found (sample_run ++ sample_more)) as Htool
    by (repeat constructor).
  split_and!; [reflexivity | exact Htool | exact toy_encoder_total
              | exact sample_more_loaded | reflexivity |].
  exact (proj2 (snapshot_cadence toy_encode toy_decode)
           (sample_run ++ sample_more) sample_world sample_state4 eq_refl
           Htool toy_encoder_total sample_more_loaded eq_refl).
Defined.



(** Versions 2 and 3 are deltas on the snapshot of version 1: without the
    tool, or with a decoder that exits with an error, version 3 cannot be
    read, and [get] writes nothing. *)
Lemma decode_failure_is_fatal_witness :
  let w := run toy_encode toy_decode (sample_run ++ sample_more)
             sample_world in
  let self := {| doc_type := "pdf"; self_snapshot_interval := 3;
                 state := Some sample_state4 |} in
  let e1 := sample_entry 1 "snapshot" "v0001.snapshot" None in
  let e2 := sample_entry 2 "delta" "v0002.delta" (Some 1) in
  let e4 := sample_entry 4 "snapshot" "v0004.snapshot" None in
  (last_entry sample_state4 = Ok e4
   ∧ 1 ≤ 3 ≤ version e4
   ∧ _nearest_snapshot_at_or_before sample_state4 3 = Ok (0%nat, e1)
   ∧ read_blob (file e1) w = Ok (b "AAA")
   ∧ seqZ (version e1 + 1) (3 - version e1) = [] ++ 2 :: [3]
   ∧ _entry_for sample_state4 2 = Ok e2
   ∧ kind e2 = "delta")
  ∧ (decode_fails toy_decode env_off (b "AAA") (blobs w !! file e2)
     ∧ _reconstruct_bytes toy_decode sample_state4 env_off 3 w
       = Err (RuntimeError XdeltaNotAvailable)
     ∧ get toy_decode self 3 "out.pdf" env_off w
       = (Err (RuntimeError XdeltaNotAvailable), w))
  ∧ (decode_fails failing_decode env_on (b "AAA") (blobs w !! file e2)
     ∧ _reconstruct_bytes failing_decode sample_state4 env_on 3 w
       = Err (RuntimeError (FailedToApplyDelta 2))
     ∧ get failing_decode self 3 "out.pdf" env_on w
       = (Err (RuntimeError (FailedToApplyDelta 2)), w)).
Proof.
  intros w self e1 e2 e4.
  assert (last_entry sample_state4 = Ok e4) as H1 by reflexivity.
  assert (1 ≤ 3 ≤ version e4) as H2 by (cbn; lia).
  assert (_nearest_snapshot_at_or_before sample_state4 3 = Ok (0%nat, e1))
    as H3 by (by vm_compute).
  assert (read_blob (file e1) w = Ok (b "AAA")) as H4 by (by vm_compute).
  assert (seqZ (version e1 + 1) (3 - version e1) = [] ++ 2 :: [3]) as H5
    by reflexivity.
  assert (_entry_for sample_state4 2 = Ok e2) as H6 by (by vm_compute).
  assert (kind e2 = "delta") as H7 by reflexivity.
  assert (decode_fails toy_decode env_off (b "AAA") (blobs w !! file e2))
    as H8 by (by left).
  assert (decode_fails failing_decode env_on (b "AAA") (blobs w !! file e2))
    as H9 by (right; by vm_compute).
  pose proof (decode_failure_is_fatal toy_decode self sample_state4 env_off
                w 3 "out.pdf" e4 0%nat e1 (b "AAA") [] 2 [3] (b "AAA") e2
                eq_refl H1 H2 H3 H4 H5 eq_refl H6 H7 H8)
    as (Hoff1 & Hoff2 & _).
  pose proof (decode_failure_is_fatal failing_decode self sample_state4
                env_on w 3 "out.pdf" e4 0%nat e1 (b "AAA") [] 2 [3]
                (b "AAA") e2 eq_refl H1 H2 H3 H4 H5 eq_refl H6 H7 H9)
    as (Hon1 & Hon2 & _).
  split; [by split_and! |]. split.
  - split; [exact H8 |]. split; [exact Hoff1 | exact Hoff2].
  - split; [exact H9 |]. split; [exact Hon1 | exact Hon2].
Defined.

(** The ledger after three versions, and what the fourth leaves of it. *)
Lemma ledger_invariant_preserved_witness :
  meta sample_world = None
  ∧ loaded (run toy_encode toy_decode sample_run sample_world)
    = Some sample_state3
  ∧ (versions sample_state3 ≠ []
     ∧ (∀ (i : nat) e, versions sample_state3 !! i = Some e →
                       version e = Z.of_nat i + 1)
     ∧ (∃ e, versions sample_state3 !! 0%nat = Some e
             ∧ kind e = "snapshot")
     ∧ (∀ e, e ∈ versions sample_state3 → kind e = "delta" →
             base_version e = Some (version e - 1)))
  ∧ versions sample_state3
    `prefix_of` ledger (run toy_encode toy_decode (sample_run ++ sample_more)
                          sample_world).
Proof.
  split; [reflexivity |]. split; [exact sample_run_loaded |].
  exact (ledger_invariant_preserved toy_encode toy_decode sample_run
           sample_more sample_world sample_state3 eq_refl sample_run_loaded).
Defined.

(** Versions 0 and 999 of a repository of four versions. *)
Lemma version_range_check_witness :
  ledger_ok (versions sample_state4)
  ∧ length (versions sample_state4) = 4%nat
  ∧ last_entry sample_state4
    = Ok (sample_entry 4 "snapshot" "v0004.snapshot" None)
  ∧ _reconstruct_bytes toy_decode sample_state4 env_on 0 sample_world
    = Err (ValueError_range 4)
  ∧ _reconstruct_bytes toy_decode sample_state4 env_on 999 sample_world
    = Err (ValueError_range 4)
  ∧ ((∃ n, _reconstruct_bytes toy_decode sample_state4 env_on 5 sample_world
           = Err (ValueError_range n))
     ↔ 5 < 1 ∨ 5 > 4).
Proof.
  assert (ledger_ok (versions sample_state4)) as Hok
    by (apply (bool_decide_unpack _); by vm_compute).
  assert (last_entry sample_state4
          = Ok (sample_entry 4 "snapshot" "v0004.snapshot" None)) as Hlast
    by reflexivity.
  split; [exact Hok |]. split; [reflexivity |]. split; [exact Hlast |].
  pose proof (version_range_check toy_decode sample_state4 env_on
                sample_world) as (Hiff & _ & Hfour).
  destruct (Hfour Hok eq_refl) as [H0 H999].
  split; [exact H0 |]. split; [exact H999 |].
  exact (Hiff _ 5 Hlast).
Defined.

(** A file that is no JSON document, and a well-formed ledger. *)
Lemma load_contract_witness :
  Some NotJson = Some NotJson
  ∧ RepoState_load (Some NotJson) = Err JSONDecodeError
  ∧ Some (Json metadata_txt) = Some (Json metadata_txt)
  ∧ ((∃ raw, RepoState_load (Some (Json metadata_txt)) = Ok (Some raw))
     ↔ ∃ kw vs items dt,
         metadata_txt = JObj kw
         ∧ dict_get "versions" kw = Some vs
         ∧ iterate vs = Ok items
         ∧ Forall entry_kwargs_ok items
         ∧ dict_get "document_type" kw = Some dt).
Proof.
  split; [reflexivity |].
  split; [exact (proj1 (proj2 (load_contract (Some NotJson))) eq_refl) |].
  split; [reflexivity |].
  exact (proj1 (proj2 (proj2 (load_contract (Some (Json metadata_txt))))
                  metadata_txt eq_refl)).
Defined.

(** [init] run again on the sample repository. *)
Lemma init_on_existing_repository_witness :
  let w := run toy_encode toy_decode sample_run sample_world in
  loaded w = Some sample_state3
  ∧ cmd_init "docx" 9 "again" env_on w
    = (Ok {| doc_type := "docx"; self_snapshot_interval := 9;
             state := Some sample_state3 |},
       print P_already_initialized w)
  ∧ ledger (exec toy_encode toy_decode (Init "docx" 9 "again" env_on) w)
    = versions sample_state3.
Proof.
  intros w. split; [exact sample_run_loaded |].
  pose proof (init_on_existing_repository toy_encode toy_decode w
                sample_state3 "docx" 9 "again" env_on sample_run_loaded)
    as (Hinit & _ & _ & _ & Hledger & _).
  split; [exact Hinit | exact Hledger].
Defined.

(** Version 3 of the sample repository, added through a constructor
    that was given interval 7: the stored interval 3 decides, and 2 is no
    multiple of 3. *)
Lemma add_ignores_constructor_interval_witness :
  let w := run toy_encode toy_decode sample_short sample_world in
  let e2 := sample_entry 2 "delta" "v0002.delta" (Some 1) in
  let e3 := delta_entry 3 "v0003.delta" "Update" env_on in
  let self' := {| doc_type := "pdf"; self_snapshot_interval := 7;
                  state := Some (append_version sample_state2 e3) |} in
  loaded w = Some sample_state2
  ∧ last_entry sample_state2 = Ok e2
  ∧ cmd_add toy_encode toy_decode "pdf" 7 "Update" env_on w
    = (Ok self',
       (cmd_add toy_encode toy_decode "pdf" 7 "Update" env_on w).2)
  ∧ ∃ e, state self' = Some (append_version sample_state2 e)
         ∧ version e = version e2 + 1
         ∧ (version e2 `mod` snapshot_interval sample_state2 = 0 →
            e = snapshot_entry (version e2 + 1)
                  (_version_file (version e2 + 1) true) "Update" env_on)
         ∧ (version e2 `mod` snapshot_interval sample_state2 ≠ 0 →
            e = delta_entry (version e2 + 1)
                  (_version_file (version e2 + 1) false) "Update" env_on
            ∨ e = snapshot_entry (version e2 + 1)
                    (_version_file (version e2 + 1) true)
                    (fallback_message "Update") env_on).
Proof.
  intros w e2 e3 self'.
  assert (cmd_add toy_encode toy_decode "pdf" 7 "Update" env_on w
          = (Ok self',
             (cmd_add toy_encode toy_decode "pdf" 7 "Update" env_on w).2))
    as Hadd by (by vm_compute).
  split; [exact sample_short_loaded |]. split; [reflexivity |].
  split; [exact Hadd |].
  exact (proj2 (proj2 (add_ignores_constructor_interval toy_encode toy_decode
                         "pdf" 7 5 "Update" env_on w))
           sample_state2 e2 self' _ sample_short_loaded eq_refl Hadd).
Defined.
Lemma load_accepts_unrecognized_document_type :
  subscript metadata_txt "document_type" = Ok (JStr "txt")
  ∧ "txt" ≠ "docx" ∧ "txt" ≠ "pdf"
  ∧ RepoState_load (Some (Json metadata_txt))
    = Ok (Some {| raw_document_type := JStr "txt";
                  raw_snapshot_interval := JInt 5;
                  raw_versions :=
                    [{| raw_version := JInt 1; raw_kind := JStr "snapshot";
                        raw_file := JStr "v0001.snapshot";
                        raw_message := JStr "Initial version";
                        raw_created_at := JStr "2024-01-01T00:00:00";
                        raw_base_version := JNull |}] |})
  ∧ (document_type <$> loaded {| doc := None;
                                  meta := Some (Json metadata_txt);
                                  blobs := ∅; outs := ∅; stdout := [] |})
    = Some "txt".
Proof. split_and!; done. Qed.


(** ** Comparing images *)

Section Images_properties.

Context {Img : Type}.
Variable content_hash : Img → option string.

Abbreviation by_hash := (by_hash content_hash).
Abbreviation compare_images_detailed := (compare_images_detailed content_hash).
Abbreviation hashes := (hashes content_hash).
Abbreviation dict_for := (dict_for content_hash).

Lemma dict_put_keys k v (d : list (string * Img)) :
  (dict_put k v d).*1 = if decide (k ∈ d.*1) then d.*1 else d.*1 ++ [k].
Proof.
  induction d as [| [k' v'] d IH]; cbn; [done |].
  destruct (decide (k' = k)) as [-> | Hne]; cbn.
  - rewrite decide_True; [done | by left].
  - rewrite IH. destruct (decide (k ∈ d.*1)) as [Hin | Hnin].
    + rewrite decide_True; [done | by right].
    + rewrite decide_False; [done |].
      intros [? | ?]%elem_of_cons; congruence.
Qed.

Lemma dict_put_elem k v (d : list (string * Img)) h img :
  (h, img) ∈ dict_put k v d → (h, img) = (k, v) ∨ (h, img) ∈ d.
Proof.
  induction d as [| [k' v'] d IH]; cbn.
  - intros ->%list_elem_of_singleton. by left.
  - destruct (decide (k' = k)) as [-> | Hne].
    + intros [-> | Hin]%elem_of_cons; [by left | right; by right].
    + intros [-> | Hin]%elem_of_cons; [right; by left |].
      destruct (IH Hin); [by left | right; by right].
Qed.

Lemma by_hash_from images d0 seen :
  dict_for seen d0 →
  match foldM (λ d img,
                 let? h := from_option (KeyError "content_hash")
                                       (content_hash img)
                 in Ok (dict_put h img d)) d0 images with
  | Ok d => dict_for (seen ++ images) d
            ∧ Forall (λ img, is_Some (content_hash img)) images
  | Err e => e = KeyError "content_hash"
             ∧ ¬ Forall (λ img, is_Some (content_hash img)) images
  end.
Proof.
  revert d0 seen. induction images as [| img images IH]; intros d0 seen Hd.
  - cbn. by rewrite app_nil_r.
  - cbn [foldM]. destruct (content_hash img) as [h |] eqn:Hh; cbn.
    + assert (dict_for (seen ++ [img]) (dict_put h img d0)) as Hd'.
      { destruct Hd as (Hnd & Hval & Hkey). split_and!.
        - rewrite dict_put_keys. case_decide as Hin; [done |].
          apply list.NoDup_app. split_and!; [done | | apply NoDup_singleton].
          intros x Hx ->%list_elem_of_singleton. done.
        - intros h' img' [[= -> ->] | Hin]%dict_put_elem.
          + split; [| done]. apply elem_of_app. right. by left.
          + destruct (Hval _ _ Hin). split; [| done].
            apply elem_of_app. by left.
        - intros img' h' [Hin | ->%list_elem_of_singleton]%elem_of_app Hh'.
          + rewrite dict_put_keys. case_decide; [by eapply Hkey |].
            apply elem_of_app. left. by eapply Hkey.
          + assert (h' = h) as -> by congruence.
            rewrite dict_put_keys. case_decide; [done |].
            apply elem_of_app. right. by left. }
      specialize (IH _ _ Hd'). rewrite <- app_assoc in IH. cbn in IH.
      destruct (foldM _ _ images) as [d | e].
      * destruct IH as [Hfor Hall]. split; [done |].
        constructor; [by rewrite Hh | done].
      * destruct IH as [-> Hnall]. split; [done |].
        intros Hall. apply Hnall. by inversion Hall.
    + split; [done |]. intros Hall. inversion Hall as [| ? ? [? Hs] ?].
      congruence.
Qed.

Lemma by_hash_spec images :
  match by_hash images with
  | Ok d => dict_for images d
            ∧ Forall (λ img, is_Some (content_hash img)) images
  | Err e => e = KeyError "content_hash"
             ∧ ¬ Forall (λ img, is_Some (content_hash img)) images
  end.
Proof.
  apply (by_hash_from images [] []).
  split_and!; [constructor | |]; intros ? ? Hin; by apply elem_of_nil in Hin.
Qed.

Lemma dict_for_key images d h :
  dict_for images d → h ∈ d.*1 ↔ Some h ∈ hashes images.
Proof.
  intros (_ & Hval & Hkey). split.
  - intros ([h' img] & -> & Hin)%list_elem_of_fmap.
    destruct (Hval _ _ Hin) as [Himg Hh]. cbn.
    apply list_elem_of_fmap. eauto.
  - intros (img & Hh & Hin)%list_elem_of_fmap. by eapply Hkey.
Qed.

Lemma dict_for_hashes images d (P : string * Img → Prop)
    `{!∀ kv, Decision (P kv)} :
  dict_for images d →
  hashes (filter P d).*2 = Some <$> (filter P d).*1.
Proof.
  intros (_ & Hval & _).
  assert (∀ kv, kv ∈ filter P d → content_hash kv.2 = Some kv.1) as Hall.
  { intros [h img] [_ Hin]%list_elem_of_filter. by destruct (Hval _ _ Hin). }
  revert Hall. generalize (filter P d). intros l Hall.
  induction l as [| kv l IH]; [done |].
  unfold hashes in *. cbn. rewrite Hall by (by left).
  f_equal. apply IH. intros kv' Hin. apply Hall. by right.
Qed.

Lemma filtered_report images d (P : string → Prop) `{!∀ h, Decision (P h)} :
  dict_for images d →
  (∀ h, Some h ∈ hashes (filter (λ kv, P kv.1) d).*2
        ↔ Some h ∈ hashes images ∧ P h)
  ∧ (∀ img, img ∈ (filter (λ kv, P kv.1) d).*2 → img ∈ images)
  ∧ NoDup (hashes (filter (λ kv, P kv.1) d).*2).
Proof.
  intros Hd. pose proof Hd as (Hnd & Hval & Hkey).
  rewrite (dict_for_hashes images d (λ kv, P kv.1) Hd).
  split_and!.
  - intros h. rewrite <- (dict_for_key images d h Hd). split.
    + intros (h' & [= <-] & ([h0 img] & -> & [HP Hin]%list_elem_of_filter)
                              %list_elem_of_fmap)%list_elem_of_fmap.
      split; [| done]. apply list_elem_of_fmap. by exists (h0, img).
    + intros [([h0 img] & -> & Hin)%list_elem_of_fmap HP].
      apply list_elem_of_fmap_2. apply list_elem_of_fmap.
      exists (h0, img). split; [done |]. by apply list_elem_of_filter.
  - intros img ([h0 img'] & -> & [_ Hin]%list_elem_of_filter)
             %list_elem_of_fmap.
    by destruct (Hval _ _ Hin).
  - apply NoDup_fmap_2; [intros ? ?; congruence |].
    apply (sublist_NoDup _ d.*1); [done |].
    apply fmap_sublist, sublist_filter.
Qed.

(** X16 — [compare_images_detailed] sorts images by content hash and by
    nothing else: it raises [KeyError] exactly when some image has no
    ['content_hash'], and otherwise an image hash is reported as added
    when it occurs in the other version and not in the current one, as
    removed when it occurs in the current and not in the other, as
    unchanged when it occurs in both; the images reported come from the
    version named, no hash is reported twice, and nothing is ever
    reported as modified. *)
Theorem compare_images_reports_by_hash cur oth :
  match compare_images_detailed cur oth with
  | Err e =>
      e = KeyError "content_hash"
      ∧ ¬ Forall (λ img, is_Some (content_hash img)) (cur ++ oth)
  | Ok c =>
      Forall (λ img, is_Some (content_hash img)) (cur ++ oth)
      ∧ modified c = []
      ∧ (∀ h, Some h ∈ hashes (added c)
              ↔ Some h ∈ hashes oth ∧ Some h ∉ hashes cur)
      ∧ (∀ h, Some h ∈ hashes (removed c)
              ↔ Some h ∈ hashes cur ∧ Some h ∉ hashes oth)
      ∧ (∀ h, Some h ∈ hashes (unchanged c)
              ↔ Some h ∈ hashes cur ∧ Some h ∈ hashes oth)
      ∧ (∀ img, img ∈ added c → img ∈ oth)
      ∧ (∀ img, img ∈ removed c ∨ img ∈ unchanged c → img ∈ cur)
      ∧ NoDup (hashes (added c))
      ∧ NoDup (hashes (removed c) ++ hashes (unchanged c))
  end.
Proof.
  unfold compare_images_detailed.
  pose proof (by_hash_spec cur) as Hc. pose proof (by_hash_spec oth) as Ho.
  destruct (by_hash cur) as [d1 | ec]; cbn [rbind].
  - destruct Hc as [Hd1 Hallc].
    destruct (by_hash oth) as [d2 | eo]; cbn [rbind].
    + destruct Ho as [Hd2 Hallo].
      destruct (filtered_report oth d2 (λ h, h ∉ d1.*1) Hd2)
        as (Ha1 & Ha2 & Ha3).
      destruct (filtered_report cur d1 (λ h, h ∉ d2.*1) Hd1)
        as (Hr1 & Hr2 & Hr3).
      destruct (filtered_report cur d1 (λ h, h ∈ d2.*1) Hd1)
        as (Hu1 & Hu2 & Hu3).
      cbn [added removed modified unchanged].
      split_and!; [by apply Forall_app | done | | | | done | | done |].
      * intros h. rewrite Ha1. by rewrite (dict_for_key cur d1 h Hd1).
      * intros h. rewrite Hr1. by rewrite (dict_for_key oth d2 h Hd2).
      * intros h. rewrite Hu1. by rewrite (dict_for_key oth d2 h Hd2).
      * intros img [? | ?]; auto.
      * apply list.NoDup_app. split_and!; [done | | done].
        intros [h |] Hin1 Hin2.
        -- apply Hr1 in Hin1 as [_ Hn]. apply Hu1 in Hin2 as [_ Hy]. done.
        -- rewrite (dict_for_hashes cur d1 _ Hd1) in Hin1.
           by apply list_elem_of_fmap in Hin1 as (? & ? & _).
    + destruct Ho as [-> Hn]. split; [done |].
      intros [_ ?]%Forall_app. done.
  - destruct Hc as [-> Hn]. split; [done |].
    intros [? _]%Forall_app. done.
Qed.

Lemma no_hash_not_reported images d (P : string * Img → Prop)
    `{!∀ kv, Decision (P kv)} :
  dict_for images d → None ∉ hashes (filter P d).*2.
Proof.
  intros Hd. rewrite (dict_for_hashes images d P Hd).
  by intros (? & ? & _)%list_elem_of_fmap.
Qed.

Lemma dict_for_distinct images d :
  dict_for images d →
  Forall (λ img, is_Some (content_hash img)) images →
  length d = length (remove_dups (hashes images)).
Proof.
  intros Hd Hall.
  rewrite <- (length_fmap fst d), <- (length_fmap Some d.*1).
  apply Permutation_length, NoDup_Permutation.
  - apply NoDup_fmap_2; [intros ? ?; congruence | by destruct Hd].
  - apply NoDup_remove_dups.
  - intros [h |]; rewrite elem_of_remove_dups.
    + rewrite <- (dict_for_key images d h Hd).
      split; [by intros (? & [= <-] & ?)%list_elem_of_fmap |].
      apply list_elem_of_fmap_2.
    + split; [by intros (? & ? & _)%list_elem_of_fmap |].
      intros (img & Hn & Hin)%list_elem_of_fmap.
      rewrite list.Forall_forall in Hall.
      destruct (Hall img Hin) as [h Hh]. congruence.
Qed.

Lemma report_partition (d : list (string * Img)) (P : string → Prop)
    `{!∀ h, Decision (P h)} :
  (length (filter (λ kv, ¬ P kv.1) d).*2
   + length (filter (λ kv, P kv.1) d).*2)%nat
  = length d.
Proof.
  rewrite !length_fmap, Nat.add_comm, <- length_app.
  apply Permutation_length.
  apply (filter_app_complement (λ kv : string * Img, P kv.1)).
Qed.

Lemma common_hashes cur oth d1 d2 :
  dict_for cur d1 → dict_for oth d2 →
  hashes (filter (λ kv, kv.1 ∈ d1.*1) d2).*2
  ≡ₚ hashes (filter (λ kv, kv.1 ∈ d2.*1) d1).*2.
Proof.
  intros Hd1 Hd2.
  destruct (filtered_report oth d2 (λ h, h ∈ d1.*1) Hd2) as (H1 & _ & Hn1).
  destruct (filtered_report cur d1 (λ h, h ∈ d2.*1) Hd1) as (H2 & _ & Hn2).
  apply NoDup_Permutation; [done | done |].
  intros [h |].
  - rewrite H1, H2, (dict_for_key cur d1 h Hd1), (dict_for_key oth d2 h Hd2).
    tauto.
  - split; intros Hin; exfalso; revert Hin;
      by eapply no_hash_not_reported.
Qed.

(** X17 — what the counts of the report add up to, and what swapping
    the two versions does: the removed and the unchanged images together
    are as many as the distinct hashes of the current version, so an
    image that occurs twice there counts once, and the added and the
    unchanged ones as many as the distinct hashes of the other version;
    comparing the other way round swaps added and removed and keeps the
    unchanged hashes; and a version compared with itself has nothing
    added and nothing removed. *)
Theorem compare_images_counts_and_swap cur oth c :
  compare_images_detailed cur oth = Ok c →
  (length (removed c) + length (unchanged c))%nat
  = length (remove_dups (hashes cur))
  ∧ (length (added c) + length (unchanged c))%nat
    = length (remove_dups (hashes oth))
  ∧ (∃ c', compare_images_detailed oth cur = Ok c'
           ∧ added c' = removed c ∧ removed c' = added c
           ∧ hashes (unchanged c') ≡ₚ hashes (unchanged c))
  ∧ (∃ c0, compare_images_detailed cur cur = Ok c0
           ∧ added c0 = [] ∧ removed c0 = []
           ∧ hashes (unchanged c0) ≡ₚ remove_dups (hashes cur)).
Proof.
  unfold compare_images_detailed.
  pose proof (by_hash_spec cur) as Hc. pose proof (by_hash_spec oth) as Ho.
  destruct (by_hash cur) as [d1 | ec]; cbn [rbind]; [| done].
  destruct (by_hash oth) as [d2 | eo]; cbn [rbind]; [| done].
  destruct Hc as [Hd1 Hallc]. destruct Ho as [Hd2 Hallo].
  intros [= <-]. cbn [added removed modified unchanged].
  pose proof (common_hashes cur oth d1 d2 Hd1 Hd2) as Hcommon.
  split_and!.
  - rewrite <- (dict_for_distinct cur d1 Hd1 Hallc).
    exact (report_partition d1 (λ h, h ∈ d2.*1)).
  - rewrite <- (dict_for_distinct oth d2 Hd2 Hallo).
    pose proof (report_partition d2 (λ h, h ∈ d1.*1)) as Hpart.
    rewrite <- Hpart. f_equal.
    apply Permutation_length in Hcommon.
    unfold hashes in Hcommon. by rewrite !length_fmap in *.
  - eexists. split; [done |]. by cbn.
  - eexists. split; [done |]. cbn [added removed unchanged].
    assert (filter (λ kv : string * Img, kv.1 ∉ d1.*1) d1 = []) as ->.
    { destruct (filter (λ kv : string * Img, kv.1 ∉ d1.*1) d1)
        as [| kv l] eqn:Hf; [done |].
      assert (kv ∈ filter (λ kv : string * Img, kv.1 ∉ d1.*1) d1)
        as [Hn Hin]%list_elem_of_filter by (rewrite Hf; by left).
      destruct Hn. by apply list_elem_of_fmap_2. }
    split_and!; [done | done |].
    destruct (filtered_report cur d1 (λ h, h ∈ d1.*1) Hd1) as (H1 & _ & Hn1).
    apply NoDup_Permutation; [done | apply NoDup_remove_dups |].
    intros [h |]; rewrite elem_of_remove_dups.
    + rewrite H1, (dict_for_key cur d1 h Hd1). tauto.
    + split.
      * intros Hin. exfalso. revert Hin. by eapply no_hash_not_reported.
      * intros (img & Hn & Hin)%list_elem_of_fmap.
        rewrite list.Forall_forall in Hallc.
        destruct (Hallc img Hin) as [h Hh]. congruence.
Qed.

End Images_properties.

(** ** The further properties on sample data *)

Lemma sample_zero_loaded :
  loaded (run toy_encode toy_decode sample_zero sample_world)
  = Some (init_state "pdf" 0 "Initial version" env_on).
Proof. vm_compute. reflexivity. Qed.

Lemma sample_one_loaded :
  loaded (run toy_encode toy_decode sample_one sample_world)
  = Some sample_state_one.
Proof. vm_compute. reflexivity. Qed.

Lemma sample_compare :
  compare_images_detailed sample_hash sample_current sample_other
  = Ok sample_changes.
Proof. vm_compute. reflexivity. Qed.

(** On a well-shaped ledger of three records, version 2 is at index 1. *)
Lemma entry_for_finds_the_version_witness :
  ledger_ok (versions sample_state3)
  ∧ _entry_for sample_state3 2
    = Ok (sample_entry 2 "delta" "v0002.delta" (Some 1))
  ∧ _entry_for sample_state3 7 = Err (KeyError_entry 7).
Proof.
  assert (ledger_ok (versions sample_state3)) as Hok
    by (apply (bool_decide_unpack _); by vm_compute).
  split; [exact Hok |].
  pose proof (proj2 (proj2 (entry_for_finds_the_version sample_state3 2))
                Hok) as H2.
  pose proof (proj2 (proj2 (entry_for_finds_the_version sample_state3 7))
                Hok) as H7.
  split; [symmetry; exact (proj1 H2) | exact H7].
Defined.

(** The relabelled ledger reconstructs version 3 as the original does. *)
Lemma reconstruction_reads_storage_fields_only_witness :
  Forall2 same_storage (versions sample_state3)
    (versions sample_state3_relabelled)
  ∧ _reconstruct_bytes toy_decode sample_state3 env_on 3
      (run toy_encode toy_decode sample_run sample_world)
    = _reconstruct_bytes toy_decode sample_state3_relabelled env_on 3
        (run toy_encode toy_decode sample_run sample_world).
Proof.
  assert (Forall2 same_storage (versions sample_state3)
            (versions sample_state3_relabelled)) as Hsame
    by (repeat constructor).
  split; [exact Hsame |].
  exact (reconstruction_reads_storage_fields_only toy_decode sample_state3
           sample_state3_relabelled env_on 3 _ Hsame).
Defined.

(** Version 4 is a snapshot: it reads "AAD" without the tool. *)
Lemma snapshot_versions_need_no_tool_witness :
  meta sample_world = None
  ∧ loaded (run toy_encode toy_decode (sample_run ++ sample_more)
              sample_world) = Some sample_state4
  ∧ versions sample_state4 !! 3%nat
    = Some (sample_entry 4 "snapshot" "v0004.snapshot" None)
  ∧ history toy_encode toy_decode (sample_run ++ sample_more) sample_world
      !! 3%nat = Some (b "AAD")
  ∧ _reconstruct_bytes toy_decode sample_state4 env_off 4
      (run toy_encode toy_decode (sample_run ++ sample_more) sample_world)
    = Ok (b "AAD").
Proof.
  assert (history toy_encode toy_decode (sample_run ++ sample_more)
            sample_world !! 3%nat = Some (b "AAD")) as Hh
    by (vm_compute; reflexivity).
  split_and!; [reflexivity | exact sample_more_loaded | reflexivity
              | exact Hh |].
  exact (snapshot_versions_need_no_tool toy_encode toy_decode
           (sample_run ++ sample_more) sample_world sample_state4 3%nat
           (sample_entry 4 "snapshot" "v0004.snapshot" None) (b "AAD")
           env_off eq_refl sample_more_loaded eq_refl eq_refl Hh).
Defined.

(** At interval 3, version 3 is replayed from the snapshot of version 1. *)
Lemma replay_chain_is_shorter_than_interval_witness :
  meta sample_world = None
  ∧ loaded (run toy_encode toy_decode (sample_run ++ sample_more)
              sample_world) = Some sample_state4
  ∧ snapshot_interval sample_state4 ≠ 0
  ∧ 1 ≤ 3 ≤ Z.of_nat (length (versions sample_state4))
  ∧ ∃ (i : nat) e,
      _nearest_snapshot_at_or_before sample_state4 3 = Ok (i, e)
      ∧ versions sample_state4 !! i = Some e
      ∧ kind e = "snapshot"
      ∧ version e = Z.of_nat i + 1
      ∧ 3 - Z.abs (snapshot_interval sample_state4) < version e ≤ 3
      ∧ Z.of_nat (length (seqZ (version e + 1) (3 - version e)))
        < Z.abs (snapshot_interval sample_state4).
Proof.
  assert (snapshot_interval sample_state4 ≠ 0) as Hk by (cbn; lia).
  assert (1 ≤ 3 ≤ Z.of_nat (length (versions sample_state4))) as Hv
    by (cbn; lia).
  split_and!; [reflexivity | exact sample_more_loaded | exact Hk
              | exact (proj1 Hv) | exact (proj2 Hv) |].
  exact (replay_chain_is_shorter_than_interval toy_encode toy_decode
           (sample_run ++ sample_more) sample_world sample_state4 3
           eq_refl sample_more_loaded Hk Hv).
Defined.





(** The delta of version 2 is the same file after version 4 is added. *)
Lemma stored_blobs_are_never_rewritten_witness :
  meta sample_world = None
  ∧ sample_entry 2 "delta" "v0002.delta" (Some 1)
    ∈ ledger (run toy_encode toy_decode sample_run sample_world)
  ∧ blobs (run toy_encode toy_decode (sample_run ++ sample_more)
             sample_world) !! "v0002.delta"
    = blobs (run toy_encode toy_decode sample_run sample_world)
        !! "v0002.delta".
Proof.
  assert (sample_entry 2 "delta" "v0002.delta" (Some 1)
          ∈ ledger (run toy_encode toy_decode sample_run sample_world))
    as Hin.
  { unfold ledger. rewrite sample_run_loaded.
    apply (list_elem_of_lookup_2 _ 1%nat). reflexivity. }
  split_and!; [reflexivity | exact Hin |].
  exact (proj2 (proj2 (stored_blobs_are_never_rewritten toy_encode toy_decode
                         sample_run sample_more sample_world _ eq_refl Hin))).
Defined.

(** [sample_run] begins with [init -t pdf --interval 3]; the [add]s that
    follow say interval 5. *)
Lemma settings_are_fixed_by_the_first_init_witness :
  meta sample_world = None
  ∧ doc sample_world = Some (b "AAA")
  ∧ ∃ st, loaded (run toy_encode toy_decode (sample_run ++ sample_more)
                    sample_world) = Some st
          ∧ document_type st = "pdf"
          ∧ snapshot_interval st = 3
          ∧ head (versions st)
            = Some (snapshot_entry 1 (_version_file 1 true)
                      "Initial version" env_on).
Proof.
  split_and!; [reflexivity | reflexivity |].
  exact (settings_are_fixed_by_the_first_init toy_encode toy_decode "pdf" 3
           "Initial version" env_on
           ([Edit (b "AAB"); Add "pdf" 5 "Update" env_on;
             Edit (b "AAC"); Add "pdf" 5 "Update" env_on] ++ sample_more)
           sample_world (b "AAA") eq_refl eq_refl).
Defined.

(** An object that holds the ledger of [sample_run] does to the directory
    what a fresh [add] does. *)
Lemma kept_object_stays_in_step_witness :
  coherent sample_self (run toy_encode toy_decode sample_run sample_world)
  ∧ (add toy_encode toy_decode sample_self "Update" env_on
       (run toy_encode toy_decode sample_run sample_world)).2
    = (cmd_add toy_encode toy_decode "pdf" 5 "Update" env_on
         (run toy_encode toy_decode sample_run sample_world)).2.
Proof.
  assert (coherent sample_self
            (run toy_encode toy_decode sample_run sample_world)) as Hco
    by (apply loaded_load_typed, sample_run_loaded).
  split; [exact Hco |].
  pose proof (kept_object_stays_in_step toy_encode toy_decode sample_self
                "Update" env_on _ Hco) as (_ & _ & _ & _ & _ & _ & Hsame).
  exact (proj1 (Hsame "pdf" 5)).
Defined.

(** "logo" occurs twice in the current version and counts once. *)
Lemma compare_images_counts_and_swap_witness :
  compare_images_detailed sample_hash sample_current sample_other
  = Ok sample_changes
  ∧ (length (removed sample_changes) + length (unchanged sample_changes))%nat
    = length (remove_dups (hashes sample_hash sample_current)).
Proof.
  split; [exact sample_compare |].
  exact (proj1 (compare_images_counts_and_swap sample_hash sample_current
                  sample_other sample_changes sample_compare)).
Defined.

(** After [init --interval 0], [add] divides by zero. *)
Lemma zero_interval_blocks_add_witness :
  meta sample_world = None
  ∧ loaded (run toy_encode toy_decode sample_zero sample_world)
    = Some (init_state "pdf" 0 "Initial version" env_on)
  ∧ snapshot_interval (init_state "pdf" 0 "Initial version" env_on) = 0
  ∧ doc (run toy_encode toy_decode sample_zero sample_world)
    = Some (b "AAB")
  ∧ cmd_add toy_encode toy_decode "pdf" 5 "Update" env_on
      (run toy_encode toy_decode sample_zero sample_world)
    = (Err ZeroDivisionError,
       run toy_encode toy_decode sample_zero sample_world).
Proof.
  split_and!; [reflexivity | exact sample_zero_loaded | reflexivity
              | reflexivity |].
  exact (proj1 (zero_interval_blocks_add toy_encode toy_decode sample_zero
                  sample_world _ (b "AAB") "pdf" 5 "Update" env_on eq_refl
                  sample_zero_loaded eq_refl eq_refl)).
Defined.

(** At interval 1, without the tool, both records are snapshots. *)
Lemma interval_one_stores_snapshots_only_witness :
  meta sample_world = None
  ∧ loaded (run toy_encode toy_decode sample_one sample_world)
    = Some sample_state_one
  ∧ Z.abs (snapshot_interval sample_state_one) = 1
  ∧ Forall (λ e, kind e = "snapshot") (versions sample_state_one).
Proof.
  split_and!; [reflexivity | exact sample_one_loaded | reflexivity |].
  exact (proj1 (interval_one_stores_snapshots_only toy_encode toy_decode
                  sample_one sample_world sample_state_one eq_refl
                  sample_one_loaded eq_refl)).
Defined.

(** Version 2 of [sample_run] is a delta: without the tool it cannot be
    read. *)
Lemma without_the_tool_only_snapshots_are_read_witness :
  meta sample_world = None
  ∧ loaded (run toy_encode toy_decode sample_run sample_world)
    = Some sample_state3
  ∧ versions sample_state3 !! 1%nat
    = Some (sample_entry 2 "delta" "v0002.delta" (Some 1))
  ∧ history toy_encode toy_decode sample_run sample_world !! 1%nat
    = Some (b "AAB")
  ∧ which_xdelta3 env_off = false
  ∧ _reconstruct_bytes toy_decode sample_state3 env_off 2
      (run toy_encode toy_decode sample_run sample_world)
    = Err (RuntimeError XdeltaNotAvailable).
Proof.
  assert (history toy_encode toy_decode sample_run sample_world !! 1%nat
          = Some (b "AAB")) as Hh by (vm_compute; reflexivity).
  split_and!; [reflexivity | exact sample_run_loaded | reflexivity
              | exact Hh | reflexivity |].
  destruct (without_the_tool_only_snapshots_are_read toy_encode toy_decode
              sample_run sample_world sample_state3 1%nat
              (sample_entry 2 "delta" "v0002.delta" (Some 1)) (b "AAB")
              env_off eq_refl sample_run_loaded eq_refl Hh eq_refl)
    as [[Hsnap _] | [_ Herr]]; [discriminate Hsnap | exact Herr].
Defined.
